(** * petabuf: a paged pipe buffer

    A shallow embedding of [petabuf.c] and the properties of its page store,
    its two cursors and its select loop.

    The program copies stdin to stdout through a table of [TABLESZ] pages
    of [PAGESZ] bytes.  In the source the cursor at which [read] deposits
    the bytes of stdin is called [rpos] and the cursor from which [write]
    takes the bytes for stdout is called [wpos]; the embedding keeps the
    names of the source.

    The kernel is the environment: what [select], [read], [write], [mmap],
    [munmap], [open] and [unlink] answer is given to the model, one record
    of answers per iteration of the loop.

    The model is that of an LP64 build on Linux with glibc, assertions
    compiled in: [size_t] has 64 bits, [uint32_t] arithmetic wraps at
    2^32, a failed [assert] ends the run, and getopt permutes its
    arguments.  *)

From Stdlib Require Import ZArith Lia List Bool String Ascii.

From Stdlib Require Import Strings.Byte.

From stdpp Require Import base decidable functions gmap.

Import ListNotations.

Local Open Scope Z_scope.

#[local] Set Warnings "-clear-no-such-hyp".

(** ** Constants of the source *)

Definition PAGESZ : Z := Z.shiftl 1 24.      (* 16 MiB *)

Definition TABLESZ : Z := Z.shiftl 1 26.     (* 1 PiB worth of pages *)

Definition PAGE_MAPPED : Z := 1.

Definition PAGE_ONDISK : Z := 2.

(** Machine integers: [uint8_t] for a slot of [states], [uint32_t] for the
    fields of a cursor, [size_t] (64 bits) for the counters. *)
Definition wrap8 (x : Z) : Z := x mod 2 ^ 8.

Definition wrap32 (x : Z) : Z := x mod 2 ^ 32.

Definition wrap64 (x : Z) : Z := x mod 2 ^ 64.

(** [states[idx] & flag] as a C truth value. *)
Definition has (v flag : Z) : bool := negb (Z.land v flag =? 0).

(** [states[idx] |= flag] and [states[idx] &= ~flag] on a [uint8_t]. *)
Definition set_flag (v flag : Z) : Z := wrap8 (Z.lor v flag).

Definition clear_flag (v flag : Z) : Z := wrap8 (Z.land v (Z.lnot flag)).

Record paddr := { idx : Z; off : Z }.

(** ** The world outside the program *)

(** A byte stream of known length: stdin as far as it was consumed, and
    stdout as far as it was produced.  A page holds 2^24 bytes and a
    stream up to 2^50, so both are kept as a function of the position. *)
Record stream := { len : Z; at_ : Z -> byte }.

Definition bytes_of (st : stream) : list byte :=
  map (fun n => at_ st (Z.of_nat n)) (seq 0 (Z.to_nat (len st))).

Definition of_list (l : list byte) : Z -> byte :=
  fun j => nth (Z.to_nat j) l x00.

Definition stream_of (l : list byte) : stream :=
  {| len := Z.of_nat (length l); at_ := of_list l |}.

(** One line on stderr.  The numbers the source prints with [%zu] and [%u]
    are kept as numbers. *)
Inductive diag :=
| Line (text : string)
| GetoptSays (c : ascii)
| MemReport (memsize : Z)
| Counters (nm nd nf : Z)
| Cursors (ri ro wi wo : Z)
| ReadBytes (k : Z)
| WroteBytes (k : Z).

Definition usage_line : string := "usage: ... | petabuf | ...".

(** The assertions of the source. *)
Inductive assertion :=
| A_pin_idx          (* page_pin:   idx < TABLESZ *)
| A_unpin_idx        (* page_unpin: idx < TABLESZ *)
| A_free_idx         (* page_free:  idx < TABLESZ *)
| A_free_not_pinned  (* page_free:  !(states[idx] & PAGE_MAPPED) *)
| A_ptr_idx          (* page_ptr:   addr.idx < TABLESZ *)
| A_ptr_off          (* page_ptr:   addr.off < PAGESZ *)
| A_ptr_mapped       (* page_ptr:   states[addr.idx] & PAGE_MAPPED *)
| A_path_idx.        (* page_filepath: idx < TABLESZ *)

(** ** Program state

    The globals of the source ([headroom], [states], the three counters,
    the two cursors), the two locals of [main] that live across iterations
    ([ntoread], [ntowrite]), and the part of the world the program acts on:
    the memory behind [pages[idx]] (for a page on disk this is the content
    of its spool file, which a shared mapping writes through to), the set of
    spool files that exist, and the three standard streams.  [eof_seen] is
    a history variable: a [read] has returned 0. *)
Record state := {
  headroom : bool;
  states : Z -> Z;
  nmapped : Z;
  nondisk : Z;
  nfree : Z;
  rpos : paddr;
  wpos : paddr;
  ntoread : Z;
  ntowrite : Z;
  pages : Z -> Z -> byte;
  files : gset Z;
  stdin_read : stream;
  eof_seen : bool;
  stdout : stream;
  stderr : list diag
}.

Definition set_headroom (x : bool) (s : state) : state :=
  {| headroom := x; states := states s; nmapped := nmapped s;
     nondisk := nondisk s; nfree := nfree s; rpos := rpos s; wpos := wpos s;
     ntoread := ntoread s; ntowrite := ntowrite s; pages := pages s;
     files := files s; stdin_read := stdin_read s; eof_seen := eof_seen s;
     stdout := stdout s; stderr := stderr s |}.

Definition set_states (x : Z -> Z) (s : state) : state :=
  {| headroom := headroom s; states := x; nmapped := nmapped s;
     nondisk := nondisk s; nfree := nfree s; rpos := rpos s; wpos := wpos s;
     ntoread := ntoread s; ntowrite := ntowrite s; pages := pages s;
     files := files s; stdin_read := stdin_read s; eof_seen := eof_seen s;
     stdout := stdout s; stderr := stderr s |}.

Definition set_nmapped (x : Z) (s : state) : state :=
  {| headroom := headroom s; states := states s; nmapped := x;
     nondisk := nondisk s; nfree := nfree s; rpos := rpos s; wpos := wpos s;
     ntoread := ntoread s; ntowrite := ntowrite s; pages := pages s;
     files := files s; stdin_read := stdin_read s; eof_seen := eof_seen s;
     stdout := stdout s; stderr := stderr s |}.

Definition set_nondisk (x : Z) (s : state) : state :=
  {| headroom := headroom s; states := states s; nmapped := nmapped s;
     nondisk := x; nfree := nfree s; rpos := rpos s; wpos := wpos s;
     ntoread := ntoread s; ntowrite := ntowrite s; pages := pages s;
     files := files s; stdin_read := stdin_read s; eof_seen := eof_seen s;
     stdout := stdout s; stderr := stderr s |}.

Definition set_nfree (x : Z) (s : state) : state :=
  {| headroom := headroom s; states := states s; nmapped := nmapped s;
     nondisk := nondisk s; nfree := x; rpos := rpos s; wpos := wpos s;
     ntoread := ntoread s; ntowrite := ntowrite s; pages := pages s;
     files := files s; stdin_read := stdin_read s; eof_seen := eof_seen s;
     stdout := stdout s; stderr := stderr s |}.

Definition set_rpos (x : paddr) (s : state) : state :=
  {| headroom := headroom s; states := states s; nmapped := nmapped s;
     nondisk := nondisk s; nfree := nfree s; rpos := x; wpos := wpos s;
     ntoread := ntoread s; ntowrite := ntowrite s; pages := pages s;
     files := files s; stdin_read := stdin_read s; eof_seen := eof_seen s;
     stdout := stdout s; stderr := stderr s |}.

Definition set_wpos (x : paddr) (s : state) : state :=
  {| headroom := headroom s; states := states s; nmapped := nmapped s;
     nondisk := nondisk s; nfree := nfree s; rpos := rpos s; wpos := x;
     ntoread := ntoread s; ntowrite := ntowrite s; pages := pages s;
     files := files s; stdin_read := stdin_read s; eof_seen := eof_seen s;
     stdout := stdout s; stderr := stderr s |}.

Definition set_ntoread (x : Z) (s : state) : state :=
  {| headroom := headroom s; states := states s; nmapped := nmapped s;
     nondisk := nondisk s; nfree := nfree s; rpos := rpos s; wpos := wpos s;
     ntoread := x; ntowrite := ntowrite s; pages := pages s;
     files := files s; stdin_read := stdin_read s; eof_seen := eof_seen s;
     stdout := stdout s; stderr := stderr s |}.

Definition set_ntowrite (x : Z) (s : state) : state :=
  {| headroom := headroom s; states := states s; nmapped := nmapped s;
     nondisk := nondisk s; nfree := nfree s; rpos := rpos s; wpos := wpos s;
     ntoread := ntoread s; ntowrite := x; pages := pages s;
     files := files s; stdin_read := stdin_read s; eof_seen := eof_seen s;
     stdout := stdout s; stderr := stderr s |}.

Definition set_pages (x : Z -> Z -> byte) (s : state) : state :=
  {| headroom := headroom s; states := states s; nmapped := nmapped s;
     nondisk := nondisk s; nfree := nfree s; rpos := rpos s; wpos := wpos s;
     ntoread := ntoread s; ntowrite := ntowrite s; pages := x;
     files := files s; stdin_read := stdin_read s; eof_seen := eof_seen s;
     stdout := stdout s; stderr := stderr s |}.

Definition set_files (x : gset Z) (s : state) : state :=
  {| headroom := headroom s; states := states s; nmapped := nmapped s;
     nondisk := nondisk s; nfree := nfree s; rpos := rpos s; wpos := wpos s;
     ntoread := ntoread s; ntowrite := ntowrite s; pages := pages s;
     files := x; stdin_read := stdin_read s; eof_seen := eof_seen s;
     stdout := stdout s; stderr := stderr s |}.

Definition set_stdin_read (x : stream) (s : state) : state :=
  {| headroom := headroom s; states := states s; nmapped := nmapped s;
     nondisk := nondisk s; nfree := nfree s; rpos := rpos s; wpos := wpos s;
     ntoread := ntoread s; ntowrite := ntowrite s; pages := pages s;
     files := files s; stdin_read := x; eof_seen := eof_seen s;
     stdout := stdout s; stderr := stderr s |}.

Definition set_eof_seen (x : bool) (s : state) : state :=
  {| headroom := headroom s; states := states s; nmapped := nmapped s;
     nondisk := nondisk s; nfree := nfree s; rpos := rpos s; wpos := wpos s;
     ntoread := ntoread s; ntowrite := ntowrite s; pages := pages s;
     files := files s; stdin_read := stdin_read s; eof_seen := x;
     stdout := stdout s; stderr := stderr s |}.

Definition set_stdout (x : stream) (s : state) : state :=
  {| headroom := headroom s; states := states s; nmapped := nmapped s;
     nondisk := nondisk s; nfree := nfree s; rpos := rpos s; wpos := wpos s;
     ntoread := ntoread s; ntowrite := ntowrite s; pages := pages s;
     files := files s; stdin_read := stdin_read s; eof_seen := eof_seen s;
     stdout := x; stderr := stderr s |}.

Definition set_stderr (x : list diag) (s : state) : state :=
  {| headroom := headroom s; states := states s; nmapped := nmapped s;
     nondisk := nondisk s; nfree := nfree s; rpos := rpos s; wpos := wpos s;
     ntoread := ntoread s; ntowrite := ntowrite s; pages := pages s;
     files := files s; stdin_read := stdin_read s; eof_seen := eof_seen s;
     stdout := stdout s; stderr := x |}.

(** ** Results

    A call either goes on with a new state, or ends the process: [err],
    [errx] and the two [return 1] of [main] with an exit status, a failed
    [assert] with [abort].  [BadEnv] marks an answer that no kernel gives
    (a [read] that returns more than it was asked for). *)
Inductive res :=
| Ok (s : state)
| Exited (code : Z) (s : state)
| Aborted (a : assertion)
| BadEnv.

Definition bind (r : res) (k : state -> res) : res :=
  match r with
  | Ok s => k s
  | Exited c s => Exited c s
  | Aborted a => Aborted a
  | BadEnv => BadEnv
  end.

Notation "s <- r ;; k" := (bind r (fun s => k))
  (at level 62, r at next level, right associativity, only parsing).

Definition assert (c : bool) (a : assertion) (s : state) : res :=
  if c then Ok s else Aborted a.

Definition log (d : diag) (s : state) : state :=
  set_stderr (stderr s ++ [d]) s.

(** [err(1, msg)] and [errx(1, msg)]: the message, then exit status 1. *)
Definition die (msg : string) (s : state) : res :=
  Exited 1 (log (Line msg) s).

Definition log_counters (s : state) : state :=
  log (Counters (nmapped s) (nondisk s) (nfree s)) s.

(** ** Answers of the kernel *)

Inductive mmap_res := MapOk | MapNoMem | MapFail.

(** Opening, growing, mapping and closing a spool file: all four succeed,
    or the first one that fails. *)
Inductive spool_res := SpOk | SpOpen | SpGrow | SpMap | SpClose.

(** What the kernel answers to the page operations of one cursor crossing:
    [anon] to the anonymous [mmap], [spool] to the calls on the spool file,
    [munmap_ok] to [munmap], [unlink_ok] to [unlink]. *)
Record sys := {
  anon : mmap_res;
  spool : spool_res;
  munmap_ok : bool;
  unlink_ok : bool
}.

Inductive read_res := ReadErr | ReadEof | ReadData (k : Z) (d : Z -> byte).

Inductive write_res := WriteErr | Wrote (k : Z).

(** The answers during one iteration of the loop of [main]. *)
Record event := {
  select_ok : bool;
  stdin_ready : bool;
  stdout_ready : bool;
  rd : read_res;
  rd_sys : sys;
  wr : write_res;
  wr_sys : sys
}.

(** ** The page store *)

(** [page_filepath]: the path is [/tmp/petabuf.<idx>], at most 33
    characters, so the [errx] for a path of [PATH_MAX] or more is never
    reached; the model names a spool file by its index. *)
Definition page_filepath (i : Z) (s : state) : res :=
  assert (i <? TABLESZ) A_path_idx s.

(** The branch [new page on disk] of [page_pin]. *)
Definition pin_ondisk (sy : sys) (i : Z) (s : state) : res :=
  s <- page_filepath i s ;;
  match spool sy with
  | SpOpen => die "creating" s
  | r =>
      let s := set_files ({[ i ]} ∪ files s) s in
      let s := set_pages (<[ i := fun _ => x00 ]> (pages s)) s in
      match r with
      | SpGrow => die "growing" s
      | SpMap => die "mapping" s
      | SpClose => die "closing" s
      | _ =>
          let s := set_states
            (<[ i := set_flag (states s i) (Z.lor PAGE_MAPPED PAGE_ONDISK) ]>
               (states s)) s in
          let s := set_nmapped (wrap64 (nmapped s + 1)) s in
          Ok (set_nondisk (wrap64 (nondisk s + 1)) s)
      end
  end.

(** The branch [existing page on disk] of [page_pin]. *)
Definition pin_existing (sy : sys) (i : Z) (s : state) : res :=
  s <- page_filepath i s ;;
  if negb (bool_decide (i ∈ files s)) then die "opening" s else
  match spool sy with
  | SpOpen => die "opening" s
  | SpMap => die "mapping" s
  | SpClose => die "closing" s
  | _ =>
      let s := set_states
        (<[ i := set_flag (states s i) PAGE_MAPPED ]> (states s)) s in
      Ok (set_nmapped (wrap64 (nmapped s + 1)) s)
  end.

(** The branch [new page in memory] of [page_pin], with its [goto ondisk]. *)
Definition pin_anon (sy : sys) (i : Z) (s : state) : res :=
  match anon sy with
  | MapOk =>
      let s := set_pages (<[ i := fun _ => x00 ]> (pages s)) s in
      let s := set_states
        (<[ i := set_flag (states s i) PAGE_MAPPED ]> (states s)) s in
      let s := set_nmapped (wrap64 (nmapped s + 1)) s in
      Ok (set_nfree (wrap64 (nfree s - 1)) s)
  | MapFail => die "allocating page" s
  | MapNoMem =>
      let s := log (Line "out of memory, resetting nfree") s in
      let s := set_nfree 0 s in
      let s := if headroom s
               then set_headroom false (log (Line "using headroom") s)
               else s in
      pin_ondisk sy i s
  end.

Definition page_pin (sy : sys) (i : Z) (s : state) : res :=
  s <- assert (i <? TABLESZ) A_pin_idx s ;;
  if has (states s i) PAGE_MAPPED then Ok s else
  s <- (if has (states s i) PAGE_ONDISK then pin_existing sy i s
        else if negb (nfree s =? 0) then pin_anon sy i s
        else pin_ondisk sy i s) ;;
  Ok (log_counters s).

Definition page_unpin (sy : sys) (i : Z) (s : state) : res :=
  s <- assert (i <? TABLESZ) A_unpin_idx s ;;
  if negb (has (states s i) PAGE_MAPPED) then Ok s else
  if has (states s i) PAGE_ONDISK then
    if munmap_ok sy then
      let s := set_states
        (<[ i := clear_flag (states s i) PAGE_MAPPED ]> (states s)) s in
      let s := set_nmapped (wrap64 (nmapped s - 1)) s in
      Ok (log_counters s)
    else die "unmapping page" s
  else Ok s.

Definition page_free (sy : sys) (i : Z) (s : state) : res :=
  s <- assert (i <? TABLESZ) A_free_idx s ;;
  if has (states s i) PAGE_ONDISK then
    s <- assert (negb (has (states s i) PAGE_MAPPED)) A_free_not_pinned s ;;
    s <- page_filepath i s ;;
    if unlink_ok sy && bool_decide (i ∈ files s) then
      let s := set_files (files s ∖ {[ i ]}) s in
      let s := set_states
        (<[ i := clear_flag (states s i) PAGE_ONDISK ]> (states s)) s in
      let s := set_nondisk (wrap64 (nondisk s - 1)) s in
      Ok (log_counters s)
    else die "unlinking" s
  else if has (states s i) PAGE_MAPPED then
    if munmap_ok sy then
      let s := set_states
        (<[ i := clear_flag (states s i) PAGE_MAPPED ]> (states s)) s in
      let s := set_nmapped (wrap64 (nmapped s - 1)) s in
      let s := set_nfree (wrap64 (nfree s + 1)) s in
      Ok (log_counters s)
    else die "freeing page" s
  else Ok s.

(** [page_ptr]: the address is the cursor itself; only the assertions act. *)
Definition page_ptr (addr : paddr) (s : state) : res :=
  s <- assert (idx addr <? TABLESZ) A_ptr_idx s ;;
  s <- assert (off addr <? PAGESZ) A_ptr_off s ;;
  assert (has (states s (idx addr)) PAGE_MAPPED) A_ptr_mapped s.

(** ** The loop of [main] *)

(** [read] stores [k] bytes at [page_ptr(rpos)]; they leave stdin. *)
Definition deposit (k : Z) (d : Z -> byte) (s : state) : state :=
  let i := idx (rpos s) in
  let o := off (rpos s) in
  let pg := pages s i in
  let s := set_pages
    (<[ i := fun x => if (o <=? x) && (x <? o + k) then d (x - o) else pg x ]>
       (pages s)) s in
  let n := len (stdin_read s) in
  let f := at_ (stdin_read s) in
  set_stdin_read
    {| len := n + k; at_ := fun p => if p <? n then f p else d (p - n) |} s.

(** [write] sends the [k] bytes at [page_ptr(wpos)] to stdout. *)
Definition emit (k : Z) (s : state) : state :=
  let pg := pages s (idx (wpos s)) in
  let o := off (wpos s) in
  let n := len (stdout s) in
  let f := at_ (stdout s) in
  set_stdout
    {| len := n + k; at_ := fun p => if p <? n then f p else pg (o + (p - n)) |}
    s.

(** The body of [if (FD_ISSET(STDIN_FILENO, &read_fds))]. *)
Definition read_stdin (e : event) (s : state) : res :=
  s <- page_ptr (rpos s) s ;;
  match rd e with
  | ReadErr => die "read" s
  | ReadEof =>
      Ok (set_eof_seen true (set_ntoread 0 (log (Line "end of input") s)))
  | ReadData k d =>
      if negb ((1 <=? k) && (k <=? ntoread s)) then BadEnv else
      let s := log (ReadBytes k) (deposit k d s) in
      let s := set_rpos
        {| idx := idx (rpos s); off := wrap32 (off (rpos s) + wrap32 k) |} s in
      s <- (if off (rpos s) =? PAGESZ then
              s <- (if negb (idx (rpos s) =? idx (wpos s))
                    then page_unpin (rd_sys e) (idx (rpos s)) s
                    else Ok s) ;;
              let s := set_rpos
                {| idx := wrap32 (idx (rpos s) + 1); off := off (rpos s) |} s in
              if TABLESZ <=? idx (rpos s) then die "out of pages" s else
              s <- page_pin (rd_sys e) (idx (rpos s)) s ;;
              Ok (set_rpos {| idx := idx (rpos s); off := 0 |} s)
            else Ok s) ;;
      Ok (set_ntoread (wrap32 (PAGESZ - off (rpos s))) s)
  end.

(** The body of [if (FD_ISSET(STDOUT_FILENO, &write_fds))]. *)
Definition write_stdout (e : event) (s : state) : res :=
  s <- page_ptr (wpos s) s ;;
  match wr e with
  | WriteErr => die "write" s
  | Wrote k =>
      if negb ((0 <=? k) && (k <=? ntowrite s)) then BadEnv else
      let s := log (WroteBytes k) (emit k s) in
      let s := set_wpos
        {| idx := idx (wpos s); off := wrap32 (off (wpos s) + wrap32 k) |} s in
      if off (wpos s) =? PAGESZ then
        s <- page_unpin (wr_sys e) (idx (wpos s)) s ;;
        s <- page_free (wr_sys e) (idx (wpos s)) s ;;
        let s := set_wpos
          {| idx := wrap32 (idx (wpos s) + 1); off := off (wpos s) |} s in
        s <- page_pin (wr_sys e) (idx (wpos s)) s ;;
        Ok (set_wpos {| idx := idx (wpos s); off := 0 |} s)
      else Ok s
  end.

(** [ntoread || ntowrite] *)
Definition loop_cond (s : state) : bool :=
  negb (ntoread s =? 0) || negb (ntowrite s =? 0).

(** [(wpos.idx == rpos.idx ? rpos.off : PAGESZ) - wpos.off], in [uint32_t]. *)
Definition towrite (s : state) : Z :=
  wrap32 ((if idx (wpos s) =? idx (rpos s) then off (rpos s) else PAGESZ)
          - off (wpos s)).

(** One iteration of [while (ntoread || ntowrite)].  A descriptor is found
    set after [select] when it was put in its set and the kernel reports it
    ready. *)
Definition iteration (e : event) (s : state) : res :=
  let s := log (Cursors (idx (rpos s)) (off (rpos s))
                        (idx (wpos s)) (off (wpos s))) s in
  if negb (select_ok e) then die "select" s else
  s <- (if negb (ntoread s =? 0) && stdin_ready e
        then read_stdin e s else Ok s) ;;
  s <- (if negb (ntowrite s =? 0) && stdout_ready e
        then write_stdout e s else Ok s) ;;
  Ok (set_ntowrite (towrite s) s).

(** The loop, for as many iterations as the trace has answers: the state at
    the iteration boundary where the loop has ended or waits in [select]. *)
Fixpoint exec (tr : list event) (s : state) : res :=
  match tr with
  | [] => Ok s
  | e :: tr' =>
      if loop_cond s then s' <- iteration e s ;; exec tr' s' else Ok s
  end.

(** ** Start-up *)

(** [NONOPTION_P] of glibc's getopt: an argument that does not start with
    [-], or [-] alone. *)
Definition nonoption (arg : string) : bool :=
  match arg with
  | String "-" (String _ _) => false
  | _ => true
  end.

(** The scan of [argv[1..]] by the first call of getopt, with [skipped]
    non-options behind it. *)
Fixpoint getopt_scan (skipped : Z) (args : list string)
  : Z * Z * list diag :=
  match args with
  | [] => (-1, 1, [])
  | arg :: rest =>
      if nonoption arg then getopt_scan (skipped + 1) rest else
      match arg with
      | String _ (String c r) =>
          if (Ascii.eqb c "-" && String.eqb r "")%bool then (-1, 2, [])
          else (Z.of_nat (nat_of_ascii "?"),
                1 + skipped + (if String.eqb r "" then 1 else 0),
                [GetoptSays c])
      | _ => (-1, 1, [])
      end
  end.

(** [getopt(argc, argv, "")] on its first call, as glibc does it when
    [POSIXLY_CORRECT] is not set: the return value, [optind] after the
    call, and what getopt itself writes to stderr.  glibc permutes: it
    skips the arguments that are not options and goes on to the first one
    that is.  With an empty option string every option character is
    unknown: getopt complains about the first character after the [-] and
    returns ['?'].  The argument [--] ends the options and is moved before
    the arguments skipped, so [optind] is 2 after it; with no option at
    all [optind] stays 1, the place of the first argument. *)
Definition getopt (args : list string) : Z * Z * list diag :=
  match args with
  | [] => (-1, 1, [])
  | _ :: rest => getopt_scan 0 rest
  end.

(** What the program is started with, and what the kernel answers before
    the loop: [memsize] is the result of [get_memsize], [None] when the
    probe fails. *)
Record boot_env := {
  argv : list string;
  malloc_ok : bool;
  memsize : option Z;
  fcntl_ok : bool;
  pin0 : sys
}.

(** The statics of the source start as zero.  The two tables come from
    [malloc] and are read before they are written: the program relies on
    the 64 MiB block of [states] being fresh zero pages of the kernel, and
    so does the model. *)
Definition init : state :=
  {| headroom := false; states := fun _ => 0; nmapped := 0; nondisk := 0;
     nfree := 0; rpos := {| idx := 0; off := 0 |};
     wpos := {| idx := 0; off := 0 |}; ntoread := 0; ntowrite := 0;
     pages := fun _ _ => x00; files := ∅;
     stdin_read := {| len := 0; at_ := fun _ => x00 |}; eof_seen := false;
     stdout := {| len := 0; at_ := fun _ => x00 |}; stderr := [] |}.

(** [main] up to the loop. *)
Definition boot (b : boot_env) : res :=
  let s := init in
  let '(c, optind, says) := getopt (argv b) in
  let s := set_stderr (stderr s ++ says) s in
  if negb (c =? -1) then Exited 1 s else
  if negb (Z.of_nat (length (argv b)) =? optind)
  then Exited 1 (log (Line usage_line) s) else
  if negb (malloc_ok b) then die "allocating" s else
  let s := set_headroom true s in
  match memsize b with
  | None => die "sysinfo" s
  | Some m =>
      if negb ((0 <=? m) && (m <? 2 ^ 64)) then BadEnv else
      let s := set_nfree (m / PAGESZ / 2) s in
      let s := log (MemReport m) s in
      if negb (fcntl_ok b) then die "setting flags" s else
      let s := log_counters s in
      s <- page_pin (pin0 b) 0 s ;;
      Ok (set_ntowrite 0 (set_ntoread PAGESZ s))
  end.

(** The state at the iteration boundary reached after the answers [tr]. *)
Definition boundary (b : boot_env) (tr : list event) : res :=
  s <- boot b ;; exec tr s.

(** [main]: [Exited 0 s] when the loop has ended and [main] returns 0;
    [Ok s] when the answers are used up and the loop waits in [select]. *)
Definition main (b : boot_env) (tr : list event) : res :=
  s <- boundary b tr ;;
  if loop_cond s then Ok s else Exited 0 s.

(** ** Reading the table *)

(** A truth value as a number, to count with. *)
Definition b2z (b : bool) : Z := if b then 1 else 0.

(** [M] is the set of the slots of the table whose state satisfies [p]. *)
Definition slots_where (p : Z -> bool) (st : Z -> Z) (M : gset Z) : Prop :=
  forall j, j ∈ M <-> 0 <= j < TABLESZ /\ p (st j) = true.

(** [n] is the number of slots of the table whose state satisfies [p]. *)
Definition count_is (p : Z -> bool) (st : Z -> Z) (n : Z) : Prop :=
  exists M : gset Z, slots_where p st M /\ n = Z.of_nat (size M).

(** A page in anonymous memory: [MAPPED] and not [ONDISK]. *)
Definition memonly (v : Z) : bool :=
  has v PAGE_MAPPED && negb (has v PAGE_ONDISK).

(** Lexicographic order on [(idx, off)]. *)
Definition lex_le (a b : paddr) : Prop :=
  idx a < idx b \/ (idx a = idx b /\ off a <= off b).

(** ** Weakest preconditions

    [wp X r Q]: the call [r] does not fail an assertion, and when it goes
    on, the new state satisfies [Q].  [X] says what holds when the process
    exits or the answers are not those of a kernel: with [X := True] this
    is safety under every environment; with [X := False] the call goes on. *)
Definition wp (X : Prop) (r : res) (Q : state -> Prop) : Prop :=
  match r with
  | Ok s => Q s
  | Exited _ _ => X
  | Aborted _ => False
  | BadEnv => X
  end.

(** The kernel refuses nothing; [ENOMEM] on the anonymous [mmap] is not a
    refusal, the program recovers from it. *)
Definition sys_ok (sy : sys) : Prop :=
  anon sy <> MapFail /\ spool sy = SpOk /\
  munmap_ok sy = true /\ unlink_ok sy = true.

(** ** The page store keeps its books

    [store_ok B s]: every slot holds one of the four states, the counters
    are the population counts of the table, the budget [nfree] and the
    pages held in anonymous memory stay within the initial budget [B], and
    the spool files that exist are those of the slots marked [ONDISK]. *)
Record store_ok (B : Z) (s : state) : Prop := {
  so_val : forall j, 0 <= states s j <= 3;
  so_dom : forall j, states s j <> 0 -> 0 <= j < TABLESZ;
  so_nmapped : count_is (fun v => has v PAGE_MAPPED) (states s) (nmapped s);
  so_nondisk : count_is (fun v => has v PAGE_ONDISK) (states s) (nondisk s);
  so_nfree : 0 <= nfree s;
  so_budget : exists a, count_is (fun v => v =? 1) (states s) a /\
                        nfree s + a <= B;
  so_files : forall j, j ∈ files s <-> has (states s j) PAGE_ONDISK = true
}.

(** What a page operation leaves alone, and what it does to its slot:
    the slot [i] ends in state [v'] and the budget is [nf']. *)
Record page_post (B i v' nf' : Z) (s s' : state) : Prop := {
  pp_store : store_ok B s';
  pp_rpos : rpos s' = rpos s;
  pp_wpos : wpos s' = wpos s;
  pp_ntoread : ntoread s' = ntoread s;
  pp_ntowrite : ntowrite s' = ntowrite s;
  pp_stdin : stdin_read s' = stdin_read s;
  pp_eof : eof_seen s' = eof_seen s;
  pp_stdout : stdout s' = stdout s;
  pp_slot : states s' i = v';
  pp_others : forall j, j <> i -> states s' j = states s j;
  pp_nfree : nfree s' = nf';
  pp_pages : forall j, j <> i \/ states s i <> 0 -> pages s' j = pages s j
}.

(** The state a slot is in after [page_unpin]: a page on disk that was
    mapped is not mapped any more. *)
Definition unpin_state (v : Z) : Z := if v =? 3 then 2 else v.

(** The budget after [page_free]: a page in anonymous memory gives its
    place back. *)
Definition free_nfree (nf v : Z) : Z := nf + b2z (v =? 1).

(** The state a slot is in after [page_pin], and the budget after it. *)
Definition pin_state (sy : sys) (nf v : Z) : Z :=
  if v =? 0 then
    if nf =? 0 then 3 else match anon sy with MapNoMem => 3 | _ => 1 end
  else if v =? 2 then 3 else v.

Definition pin_nfree (sy : sys) (nf v : Z) : Z :=
  if v =? 0 then
    if nf =? 0 then 0 else match anon sy with MapNoMem => 0 | _ => nf - 1 end
  else nf.

(** ** The invariant of the loop *)

(** The state of slot [j] when the drain cursor is in page [l] and the
    intake cursor in page [h]: absent outside [l..h]; present inside; the
    two pages the cursors stand in are mapped; a page strictly between them
    is in memory, or on disk and not mapped. *)
Definition slot_ok (l h j v : Z) : Prop :=
  (j < l \/ h < j -> v = 0) /\
  (l <= j <= h -> 1 <= v <= 3) /\
  (j = l \/ j = h -> v <> 2) /\
  (l < j < h -> v <> 3).

(** What was sent is what was read, and the pages hold what was read and
    not yet sent. *)
Definition data_ok (s : state) : Prop :=
  (forall p, 0 <= p < len (stdout s) ->
     at_ (stdout s) p = at_ (stdin_read s) p) /\
  (forall i o, 0 <= o < PAGESZ ->
     len (stdout s) <= i * PAGESZ + o < len (stdin_read s) ->
     pages s i o = at_ (stdin_read s) (i * PAGESZ + o)).

(** The bytes between the two cursors that lie in the drain cursor's page:
    the value [ntowrite] is given at the end of an iteration. *)
Definition avail (s : state) : Z :=
  (if idx (wpos s) =? idx (rpos s) then off (rpos s) else PAGESZ)
  - off (wpos s).

(** What holds of the cursors, the table and the streams whenever no
    cursor is in the middle of a page crossing. *)
Record Inv0 (B : Z) (s : state) : Prop := {
  i_store : store_ok B s;
  i_wo : 0 <= off (wpos s) < PAGESZ;
  i_ro : 0 <= off (rpos s) < PAGESZ;
  i_wi : 0 <= idx (wpos s);
  i_ri : idx (rpos s) < TABLESZ;
  i_in : len (stdin_read s) = idx (rpos s) * PAGESZ + off (rpos s);
  i_out : len (stdout s) = idx (wpos s) * PAGESZ + off (wpos s);
  i_le : len (stdout s) <= len (stdin_read s);
  i_slots : forall j, slot_ok (idx (wpos s)) (idx (rpos s)) j (states s j);
  i_ntoread : ntoread s = if eof_seen s then 0 else PAGESZ - off (rpos s);
  i_data : data_ok s
}.

(** Between the two halves of an iteration [ntowrite] is what the last
    iteration left: no more than what is there now. *)
Definition Inv (B : Z) (s : state) : Prop :=
  Inv0 B s /\ 0 <= ntowrite s <= avail s.

(** At an iteration boundary. *)
Definition InvB (B : Z) (s : state) : Prop :=
  Inv0 B s /\ ntowrite s = avail s.

(** The answers to the read half let the loop go on. *)
Definition read_ok (e : event) (s : state) : Prop :=
  sys_ok (rd_sys e) /\
  match rd e with
  | ReadErr => False
  | ReadEof => True
  | ReadData k _ =>
      1 <= k <= ntoread s /\
      (off (rpos s) + k = PAGESZ -> idx (rpos s) + 1 < TABLESZ)
  end.

Definition write_ok (e : event) (s : state) : Prop :=
  sys_ok (wr_sys e) /\
  match wr e with
  | WriteErr => False
  | Wrote k => 0 <= k <= ntowrite s
  end.

(** What one iteration takes from stdin and gives to stdout. *)
Definition reads (e : event) (s : state) : bool :=
  negb (ntoread s =? 0) && stdin_ready e.

Definition writes (e : event) (s : state) : bool :=
  negb (ntowrite s =? 0) && stdout_ready e.

Definition nread (e : event) (s : state) : Z :=
  if reads e s then match rd e with ReadData k _ => k | _ => 0 end else 0.

Definition nwritten (e : event) (s : state) : Z :=
  if writes e s then match wr e with Wrote k => k | _ => 0 end else 0.

Definition chunk (e : event) : Z -> byte :=
  match rd e with ReadData _ d => d | _ => fun _ => x00 end.

Definition sees_eof (e : event) (s : state) : bool :=
  reads e s && match rd e with ReadEof => true | _ => false end.

(** The cursor leaves its page in this iteration. *)
Definition rcross (e : event) (s : state) : bool :=
  off (rpos s) + nread e s =? PAGESZ.

Definition wcross (e : event) (s : state) : bool :=
  off (wpos s) + nwritten e s =? PAGESZ.

(** What [deposit] and [emit] leave alone. *)
Record deposit_post (k : Z) (d : Z -> byte) (s s1 : state) : Prop := {
  dp_rpos : rpos s1 = rpos s;
  dp_wpos : wpos s1 = wpos s;
  dp_states : states s1 = states s;
  dp_nmapped : nmapped s1 = nmapped s;
  dp_nondisk : nondisk s1 = nondisk s;
  dp_nfree : nfree s1 = nfree s;
  dp_files : files s1 = files s;
  dp_ntoread : ntoread s1 = ntoread s;
  dp_ntowrite : ntowrite s1 = ntowrite s;
  dp_eof : eof_seen s1 = eof_seen s;
  dp_stdout : stdout s1 = stdout s;
  dp_len : len (stdin_read s1) = len (stdin_read s) + k;
  dp_old : forall p, p < len (stdin_read s) ->
             at_ (stdin_read s1) p = at_ (stdin_read s) p;
  dp_new : forall j, 0 <= j ->
             at_ (stdin_read s1) (len (stdin_read s) + j) = d j
}.

Record emit_post (k : Z) (s s1 : state) : Prop := {
  ep_rpos : rpos s1 = rpos s;
  ep_wpos : wpos s1 = wpos s;
  ep_states : states s1 = states s;
  ep_nmapped : nmapped s1 = nmapped s;
  ep_nondisk : nondisk s1 = nondisk s;
  ep_nfree : nfree s1 = nfree s;
  ep_files : files s1 = files s;
  ep_ntoread : ntoread s1 = ntoread s;
  ep_ntowrite : ntowrite s1 = ntowrite s;
  ep_eof : eof_seen s1 = eof_seen s;
  ep_stdin : stdin_read s1 = stdin_read s;
  ep_len : len (stdout s1) = len (stdout s) + k
}.

Definition rd_len (e : event) : Z :=
  match rd e with ReadData k _ => k | _ => 0 end.

Definition rd_eof (e : event) : bool :=
  match rd e with ReadEof => true | _ => false end.

(** What the read half of an iteration does. *)
Record read_post (e : event) (s s' : state) : Prop := {
  rp_wpos : wpos s' = wpos s;
  rp_ntowrite : ntowrite s' = ntowrite s;
  rp_stdout : stdout s' = stdout s;
  rp_eof : eof_seen s' = eof_seen s || rd_eof e;
  rp_len : len (stdin_read s') = len (stdin_read s) + rd_len e;
  rp_pos : 0 <= rd_len e;
  rp_old : forall p, p < len (stdin_read s) ->
             at_ (stdin_read s') p = at_ (stdin_read s) p;
  rp_new : forall j, 0 <= j < rd_len e ->
             at_ (stdin_read s') (len (stdin_read s) + j) = chunk e j;
  rp_nfree : nfree s' =
             if off (rpos s) + rd_len e =? PAGESZ
             then pin_nfree (rd_sys e) (nfree s) 0 else nfree s;
  rp_fresh : off (rpos s) + rd_len e = PAGESZ ->
             states s' (idx (rpos s) + 1) = pin_state (rd_sys e) (nfree s) 0;
  rp_low : forall j, j <= idx (wpos s) -> states s' j = states s j
}.

Definition wr_len (e : event) : Z :=
  match wr e with Wrote k => k | _ => 0 end.

(** What the write half of an iteration does. *)
Record write_post (e : event) (s s' : state) : Prop := {
  wq_rpos : rpos s' = rpos s;
  wq_ntoread : ntoread s' = ntoread s;
  wq_stdin : stdin_read s' = stdin_read s;
  wq_eof : eof_seen s' = eof_seen s;
  wq_len : len (stdout s') = len (stdout s) + wr_len e;
  wq_bound : 0 <= wr_len e <= ntowrite s;
  wq_nfree : nfree s' =
             if off (wpos s) + wr_len e =? PAGESZ
             then free_nfree (nfree s) (states s (idx (wpos s)))
             else nfree s;
  wq_high : forall j,
      idx (wpos s) + 1 < j \/ off (wpos s) + wr_len e <> PAGESZ ->
      states s' j = states s j
}.

(** The counts of an iteration, and what it does beside moving bytes. *)
Definition step_nfree (e : event) (s : state) : Z :=
  let nf := if rcross e s then pin_nfree (rd_sys e) (nfree s) 0
            else nfree s in
  if wcross e s then free_nfree nf (states s (idx (wpos s))) else nf.

Record step_post (e : event) (s s' : state) : Prop := {
  sp_in : len (stdin_read s') = len (stdin_read s) + nread e s;
  sp_out : len (stdout s') = len (stdout s) + nwritten e s;
  sp_nread : 0 <= nread e s;
  sp_nwritten : 0 <= nwritten e s;
  sp_eof : eof_seen s' = eof_seen s || sees_eof e s;
  sp_old : forall p, p < len (stdin_read s) ->
             at_ (stdin_read s') p = at_ (stdin_read s) p;
  sp_new : forall j, 0 <= j < nread e s ->
             at_ (stdin_read s') (len (stdin_read s) + j) = chunk e j;
  sp_nfree : nfree s' = step_nfree e s;
  sp_fresh : rcross e s = true ->
             states s' (idx (rpos s) + 1) = pin_state (rd_sys e) (nfree s) 0
}.

(** The answers of one iteration let the loop go on. *)
Definition event_ok (e : event) (s : state) : Prop :=
  select_ok e = true /\
  (reads e s = true -> read_ok e s) /\
  (writes e s = true -> write_ok e s).

(** ** From start-up to every iteration boundary *)

(** The budget [main] starts with: half of the memory, in pages. *)
Definition budget (b : boot_env) : Z :=
  match memsize b with Some m => m / PAGESZ / 2 | None => 0 end.

(** Start-up meets no refusal. *)
Definition boot_ok (b : boot_env) : Prop :=
  fst (fst (getopt (argv b))) = -1 /\
  Z.of_nat (length (argv b)) = snd (fst (getopt (argv b))) /\
  malloc_ok b = true /\
  (exists m, memsize b = Some m /\ 0 <= m < 2 ^ 64) /\
  fcntl_ok b = true /\
  sys_ok (pin0 b).

(** The state in which the loop is entered. *)
Record fresh (s : state) : Prop := {
  fr_eof : eof_seen s = false;
  fr_in : len (stdin_read s) = 0;
  fr_out : len (stdout s) = 0
}.

(** Along a run the streams only grow, and end of input stays seen. *)
Record grows (s s' : state) : Prop := {
  g_in : len (stdin_read s) <= len (stdin_read s');
  g_out : len (stdout s) <= len (stdout s');
  g_eof : eof_seen s = true -> eof_seen s' = true;
  g_old : forall p, p < len (stdin_read s) ->
            at_ (stdin_read s') p = at_ (stdin_read s) p
}.

(** Every exit before the end of the loop is an exit with status 1. *)
Definition exits1 (r : res) : Prop :=
  match r with Exited c _ => c = 1 | _ => True end.

(** ** Runs used as instances *)

Definition nice : sys :=
  {| anon := MapOk; spool := SpOk; munmap_ok := true; unlink_ok := true |}.

(** The anonymous [mmap] fails with [ENOMEM]; nothing else is refused. *)
Definition nomem : sys :=
  {| anon := MapNoMem; spool := SpOk; munmap_ok := true; unlink_ok := true |}.

(** [petabuf] started without arguments on a host with [m] bytes of
    memory. *)
Definition plain_boot (m : Z) : boot_env :=
  {| argv := ["petabuf"%string]; malloc_ok := true; memsize := Some m;
     fcntl_ok := true; pin0 := nice |}.

(** An iteration in which only stdin is ready and [read] returns the [k]
    bytes [d 0 .. d (k-1)]. *)
Definition ev_read (sy : sys) (k : Z) (d : Z -> byte) : event :=
  {| select_ok := true; stdin_ready := true; stdout_ready := false;
     rd := ReadData k d; rd_sys := sy; wr := Wrote 0; wr_sys := nice |}.

(** An iteration in which only stdin is ready and [read] returns 0. *)
Definition ev_eof : event :=
  {| select_ok := true; stdin_ready := true; stdout_ready := false;
     rd := ReadEof; rd_sys := nice; wr := Wrote 0; wr_sys := nice |}.

(** An iteration in which only stdout is ready and [write] takes [k]
    bytes. *)
Definition ev_write (k : Z) : event :=
  {| select_ok := true; stdin_ready := false; stdout_ready := true;
     rd := ReadEof; rd_sys := nice; wr := Wrote k; wr_sys := nice |}.

Definition zeros : Z -> byte := fun _ => x00.

(** The bytes of ["hello\n"]. *)
Definition hello : list byte := [x68; x65; x6c; x6c; x6f; x0a].

(** ["hello\n"] is read in one piece, then end of input, then it is
    written in one piece. *)
Definition hello_run : list event :=
  [ev_read nice 6 (of_list hello); ev_eof; ev_write 6].

Definition GiB8 : Z := 8589934592.

(** The state a run has reached, for runs that are known to go on or to
    have ended. *)
Definition state_of (r : res) : state :=
  match r with Ok s => s | Exited _ s => s | _ => init end.

Definition goes_on (r : res) : bool :=
  match r with Ok _ => true | _ => false end.

Definition exit_code (r : res) : option Z :=
  match r with Exited c _ => Some c | _ => None end.

(** Two full pages are read and nothing is written; the first anonymous
    [mmap] after start-up fails with [ENOMEM]. *)
Definition two_pages_in : list event :=
  [ev_read nomem PAGESZ zeros; ev_read nice PAGESZ zeros].

(** One full page is read, then written. *)
Definition page_through : list event :=
  [ev_read nice PAGESZ zeros; ev_write PAGESZ].

(** Page 1 is refused by the anonymous [mmap] and goes to disk; page 0 is
    written and freed; page 2 is entered. *)
Definition spill_then_memory : list event :=
  [ev_read nomem PAGESZ zeros; ev_write PAGESZ; ev_read nice PAGESZ zeros].

(** [petabuf] started without arguments on a host with 8 GiB where the
    first anonymous [mmap] fails with [ENOMEM]: page 0 is made on disk. *)
Definition tight_boot : boot_env :=
  {| argv := ["petabuf"%string]; malloc_ok := true; memsize := Some GiB8;
     fcntl_ok := true; pin0 := nomem |}.

(** [petabuf -x]. *)
Definition flag_boot : boot_env :=
  {| argv := ["petabuf"%string; "-x"%string]; malloc_ok := true;
     memsize := Some GiB8; fcntl_ok := true; pin0 := nice |}.

(** [petabuf file -x]: the flag comes after a positional argument. *)
Definition late_flag_boot : boot_env :=
  {| argv := ["petabuf"%string; "file"%string; "-x"%string];
     malloc_ok := true; memsize := Some GiB8; fcntl_ok := true;
     pin0 := nice |}.

(** An argument is an option flag for getopt when it starts with [-], has
    a character after it, and is not [--]. *)
Definition is_flag (arg : string) : bool :=
  match arg with
  | String "-" (String c rest) =>
      negb (Ascii.eqb c "-" && String.eqb rest "")
  | _ => false
  end.

Definition flag_char (arg : string) : ascii :=
  match arg with
  | String _ (String c _) => c
  | _ => "?"%char
  end.


(** ** Outcomes, the log and the reserve *)

(** How a call ends: [Q] holds of the state it goes on with, [E] of the
    state the process exits in. *)
Definition ends (r : res) (Q E : state -> Prop) : Prop :=
  match r with Ok s => Q s | Exited _ s => E s | _ => True end.

(** [s'] has the streams of [s]: nothing was read or written in between. *)
Definition same_streams (s s' : state) : Prop :=
  stdin_read s' = stdin_read s /\ stdout s' = stdout s.

(** The call [r], made in state [s], has not touched stdin or stdout,
    whether it goes on or exits. *)
Definition kept (s : state) (r : res) : Prop :=
  ends r (same_streams s) (same_streams s).

(** What was written is the beginning of what was read. *)
Definition safe_output (s : state) : Prop :=
  len (stdout s) <= len (stdin_read s) /\
  forall p, 0 <= p < len (stdout s) ->
    at_ (stdout s) p = at_ (stdin_read s) p.

(** The counters of the last line of [log_counters] on stderr. *)
Fixpoint last_counters (l : list diag) (acc : option (Z * Z * Z))
  : option (Z * Z * Z) :=
  match l with
  | [] => acc
  | Counters nm nd nf :: l' => last_counters l' (Some (nm, nd, nf))
  | _ :: l' => last_counters l' acc
  end.

(** The last line of [log_counters] shows the counters as they are. *)
Definition logged (s : state) : Prop :=
  last_counters (stderr s) None = Some (nmapped s, nondisk s, nfree s).

(** The lines on stderr that report [free(headroom)]. *)
Definition is_headroom_line (d : diag) : bool :=
  match d with
  | Line text => String.eqb text "using headroom"
  | _ => false
  end.

(** How often [free(headroom)] has run, counted by the lines that report
    it. *)
Fixpoint headroom_frees (l : list diag) : nat :=
  match l with
  | [] => 0%nat
  | d :: l' => ((if is_headroom_line d then 1 else 0) + headroom_frees l')%nat
  end.

(** The block [headroom] is held and was never freed, or it was freed
    once and the pointer is null. *)
Definition reserve_ok (s : state) : Prop :=
  headroom_frees (stderr s) = if headroom s then 0%nat else 1%nat.

(** ** The name of a spool file

    [page_filepath] with the text it writes.  [zu] is the conversion
    [%zu] of [snprintf]: the decimal digits of a [size_t], the most
    significant first, without padding; a [size_t] of 64 bits has at most
    20.  [PATH_MAX] is 1024 on OpenBSD and macOS and 4096 on Linux; the
    smaller one is taken. *)
Module Spool.

Definition PATH_MAX : Z := 1024.

Definition digit (d : Z) : ascii := ascii_of_nat (48 + Z.to_nat d).

Fixpoint digits (fuel : nat) (n : Z) (acc : string) : string :=
  match fuel with
  | O => acc
  | S fuel' =>
      let acc' := String (digit (n mod 10)) acc in
      if n / 10 =? 0 then acc' else digits fuel' (n / 10) acc'
  end.

Definition zu (n : Z) : string := digits 20 n EmptyString.

(** What [snprintf(path, sizeof(path), "/tmp/petabuf.%zu", (size_t)idx)]
    has to write; its length is the value [snprintf] returns. *)
Definition snprintf (i : Z) : string :=
  String.append "/tmp/petabuf." (zu i).

Inductive outcome :=
| Path (p : string)   (* return path *)
| TooLong             (* errx(1, "path too long") *)
| AssertFails.        (* assert(idx < TABLESZ) *)

Definition page_filepath (i : Z) : outcome :=
  if negb (i <? TABLESZ) then AssertFails else
  let path := snprintf i in
  if PATH_MAX <=? Z.of_nat (String.length path) then TooLong else Path path.

(** The number a string of decimal digits stands for, after the digits
    of [a]. *)
Fixpoint value (s : string) (a : Z) : Z :=
  match s with
  | EmptyString => a
  | String c s' => value s' (a * 10 + (Z.of_nat (nat_of_ascii c) - 48))
  end.

End Spool.

(** ** Arithmetic of the machine integers *)

Ltac consts :=
  change PAGESZ with 16777216 in *; change TABLESZ with 67108864 in *.

Lemma wrap32_id x : 0 <= x < 2 ^ 32 -> wrap32 x = x.
Proof. intros H. unfold wrap32. now apply Z.mod_small. Qed.

Lemma wrap64_id x : 0 <= x < 2 ^ 64 -> wrap64 x = x.
Proof. intros H. unfold wrap64. now apply Z.mod_small. Qed.

(** The four states a slot takes. *)
Lemma slot_cases v : 0 <= v <= 3 -> v = 0 \/ v = 1 \/ v = 2 \/ v = 3.
Proof. lia. Qed.

Ltac slot_split H :=
  destruct (slot_cases _ H) as [?|[?|[?|?]]].

(** Clearing a flag clears it, whatever the byte was. *)
Lemma has_clear_flag v f : 0 <= f -> has (clear_flag v f) f = false.
Proof.
  intros Hf. unfold has, clear_flag, wrap8.
  rewrite <- (Z.land_ones _ 8) by lia.
  rewrite <- !Z.land_assoc, (Z.land_comm (Z.ones 8) f), (Z.land_assoc (Z.lnot f)).
  replace (Z.land (Z.lnot f) f) with 0.
  - now rewrite Z.land_0_l, Z.land_0_r.
  - symmetry. rewrite Z.land_comm. apply Z.land_lnot_diag.
Qed.

(** Clearing [MAPPED] leaves [ONDISK] as it was, on a byte. *)
Lemma has_clear_other v : 0 <= v < 256 ->
  has (clear_flag v PAGE_MAPPED) PAGE_ONDISK = has v PAGE_ONDISK.
Proof.
  intros Hv. unfold has, clear_flag, wrap8, PAGE_MAPPED, PAGE_ONDISK.
  rewrite <- (Z.land_ones _ 8) by lia.
  rewrite <- !Z.land_assoc. change (Z.land (Z.ones 8) 2) with 2.
  change (Z.land (Z.lnot 1) 2) with 2. reflexivity.
Qed.

(** ** Counting slots *)

Section Counting.

Variable p : Z -> bool.

Lemma slots_where_unique st (M M' : gset Z) :
  slots_where p st M -> slots_where p st M' -> M = M'.
Proof.
  intros H H'. apply set_eq. intros j. rewrite (H j), (H' j). reflexivity.
Qed.

(** The count is a function of the table. *)
Lemma count_is_unique st n m : count_is p st n -> count_is p st m -> n = m.
Proof.
  intros (M & HM & ->) (M' & HM' & ->).
  now rewrite (slots_where_unique _ _ _ HM HM').
Qed.

Lemma count_is_zero : p 0 = false -> count_is p (fun _ => 0) 0.
Proof.
  intros Hp. exists ∅. split; [|reflexivity].
  intros j. rewrite Hp. split; [set_solver|]. intros [_ H]. discriminate.
Qed.

Lemma count_is_bounds st n : count_is p st n -> 0 <= n <= TABLESZ.
Proof.
  intros (M & HM & ->). split; [lia|].
  assert (Hsub : M ⊆ list_to_set (seqZ 0 TABLESZ)).
  { intros j Hj. apply elem_of_list_to_set, elem_of_seqZ.
    apply HM in Hj. lia. }
  apply subseteq_size in Hsub.
  rewrite size_list_to_set in Hsub by apply NoDup_seqZ.
  rewrite length_seqZ in Hsub.
  assert (0 <= TABLESZ) by (consts; lia). lia.
Qed.

(** Changing one slot changes a count by the difference at that slot. *)
Lemma count_is_insert st i v n :
  0 <= i < TABLESZ -> count_is p st n ->
  count_is p (<[ i := v ]> st) (n + b2z (p v) - b2z (p (st i))).
Proof.
  intros Hi (M & HM & ->).
  assert (Hin : i ∈ M <-> p (st i) = true).
  { rewrite (HM i). split; [tauto|]. intros; split; assumption. }
  exists (if p v then {[ i ]} ∪ M else M ∖ {[ i ]}). split.
  - intros j. destruct (decide (j = i)) as [->|Hne].
    + rewrite fn_lookup_insert. destruct (p v).
      * split; [intros _; split; [exact Hi|reflexivity]|set_solver].
      * split; [set_solver|]. intros [_ H]. discriminate.
    + rewrite fn_lookup_insert_ne by congruence. rewrite <- (HM j).
      destruct (p v); set_solver.
  - destruct (p v) eqn:Hv, (p (st i)) eqn:Hs; unfold b2z.
    + replace ({[ i ]} ∪ M) with M by (apply set_eq; set_solver). lia.
    + rewrite size_union, size_singleton by set_solver. lia.
    + rewrite size_difference, size_singleton by set_solver.
      assert (size M <> 0%nat).
      { intros H0. apply size_empty_inv in H0. set_solver. }
      lia.
    + replace (M ∖ {[ i ]}) with M by (apply set_eq; set_solver). lia.
Qed.

End Counting.

Lemma wp_bind X r k Q :
  wp X r (fun s => wp X (k s) Q) -> wp X (bind r k) Q.
Proof. destruct r; simpl; auto. Qed.

Lemma wp_mono X r (Q Q' : state -> Prop) :
  (forall s, Q s -> Q' s) -> wp X r Q -> wp X r Q'.
Proof. destruct r; simpl; auto. Qed.

Lemma wp_die X msg s Q : X -> wp X (die msg s) Q.
Proof. intros H. exact H. Qed.

Lemma wp_assert X c a s (Q : state -> Prop) :
  c = true -> Q s -> wp X (assert c a s) Q.
Proof. intros -> H. exact H. Qed.

Lemma wp_ok_inv r Q : wp False r Q -> exists s, r = Ok s /\ Q s.
Proof. destruct r; simpl; intros H; try contradiction. eauto. Qed.

Lemma wp_ok X r s (Q : state -> Prop) : r = Ok s -> wp X r Q -> Q s.
Proof. intros ->. auto. Qed.

Lemma wp_not_aborted r Q a : wp True r Q -> r <> Aborted a.
Proof. destruct r; simpl; intros H; try discriminate. contradiction. Qed.

(** The books after one slot has changed. *)
Lemma store_ok_update B s s' i v' :
  store_ok B s -> 0 <= i < TABLESZ -> 0 <= v' <= 3 ->
  states s' = <[ i := v' ]> (states s) ->
  nmapped s' = wrap64 (nmapped s + b2z (has v' PAGE_MAPPED)
                       - b2z (has (states s i) PAGE_MAPPED)) ->
  nondisk s' = wrap64 (nondisk s + b2z (has v' PAGE_ONDISK)
                       - b2z (has (states s i) PAGE_ONDISK)) ->
  0 <= nfree s' ->
  nfree s' + b2z (v' =? 1) - b2z (states s i =? 1) <= nfree s ->
  (forall j, j ∈ files s' <->
     if decide (j = i) then has v' PAGE_ONDISK = true else j ∈ files s) ->
  store_ok B s'.
Proof.
  intros Hs Hi Hv Hst Hnm Hnd Hnf0 Hnf Hfl.
  destruct Hs as [Hval Hdom Hm Hd Hf (a & Ha & Hb) Hfiles].
  apply (count_is_insert _ _ i v' _ Hi) in Hm, Hd, Ha.
  pose proof (count_is_bounds _ _ _ Hm) as Bm.
  pose proof (count_is_bounds _ _ _ Hd) as Bd.
  cbv beta in *.
  split.
  - intros j. rewrite Hst. destruct (decide (j = i)) as [->|Hne].
    + now rewrite fn_lookup_insert.
    + rewrite fn_lookup_insert_ne by congruence. apply Hval.
  - intros j. rewrite Hst. destruct (decide (j = i)) as [->|Hne].
    + intros _. exact Hi.
    + rewrite fn_lookup_insert_ne by congruence. apply Hdom.
  - rewrite Hnm, Hst, wrap64_id by (consts; lia). exact Hm.
  - rewrite Hnd, Hst, wrap64_id by (consts; lia). exact Hd.
  - exact Hnf0.
  - rewrite Hst. eexists. split; [exact Ha|]. lia.
  - intros j. rewrite Hfl, Hst. destruct (decide (j = i)) as [->|Hne].
    + now rewrite fn_lookup_insert.
    + rewrite fn_lookup_insert_ne by congruence. apply Hfiles.
Qed.

Lemma store_ok_counters B s :
  store_ok B s ->
  0 <= nmapped s <= TABLESZ /\ 0 <= nondisk s <= TABLESZ.
Proof.
  intros [_ _ Hm Hd _ _ _].
  split; eapply count_is_bounds; eassumption.
Qed.

(** A page held in anonymous memory leaves room above [nfree]. *)
Lemma store_ok_room B s i :
  store_ok B s -> 0 <= i < TABLESZ -> states s i = 1 -> nfree s + 1 <= B.
Proof.
  intros [_ _ _ _ _ (a & Ha & Hb) _] Hi Hv.
  apply (count_is_insert _ _ i 0 _ Hi) in Ha.
  apply count_is_bounds in Ha. rewrite Hv in Ha. cbn in Ha. lia.
Qed.

Lemma page_post_refl B i s :
  store_ok B s -> page_post B i (states s i) (nfree s) s s.
Proof. intros H. split; auto. Qed.

(** Simplifying a projection of an updated state. *)
Ltac sproj :=
  cbn [headroom states nmapped nondisk nfree rpos wpos ntoread ntowrite
       pages files stdin_read eof_seen stdout stderr
       set_headroom set_states set_nmapped set_nondisk set_nfree set_rpos
       set_wpos set_ntoread set_ntowrite set_pages set_files set_stdin_read
       set_eof_seen set_stdout set_stderr log log_counters idx off len at_]
    in *.

(** Evaluating the flag operations on a known slot state. *)
Ltac flags :=
  repeat match goal with
  | |- context [has ?v ?f] =>
      let r := eval vm_compute in (has v f) in
      match r with true => idtac | false => idtac end;
      change (has v f) with r
  | |- context [clear_flag ?v ?f] =>
      let r := eval vm_compute in (clear_flag v f) in
      match r with Z0 => idtac | Zpos _ => idtac end;
      change (clear_flag v f) with r
  | |- context [set_flag ?v ?f] =>
      let r := eval vm_compute in (set_flag v f) in
      match r with Z0 => idtac | Zpos _ => idtac end;
      change (set_flag v f) with r
  end;
  cbn [negb andb orb b2z].

(** An exit is excluded when the kernel refuses nothing. *)
Ltac by_env HX :=
  simpl wp;
  let H := fresh in
  destruct HX as [H|H];
  [exact H | exfalso; unfold sys_ok in H; intuition congruence].

Ltac counters :=
  cbn [b2z Z.eqb Pos.eqb];
  first [ lia
        | f_equal; lia
        | rewrite wrap64_id by (consts; lia); lia
        | symmetry; rewrite wrap64_id by (consts; lia); lia ].

Ltac files_goal Hfi :=
  lazymatch goal with
  | |- forall j, j ∈ _ <-> _ =>
      let j := fresh "j" in
      intros j; destruct (decide (j = _)) as [->|?]; flags;
      [ try rewrite Hfi; flags; set_solver | set_solver ]
  end.

Lemma store_ok_nfree B s : store_ok B s -> 0 <= nfree s <= B.
Proof.
  intros [_ _ _ _ Hf (a & Ha & Hb) _].
  apply count_is_bounds in Ha. lia.
Qed.

Lemma page_unpin_spec X B sy i s :
  B < 2 ^ 64 -> store_ok B s -> 0 <= i < TABLESZ -> X \/ sys_ok sy ->
  wp X (page_unpin sy i s)
     (page_post B i (unpin_state (states s i)) (nfree s) s).
Proof.
  intros HB Hs Hi HX. unfold page_unpin.
  apply wp_bind, wp_assert; [apply Z.ltb_lt; lia|].
  pose proof (so_val _ _ Hs i) as Hv.
  pose proof (store_ok_counters _ _ Hs) as [Hcm Hcd].
  pose proof (so_files _ _ Hs i) as Hfi.
  pose proof (store_ok_nfree _ _ Hs) as Hnf.
  unfold unpin_state. sproj.
  slot_split Hv; match goal with H : states s i = _ |- _ => rewrite H in * end;
    flags; cbn [Z.eqb Pos.eqb];
    try (match goal with H : states s i = _ |- _ => rewrite <- H at 1 end; apply (page_post_refl _ _ _ Hs)).
  destruct (munmap_ok sy) eqn:Hmu; [|by_env HX].
  simpl wp. split; sproj; rewrite ?H; flags; try reflexivity.
  - eapply (store_ok_update _ s _ i 2); sproj; try eassumption; try reflexivity; try lia.
    all: try (rewrite H; flags; try reflexivity).
    all: try counters.
    files_goal Hfi.
  - apply fn_lookup_insert.
  - intros j Hj. now apply fn_lookup_insert_ne.
Qed.

Lemma page_free_spec X B sy i s :
  B < 2 ^ 64 -> store_ok B s -> 0 <= i < TABLESZ -> states s i <> 3 ->
  X \/ sys_ok sy ->
  wp X (page_free sy i s)
     (page_post B i 0 (free_nfree (nfree s) (states s i)) s).
Proof.
  intros HB Hs Hi H3 HX. unfold page_free.
  apply wp_bind, wp_assert; [apply Z.ltb_lt; lia|].
  pose proof (so_val _ _ Hs i) as Hv.
  pose proof (store_ok_counters _ _ Hs) as [Hcm Hcd].
  pose proof (so_files _ _ Hs i) as Hfi.
  pose proof (store_ok_nfree _ _ Hs) as Hnf.
  pose proof (store_ok_room _ _ i Hs Hi) as Hroom.
  unfold free_nfree. sproj.
  slot_split Hv; try contradiction;
    match goal with H : states s i = _ |- _ => rewrite H in * end;
    flags; cbn [Z.eqb Pos.eqb b2z].
  - rewrite Z.add_0_r. rewrite <- H at 1. apply (page_post_refl _ _ _ Hs).
  - destruct (munmap_ok sy) eqn:Hmu; [|by_env HX].
    specialize (Hroom eq_refl).
    simpl wp. split; sproj; rewrite ?H; flags; try reflexivity.
    + eapply (store_ok_update _ s _ i 0); sproj; try eassumption; try reflexivity; try lia.
      all: try (rewrite H; flags; try reflexivity).
      all: try counters.
      files_goal Hfi.
    + apply fn_lookup_insert.
    + intros j Hj. now apply fn_lookup_insert_ne.
    + apply wrap64_id. lia.
  - apply wp_bind, wp_assert; [reflexivity|].
    unfold page_filepath. apply wp_bind, wp_assert; [apply Z.ltb_lt; lia|].
    assert (Hin : i ∈ files s) by (apply Hfi; reflexivity).
    rewrite (bool_decide_eq_true_2 _ Hin), andb_true_r.
    destruct (unlink_ok sy) eqn:Hu; [|by_env HX].
    simpl wp. split; sproj; rewrite ?H; flags; try reflexivity.
    + eapply (store_ok_update _ s _ i 0); sproj; try eassumption; try reflexivity; try lia.
      all: try (rewrite H; flags; try reflexivity).
      all: try counters.
      files_goal Hfi.
    + apply fn_lookup_insert.
    + intros j Hj. now apply fn_lookup_insert_ne.
    + lia.
Qed.

Lemma pin_ondisk_spec X B sy i s :
  B < 2 ^ 64 -> store_ok B s -> 0 <= i < TABLESZ -> states s i = 0 ->
  X \/ sys_ok sy ->
  wp X (pin_ondisk sy i s) (page_post B i 3 (nfree s) s).
Proof.
  intros HB Hs Hi H HX. unfold pin_ondisk, page_filepath.
  apply wp_bind, wp_assert; [apply Z.ltb_lt; lia|].
  pose proof (store_ok_counters _ _ Hs) as [Hcm Hcd].
  pose proof (so_files _ _ Hs i) as Hfi.
  pose proof (store_ok_nfree _ _ Hs) as Hnf.
  rewrite H in Hfi.
  destruct (spool sy) eqn:Hsp; try by_env HX.
  simpl wp. split; sproj; rewrite ?H; flags; try reflexivity.
  - eapply (store_ok_update _ s _ i 3); sproj; try eassumption; try reflexivity; try lia.
    all: try (rewrite H; flags; try reflexivity).
    all: try counters.
    files_goal Hfi.
  - apply fn_lookup_insert.
  - intros j Hj. now apply fn_lookup_insert_ne.
  - intros j [Hj|Hj]; [|congruence]. now apply fn_lookup_insert_ne.
Qed.

(** The books do not depend on what [main] keeps outside the store, and
    lowering the budget keeps them. *)
Lemma store_ok_ext B s s' :
  store_ok B s -> states s' = states s -> nmapped s' = nmapped s ->
  nondisk s' = nondisk s -> files s' = files s ->
  0 <= nfree s' <= nfree s -> store_ok B s'.
Proof.
  intros [Hval Hdom Hm Hd Hf (a & Ha & Hb) Hfiles] Es Em Ed Ef Hn.
  split; rewrite ?Es, ?Em, ?Ed, ?Ef; auto; try lia.
  exists a. split; [exact Ha|lia].
Qed.

Lemma page_post_pre B i v nf s0 s s' :
  page_post B i v nf s s' ->
  rpos s = rpos s0 -> wpos s = wpos s0 -> ntoread s = ntoread s0 ->
  ntowrite s = ntowrite s0 -> stdin_read s = stdin_read s0 ->
  eof_seen s = eof_seen s0 -> stdout s = stdout s0 ->
  states s = states s0 -> pages s = pages s0 ->
  page_post B i v nf s0 s'.
Proof.
  intros [] E1 E2 E3 E4 E5 E6 E7 E8 E9.
  split; try congruence.
  - intros j Hj. rewrite <- E8. auto.
  - intros j Hj. rewrite <- E9, <- E8 in *. auto.
Qed.

Lemma page_pin_spec X B sy i s :
  B < 2 ^ 64 -> store_ok B s -> 0 <= i < TABLESZ -> X \/ sys_ok sy ->
  wp X (page_pin sy i s)
     (page_post B i (pin_state sy (nfree s) (states s i))
                    (pin_nfree sy (nfree s) (states s i)) s).
Proof.
  intros HB Hs Hi HX. unfold page_pin.
  apply wp_bind, wp_assert; [apply Z.ltb_lt; lia|].
  pose proof (so_val _ _ Hs i) as Hv.
  pose proof (store_ok_counters _ _ Hs) as [Hcm Hcd].
  pose proof (so_files _ _ Hs i) as Hfi.
  pose proof (store_ok_nfree _ _ Hs) as Hnf.
  unfold pin_state, pin_nfree.
  slot_split Hv; match goal with H : states s i = _ |- _ => rewrite H in * end;
    flags; cbn [Z.eqb Pos.eqb];
    try (match goal with H : states s i = _ |- _ => rewrite <- H at 1 end; apply (page_post_refl _ _ _ Hs)).
  - (* absent *)
    apply wp_bind.
    destruct (nfree s =? 0) eqn:Hn; cbn [negb].
    + apply Z.eqb_eq in Hn.
      eapply wp_mono; [|apply (pin_ondisk_spec X B sy i s); auto].
      intros s' Hp. simpl wp. rewrite <- Hn.
      destruct Hp. split; sproj; auto.
      eapply store_ok_ext; [eassumption|..]; sproj; try reflexivity. lia.
    + apply Z.eqb_neq in Hn. unfold pin_anon.
      destruct (anon sy) eqn:Ha; try by_env HX.
      * simpl wp. split; sproj; rewrite ?H; flags; try reflexivity.
        -- eapply (store_ok_update _ s _ i 1); sproj; try eassumption; try reflexivity; try lia.
           all: try (rewrite H; flags; try reflexivity).
           all: try counters.
           files_goal Hfi.
        -- apply fn_lookup_insert.
        -- intros j Hj. now apply fn_lookup_insert_ne.
        -- apply wrap64_id. lia.
        -- intros j [Hj|Hj]; [|congruence]. now apply fn_lookup_insert_ne.
      * (* ENOMEM: the budget collapses and the page goes to disk *)
        set (s1 := set_nfree 0 (log (Line "out of memory, resetting nfree") s)).
        set (s2 := if headroom s1
                   then set_headroom false (log (Line "using headroom") s1)
                   else s1).
        assert (Hs2 : store_ok B s2).
        { eapply store_ok_ext; [exact Hs|..]; subst s2 s1;
            destruct (headroom _); sproj; try reflexivity; lia. }
        eapply wp_mono; [|apply (pin_ondisk_spec X B sy i s2); auto].
        -- intros s' Hp. simpl wp.
           assert (Hp' : page_post B i 3 0 s s').
           { assert (Hn2 : nfree s2 = 0)
               by (subst s2 s1; destruct (headroom _); reflexivity).
             rewrite Hn2 in Hp.
             eapply page_post_pre; [exact Hp|..].
             - subst s2 s1; destruct (headroom _); reflexivity.
             - subst s2 s1; destruct (headroom _); reflexivity.
             - subst s2 s1; destruct (headroom _); reflexivity.
             - subst s2 s1; destruct (headroom _); reflexivity.
             - subst s2 s1; destruct (headroom _); reflexivity.
             - subst s2 s1; destruct (headroom _); reflexivity.
             - subst s2 s1; destruct (headroom _); reflexivity.
             - subst s2 s1; destruct (headroom _); reflexivity.
             - subst s2 s1; destruct (headroom _); reflexivity. }
           destruct Hp'. split; sproj; auto.
           eapply store_ok_ext; [eassumption|..]; sproj; try reflexivity. lia.
        -- subst s2 s1; destruct (headroom _); sproj; exact H.
  - (* on disk, not mapped *)
    apply wp_bind. unfold pin_existing, page_filepath.
    apply wp_bind, wp_assert; [apply Z.ltb_lt; lia|].
    assert (Hin : i ∈ files s) by (apply Hfi; reflexivity).
    rewrite (bool_decide_eq_true_2 _ Hin). cbn [negb].
    destruct (spool sy) eqn:Hsp; try by_env HX.
    all: simpl wp; split; sproj; rewrite ?H; flags; try reflexivity.
    all: try apply fn_lookup_insert.
    all: try (intros j Hj; now apply fn_lookup_insert_ne).
    all: eapply (store_ok_update _ s _ i 3); sproj; try eassumption; try reflexivity; try lia.
    all: try (rewrite H; flags; try reflexivity).
    all: try counters.
    all: files_goal Hfi.
Qed.

Lemma store_ok_same B s s' :
  store_ok B s -> states s' = states s -> nmapped s' = nmapped s ->
  nondisk s' = nondisk s -> files s' = files s -> nfree s' = nfree s ->
  store_ok B s'.
Proof.
  intros H Es Em Ed Ef En. eapply store_ok_ext; eauto.
  rewrite En. pose proof (so_nfree _ _ H). lia.
Qed.

Ltac same_store H :=
  eapply store_ok_same; [exact H|..]; sproj; reflexivity.

Lemma data_ok_ext s s' :
  data_ok s -> stdout s' = stdout s -> stdin_read s' = stdin_read s ->
  (forall i o, 0 <= o < PAGESZ ->
     len (stdout s) <= i * PAGESZ + o < len (stdin_read s) ->
     pages s' i = pages s i) ->
  data_ok s'.
Proof.
  intros [H1 H2] Eo Ei Hp. split; rewrite Eo, Ei.
  - exact H1.
  - intros i o Ho Hr. rewrite (Hp i o Ho Hr). now apply H2.
Qed.

Lemma deposit_data k d s :
  data_ok s -> 0 <= k -> 0 <= off (rpos s) ->
  off (rpos s) + k <= PAGESZ ->
  len (stdin_read s) = idx (rpos s) * PAGESZ + off (rpos s) ->
  len (stdout s) <= len (stdin_read s) ->
  data_ok (deposit k d s).
Proof.
  intros [H1 H2] Hk Ho Hok Hin Hle. unfold deposit. split; sproj.
  - intros p Hp. rewrite H1 by lia.
    destruct (Z.ltb_spec p (len (stdin_read s))); [reflexivity|lia].
  - intros i o Hoo Hr.
    destruct (Z.ltb_spec (i * PAGESZ + o) (len (stdin_read s))) as [Hlt|Hge].
    + rewrite <- H2 by lia.
      destruct (decide (i = idx (rpos s))) as [->|Hne].
      * rewrite fn_lookup_insert.
        destruct (Z.leb_spec (off (rpos s)) o); [lia|]. reflexivity.
      * rewrite fn_lookup_insert_ne by congruence. reflexivity.
    + assert (i = idx (rpos s)) as -> by (consts; nia).
      rewrite fn_lookup_insert.
      destruct (Z.leb_spec (off (rpos s)) o); [|lia].
      destruct (Z.ltb_spec o (off (rpos s) + k)); [|lia].
      cbn [andb]. f_equal. lia.
Qed.

Lemma deposit_facts k d s : deposit_post k d s (deposit k d s).
Proof.
  split; try reflexivity; unfold deposit; sproj.
  - intros p Hp. destruct (Z.ltb_spec p (len (stdin_read s))); [reflexivity|lia].
  - intros j Hj.
    destruct (Z.ltb_spec (len (stdin_read s) + j) (len (stdin_read s))); [lia|].
    f_equal. lia.
Qed.

Lemma emit_facts k s : emit_post k s (emit k s).
Proof. split; reflexivity. Qed.

Lemma emit_data k s :
  data_ok s -> 0 <= k -> 0 <= off (wpos s) ->
  off (wpos s) + k <= PAGESZ ->
  len (stdout s) = idx (wpos s) * PAGESZ + off (wpos s) ->
  len (stdout s) + k <= len (stdin_read s) ->
  data_ok (emit k s).
Proof.
  intros [H1 H2] Hk Ho Hok Hout Hle. unfold emit. split; sproj.
  - intros p Hp.
    destruct (Z.ltb_spec p (len (stdout s))) as [Hlt|Hge].
    + apply H1. lia.
    + rewrite H2 by lia. f_equal. lia.
  - intros i o Hoo Hr. apply H2; [exact Hoo|lia].
Qed.

Lemma slot_mapped l h j v :
  slot_ok l h j v -> l <= h -> j = l \/ j = h -> has v PAGE_MAPPED = true.
Proof.
  intros (H1 & H2 & H3 & H4) Hlh Hj.
  assert (v = 1 \/ v = 3) as [->| ->] by lia; reflexivity.
Qed.

Lemma Inv0_idx_le B s : Inv0 B s -> idx (wpos s) <= idx (rpos s).
Proof. intros []. consts. lia. Qed.

Lemma page_ptr_rpos X B s (Q : state -> Prop) :
  Inv0 B s -> Q s -> wp X (page_ptr (rpos s) s) Q.
Proof.
  intros HI HQ. pose proof (Inv0_idx_le _ _ HI). destruct HI.
  unfold page_ptr.
  apply wp_bind, wp_assert; [apply Z.ltb_lt; lia|].
  apply wp_bind, wp_assert; [apply Z.ltb_lt; lia|].
  apply wp_assert; [|exact HQ].
  eapply slot_mapped; [apply i_slots0| |right; reflexivity]. lia.
Qed.

Lemma page_ptr_wpos X B s (Q : state -> Prop) :
  Inv0 B s -> Q s -> wp X (page_ptr (wpos s) s) Q.
Proof.
  intros HI HQ. pose proof (Inv0_idx_le _ _ HI). destruct HI.
  unfold page_ptr.
  apply wp_bind, wp_assert; [apply Z.ltb_lt; lia|].
  apply wp_bind, wp_assert; [apply Z.ltb_lt; lia|].
  apply wp_assert; [|exact HQ].
  eapply slot_mapped; [apply i_slots0| |left; reflexivity]. lia.
Qed.

(** Deciding a goal about the state of a slot by its cases. *)
Ltac slot_cases_tac :=
  unfold slot_ok, pin_state, unpin_state, free_nfree, pin_nfree, b2z in *;
  repeat match goal with
  | |- context [Z.eqb ?a ?b] => destruct (Z.eqb_spec a b)
  | H : context [Z.eqb ?a ?b] |- _ => destruct (Z.eqb_spec a b)
  | |- context [match anon ?sy with _ => _ end] => destruct (anon sy)
  | H : context [match anon ?sy with _ => _ end] |- _ => destruct (anon sy)
  end;
  cbn [negb andb orb] in *; try lia.

Lemma maybe_unpin_spec X B sy (c : bool) i s :
  B < 2 ^ 64 -> store_ok B s -> 0 <= i < TABLESZ -> X \/ sys_ok sy ->
  wp X (if c then page_unpin sy i s else Ok s)
     (page_post B i (if c then unpin_state (states s i) else states s i)
        (nfree s) s).
Proof.
  intros HB Hs Hi HX. destruct c.
  - now apply page_unpin_spec.
  - now apply page_post_refl.
Qed.

Lemma env_sys X e (P : Prop) (f : event -> sys) :
  X \/ sys_ok (f e) /\ P -> X \/ sys_ok (f e).
Proof. tauto. Qed.

Lemma read_stdin_spec X B e s :
  B < 2 ^ 64 -> Inv B s -> ntoread s <> 0 -> X \/ read_ok e s ->
  wp X (read_stdin e s) (fun s' => Inv B s' /\ read_post e s s').
Proof.
  intros HB [HI Hnw] Hnr HX. unfold read_stdin.
  apply wp_bind, (page_ptr_rpos _ B); [exact HI|].
  pose proof (Inv0_idx_le _ _ HI) as Hlh.
  destruct HI as [Hst Hwo Hro Hwi Hri Hin Hout Hle Hsl Hntr Hd].
  assert (Heof : eof_seen s = false).
  { destruct (eof_seen s); [congruence|reflexivity]. }
  rewrite Heof in Hntr.
  unfold read_ok, rd_len in *.
  destruct (rd e) as [| |k d] eqn:Hrd.
  - by_env HX.
  - (* end of input *)
    simpl wp. split; [split; [split|]|split]; sproj;
      unfold rd_len, rd_eof; rewrite ?Hrd, ?Heof; auto; try lia.
    all: try (unfold avail in *; sproj; assumption).
    + same_store Hst.
    + destruct (Z.eqb_spec (off (rpos s) + 0) PAGESZ); [lia|reflexivity].
  - (* data *)
    destruct ((1 <=? k) && (k <=? ntoread s)) eqn:Hk; cbn [negb].
    2:{ simpl wp. destruct HX as [HX|(_ & HX & _)]; [exact HX|].
        exfalso. apply andb_false_iff in Hk.
        destruct Hk as [Hk|Hk]; apply Z.leb_gt in Hk; lia. }
    apply andb_true_iff in Hk. destruct Hk as [Hk1 Hk2].
    apply Z.leb_le in Hk1, Hk2.
    pose proof (deposit_facts k d s) as Hdp.
    assert (Hd1 : data_ok (deposit k d s)).
    { apply deposit_data; auto; lia. }
    set (s1 := deposit k d s) in *. clearbody s1.
    destruct Hdp as [E1 E2 E3 E4 E5 E6 E7 E8 E9 E10 E11 E12 E13 E14].
    assert (Hst1 : store_ok B s1) by (eapply store_ok_same; eauto).
    apply wp_bind. sproj. rewrite E1.
    rewrite (wrap32_id k) by (consts; lia).
    rewrite (wrap32_id (off (rpos s) + k)) by (consts; lia).
    destruct (Z.eqb_spec (off (rpos s) + k) PAGESZ) as [Hcross|Hno].
    + (* the intake cursor leaves its page *)
      assert (HXs : X \/ sys_ok (rd_sys e)) by tauto.
      apply wp_bind.
      eapply wp_mono;
        [|apply (maybe_unpin_spec X B); auto; [same_store Hst1|sproj; lia]].
      intros s3 [S3 R3 W3 NR3 NW3 SI3 EO3 SO3 SL3 OT3 NF3 PG3].
      sproj. rewrite R3. sproj.
      rewrite (wrap32_id (idx (rpos s) + 1)) by (consts; lia).
      destruct (Z.leb_spec TABLESZ (idx (rpos s) + 1)) as [Hfull|Hroom].
      { simpl wp. destruct HX as [HX|(_ & _ & HX)]; [exact HX|lia]. }
      apply wp_bind.
      eapply wp_mono;
        [|apply (page_pin_spec X B); auto; [same_store S3|lia]].
      intros s5 [S5 R5 W5 NR5 NW5 SI5 EO5 SO5 SL5 OT5 NF5 PG5].
      sproj. rewrite R5. sproj. simpl wp.
      assert (H0 : states s3 (idx (rpos s) + 1) = 0).
      { rewrite OT3 by lia. rewrite E3.
        destruct (Hsl (idx (rpos s) + 1)) as (Ha & _). apply Ha. lia. }
      rewrite H0, NF3, E6 in SL5, NF5. rewrite E2, E3 in *.
      pose proof (Hsl (idx (rpos s))) as Hh.
      assert (Hall : forall j, slot_ok (idx (wpos s)) (idx (rpos s) + 1) j
                                 (states s5 j)).
      { intros j. pose proof (Hsl j) as Hj.
        destruct (Z.eq_dec j (idx (rpos s) + 1)) as [->|N1].
        - rewrite SL5. clear SL3. slot_cases_tac.
        - rewrite OT5 by assumption.
          destruct (Z.eq_dec j (idx (rpos s))) as [->|N2].
          + rewrite SL3. slot_cases_tac.
          + rewrite OT3 by assumption. clear SL3 SL5 NF5. slot_cases_tac. }
      rewrite (wrap32_id (PAGESZ - 0)) by (consts; lia).
      split; [split; [split|]|split]; sproj;
        unfold rd_len, rd_eof, chunk, avail in *; sproj;
        rewrite ?Hrd, ?W5, ?W3, ?E2, ?SO5, ?SO3, ?E11, ?SI5, ?SI3, ?E12,
                ?EO5, ?EO3, ?E10, ?NW5, ?NW3, ?E9, ?Heof;
        auto; try lia.
      * same_store S5.
      * eapply data_ok_ext; [exact Hd1|sproj; congruence..|].
        intros i o Ho Hr. sproj. rewrite E11, E12 in Hr.
        rewrite PG5 by (left; consts; lia).
        apply PG3. right. unfold slot_ok in Hh. lia.
      * destruct (Z.eqb_spec (idx (wpos s)) (idx (rpos s) + 1)); [lia|].
        destruct (Z.eqb_spec (idx (wpos s)) (idx (rpos s))); lia.
      * intros j Hj. apply E14. lia.
      * rewrite NF5. destruct (Z.eqb_spec (off (rpos s) + k) PAGESZ); [reflexivity|lia].
      * intros j Hj. rewrite OT5 by lia.
        destruct (Z.eq_dec j (idx (rpos s))) as [->|N2].
        -- rewrite SL3.
           destruct (Z.eqb_spec (idx (rpos s)) (idx (wpos s))); [reflexivity|lia].
        -- now apply OT3.
    + (* the intake cursor stays in its page *)
      simpl wp. sproj.
      rewrite (wrap32_id (PAGESZ - (off (rpos s) + k))) by (consts; lia).
      split; [split; [split|]|split]; sproj;
        unfold rd_len, rd_eof, chunk, avail in *; sproj;
        rewrite ?Hrd, ?E2, ?E11, ?E12, ?E10, ?E9, ?E3, ?E6, ?Heof;
        auto; try lia.
      * same_store Hst1.
      * destruct (Z.eqb_spec (idx (wpos s)) (idx (rpos s))); lia.
      * intros j Hj. apply E14. lia.
      * destruct (Z.eqb_spec (off (rpos s) + k) PAGESZ); [lia|reflexivity].
Qed.

Lemma write_stdout_spec X B e s :
  B < 2 ^ 64 -> Inv B s -> ntowrite s <> 0 -> X \/ write_ok e s ->
  wp X (write_stdout e s) (fun s' => Inv0 B s' /\ write_post e s s').
Proof.
  intros HB [HI Hnw] Hnr HX. unfold write_stdout.
  apply wp_bind, (page_ptr_wpos _ B); [exact HI|].
  pose proof (Inv0_idx_le _ _ HI) as Hlh.
  destruct HI as [Hst Hwo Hro Hwi Hri Hin Hout Hle Hsl Hntr Hd].
  unfold write_ok, wr_len, avail in *.
  destruct (wr e) as [|k] eqn:Hwr.
  - by_env HX.
  - destruct ((0 <=? k) && (k <=? ntowrite s)) eqn:Hk; cbn [negb].
    2:{ simpl wp. destruct HX as [HX|(_ & HX)]; [exact HX|].
        exfalso. apply andb_false_iff in Hk.
        destruct Hk as [Hk|Hk]; apply Z.leb_gt in Hk; lia. }
    apply andb_true_iff in Hk. destruct Hk as [Hk1 Hk2].
    apply Z.leb_le in Hk1, Hk2.
    assert (Hkp : off (wpos s) + k <= PAGESZ /\
                  (idx (wpos s) = idx (rpos s) ->
                   off (wpos s) + k <= off (rpos s))).
    { destruct (Z.eqb_spec (idx (wpos s)) (idx (rpos s))); lia. }
    clear Hnw.
    assert (Hkin : len (stdout s) + k <= len (stdin_read s)).
    { destruct (Z.eq_dec (idx (wpos s)) (idx (rpos s))); consts; nia. }
    pose proof (emit_facts k s) as Hep.
    assert (Hd1 : data_ok (emit k s)).
    { apply emit_data; auto; lia. }
    set (s1 := emit k s) in *. clearbody s1.
    destruct Hep as [E1 E2 E3 E4 E5 E6 E7 E8 E9 E10 E11 E12].
    assert (Hst1 : store_ok B s1) by (eapply store_ok_same; eauto).
    assert (HXs : X \/ sys_ok (wr_sys e)) by tauto.
    sproj. rewrite E2.
    rewrite (wrap32_id k) by (consts; lia).
    rewrite (wrap32_id (off (wpos s) + k)) by (consts; lia).
    destruct (Z.eqb_spec (off (wpos s) + k) PAGESZ) as [Hcross|Hno].
    + (* the drain cursor leaves its page *)
      assert (Hlt : idx (wpos s) < idx (rpos s)) by lia.
      pose proof (Hsl (idx (wpos s))) as Hl.
      pose proof (Hsl (idx (wpos s) + 1)) as Hl1.
      apply wp_bind.
      eapply wp_mono;
        [|apply (page_unpin_spec X B); auto; [same_store Hst1|sproj; lia]].
      intros s3 [S3 R3 W3 NR3 NW3 SI3 EO3 SO3 SL3 OT3 NF3 PG3].
      sproj. rewrite W3. sproj. rewrite E3 in *.
      apply wp_bind.
      eapply wp_mono;
        [|apply (page_free_spec X B); auto; [lia|]].
      2:{ rewrite SL3. clear -Hl Hlt. slot_cases_tac. }
      intros s4 [S4 R4 W4 NR4 NW4 SI4 EO4 SO4 SL4 OT4 NF4 PG4].
      sproj. rewrite W4, W3. sproj.
      rewrite (wrap32_id (idx (wpos s) + 1)) by (consts; lia).
      apply wp_bind.
      eapply wp_mono;
        [|apply (page_pin_spec X B); auto; [same_store S4|sproj; lia]].
      intros s6 [S6 R6 W6 NR6 NW6 SI6 EO6 SO6 SL6 OT6 NF6 PG6].
      sproj. rewrite W6. sproj. simpl wp.
      assert (V1 : states s4 (idx (wpos s) + 1) = states s (idx (wpos s) + 1)).
      { rewrite OT4, OT3 by lia. reflexivity. }
      rewrite V1 in *. rewrite NF3, E6, SL3 in NF4. rewrite NF4 in *.
      assert (Hall : forall j, slot_ok (idx (wpos s) + 1) (idx (rpos s)) j
                                 (states s6 j)).
      { intros j. pose proof (Hsl j) as Hj.
        destruct (Z.eq_dec j (idx (wpos s) + 1)) as [->|N1].
        - rewrite SL6. clear SL3 SL4 NF6 NF4. slot_cases_tac.
        - rewrite OT6 by assumption.
          destruct (Z.eq_dec j (idx (wpos s))) as [->|N2].
          + rewrite SL4. clear SL3 SL6 NF6 NF4. slot_cases_tac.
          + rewrite OT4, OT3 by assumption.
            clear SL3 SL4 SL6 NF6 NF4. slot_cases_tac. }
      assert (Hpg : forall j, pages s6 j = pages s1 j).
      { intros j. rewrite PG6, PG4, PG3; [reflexivity|right..].
        - clear -Hl Hlt. slot_cases_tac.
        - rewrite SL3. clear -Hl Hlt. slot_cases_tac.
        - clear -Hl1 Hlt. slot_cases_tac. }
      split; [split|split]; sproj;
        unfold wr_len in *; sproj;
        rewrite ?Hwr, ?R6, ?R4, ?R3, ?E1, ?SO6, ?SO4, ?SO3, ?E12,
                ?SI6, ?SI4, ?SI3, ?E11, ?EO6, ?EO4, ?EO3, ?E10,
                ?NR6, ?NR4, ?NR3, ?E8;
        auto; try lia.
      * same_store S6.
      * eapply data_ok_ext; [exact Hd1|sproj; congruence..|].
        intros i o Ho Hr. sproj. apply Hpg.
      * rewrite NF6.
        destruct (Z.eqb_spec (off (wpos s) + k) PAGESZ); [|lia].
        clear -Hl Hl1 Hlt. slot_cases_tac.
      * intros j [Hj|Hj]; [|lia]. rewrite OT6, OT4, OT3 by lia. reflexivity.
    + (* the drain cursor stays in its page *)
      simpl wp.
      split; [split|split]; sproj;
        unfold wr_len in *; sproj;
        rewrite ?Hwr, ?E1, ?E2, ?E12, ?E11, ?E10, ?E8, ?E3, ?E6;
        auto; try lia.
      * same_store Hst1.
      * destruct (Z.eqb_spec (off (wpos s) + k) PAGESZ); [lia|reflexivity].
Qed.

(** The invariant reads the state through these fields only. *)
Lemma Inv0_same B s s' :
  Inv0 B s ->
  states s' = states s -> nmapped s' = nmapped s ->
  nondisk s' = nondisk s -> files s' = files s -> nfree s' = nfree s ->
  rpos s' = rpos s -> wpos s' = wpos s -> ntoread s' = ntoread s ->
  pages s' = pages s -> stdin_read s' = stdin_read s ->
  eof_seen s' = eof_seen s -> stdout s' = stdout s ->
  Inv0 B s'.
Proof.
  intros [] E1 E2 E3 E4 E5 E6 E7 E8 E9 E10 E11 E12.
  split; rewrite ?E1, ?E6, ?E7, ?E8, ?E10, ?E11, ?E12; auto.
  - eapply store_ok_same; eauto.
  - eapply data_ok_ext; eauto. intros. now rewrite E9.
Qed.

Lemma avail_bounds B s : Inv0 B s -> 0 <= avail s <= PAGESZ.
Proof.
  intros []. unfold avail.
  destruct (Z.eqb_spec (idx (wpos s)) (idx (rpos s))) as [E|E]; [|lia].
  rewrite E in *. lia.
Qed.

Lemma iteration_spec X B e s :
  B < 2 ^ 64 -> InvB B s -> X \/ event_ok e s ->
  wp X (iteration e s) (fun s' => InvB B s' /\ step_post e s s').
Proof.
  intros HB [HI Hnw] HX. unfold iteration.
  set (s0 := log _ s).
  assert (HI0 : Inv B s0).
  { split; [eapply Inv0_same; [exact HI|..]; reflexivity|].
    pose proof (avail_bounds _ _ HI). subst s0. unfold avail in *. sproj. lia. }
  destruct (select_ok e) eqn:Hsel; cbn [negb].
  2:{ simpl wp. destruct HX as [HX|(HX & _)]; [exact HX|congruence]. }
  apply wp_bind.
  assert (Hread : wp X (if reads e s then read_stdin e s0 else Ok s0)
            (fun s1 => Inv B s1 /\
                       if reads e s then read_post e s0 s1 else s1 = s0)).
  { destruct (reads e s) eqn:Hr.
    - apply read_stdin_spec; auto.
      + unfold reads in Hr. apply andb_true_iff in Hr.
        destruct Hr as [Hr _]. apply negb_true_iff, Z.eqb_neq in Hr. exact Hr.
      + destruct HX as [HX|(_ & HX & _)]; [left; exact HX|right].
        exact (HX Hr).
    - simpl. auto. }
  change (negb (ntoread s0 =? 0) && stdin_ready e) with (reads e s).
  eapply wp_mono; [|exact Hread]. clear Hread.
  intros s1 [HI1 Hp1]. cbv beta.
  assert (Hnw1 : ntowrite s1 = ntowrite s).
  { destruct (reads e s); [rewrite (rp_ntowrite _ _ _ Hp1)|rewrite Hp1];
      reflexivity. }
  rewrite Hnw1. change (negb (ntowrite s =? 0) && stdout_ready e) with (writes e s).
  apply wp_bind.
  assert (Hwrite : wp X (if writes e s then write_stdout e s1 else Ok s1)
            (fun s2 => Inv0 B s2 /\
                       if writes e s then write_post e s1 s2 else s2 = s1)).
  { destruct (writes e s) eqn:Hw.
    - apply write_stdout_spec; auto.
      + rewrite Hnw1. unfold writes in Hw. apply andb_true_iff in Hw.
        destruct Hw as [Hw _]. apply negb_true_iff, Z.eqb_neq in Hw. exact Hw.
      + destruct HX as [HX|(_ & _ & HX)]; [left; exact HX|right].
        specialize (HX Hw). unfold write_ok in *. rewrite Hnw1. exact HX.
    - simpl. split; [apply HI1|reflexivity]. }
  eapply wp_mono; [|exact Hwrite]. clear Hwrite.
  intros s2 [HI2 Hp2]. simpl wp.
  pose proof (i_ro _ _ HI) as Hro. pose proof (i_wo _ _ HI) as Hwo.
  assert (R : wpos s1 = wpos s /\ stdout s1 = stdout s /\
              eof_seen s1 = eof_seen s || sees_eof e s /\
              len (stdin_read s1) = len (stdin_read s) + nread e s /\
              0 <= nread e s /\
              (forall p, p < len (stdin_read s) ->
                 at_ (stdin_read s1) p = at_ (stdin_read s) p) /\
              (forall j, 0 <= j < nread e s ->
                 at_ (stdin_read s1) (len (stdin_read s) + j) = chunk e j) /\
              nfree s1 = (if rcross e s
                          then pin_nfree (rd_sys e) (nfree s) 0
                          else nfree s) /\
              (rcross e s = true ->
                 states s1 (idx (rpos s) + 1)
                 = pin_state (rd_sys e) (nfree s) 0) /\
              (forall j, j <= idx (wpos s) -> states s1 j = states s j) /\
              (rcross e s = true -> rd_len e = nread e s /\ reads e s = true)).
  { unfold rcross, sees_eof, nread. destruct (reads e s).
    - destruct Hp1. subst s0. sproj. cbn [andb].
      repeat split; auto.
      intros Hc. apply rp_fresh0, Z.eqb_eq, Hc.
    - subst s1 s0. sproj. rewrite orb_false_r, !Z.add_0_r.
      destruct (Z.eqb_spec (off (rpos s)) PAGESZ); [lia|].
      repeat split; auto; try lia; discriminate. }
  destruct R as (R1 & R2 & R3 & R4 & R4' & R5 & R6 & R7 & R8 & R9 & R10).
  assert (W : rpos s2 = rpos s1 /\ stdin_read s2 = stdin_read s1 /\
              eof_seen s2 = eof_seen s1 /\
              len (stdout s2) = len (stdout s1) + nwritten e s /\
              0 <= nwritten e s /\
              nfree s2 = (if wcross e s
                          then free_nfree (nfree s1) (states s1 (idx (wpos s)))
                          else nfree s1) /\
              (forall j, idx (wpos s) + 1 < j \/ wcross e s = false ->
                 states s2 j = states s1 j) /\
              (wcross e s = true -> wr_len e = nwritten e s /\ writes e s = true)).
  { unfold wcross, nwritten. destruct (writes e s).
    - destruct Hp2. rewrite R1 in *.
      repeat split; auto; try (unfold wr_len in *; lia).
      intros j [Hj|Hj]; apply wq_high0; [left; exact Hj|right].
      apply Z.eqb_neq. exact Hj.
    - subst s2. rewrite !Z.add_0_r.
      destruct (Z.eqb_spec (off (wpos s)) PAGESZ); [lia|].
      repeat split; auto; try lia; discriminate. }
  destruct W as (W1 & W2 & W3 & W4 & W4' & W5 & W6 & W7).
  split; [split|split]; sproj.
  - eapply Inv0_same; [exact HI2|..]; reflexivity.
  - unfold towrite. fold (avail s2).
    pose proof (avail_bounds _ _ HI2).
    rewrite wrap32_id by (consts; lia). unfold avail. sproj. reflexivity.
  - congruence.
  - congruence.
  - exact R4'.
  - exact W4'.
  - congruence.
  - rewrite W2. exact R5.
  - rewrite W2. exact R6.
  - unfold step_nfree. rewrite W5, R7.
    rewrite (R9 (idx (wpos s))) by lia. reflexivity.
  - intros Hrc. rewrite W6; [auto|].
    destruct (wcross e s) eqn:Hwc; [left|right; reflexivity].
    destruct (W7 eq_refl) as [Hk Hw].
    destruct (writes e s); [|discriminate].
    pose proof (wq_bound _ _ _ Hp2) as Hkb.
    rewrite Hnw1, Hnw, Hk in Hkb.
    unfold wcross in Hwc. apply Z.eqb_eq in Hwc.
    unfold avail in Hkb.
    destruct (Z.eqb_spec (idx (wpos s)) (idx (rpos s))); [lia|].
    pose proof (Inv0_idx_le _ _ HI). lia.
Qed.

Lemma budget_bound b :
  (forall m, memsize b = Some m -> 0 <= m < 2 ^ 64) -> 0 <= budget b < 2 ^ 64.
Proof.
  intros H. unfold budget. destruct (memsize b) as [m|]; [|lia].
  specialize (H m eq_refl). consts.
  assert (0 <= m / 16777216 / 2 <= m); [|lia].
  split.
  - apply Z.div_pos; [apply Z.div_pos|]; lia.
  - transitivity (m / 16777216).
    + apply Z.div_le_upper_bound; [lia|].
      assert (0 <= m / 16777216) by (apply Z.div_pos; lia). lia.
    + apply Z.div_le_upper_bound; lia.
Qed.

Lemma store_ok_init B nf :
  0 <= nf <= B ->
  store_ok B (set_nfree nf init).
Proof.
  intros H. split; sproj; cbn [init states nmapped nondisk files].
  - intros j. lia.
  - intros j H0. congruence.
  - now apply count_is_zero.
  - now apply count_is_zero.
  - lia.
  - exists 0. split; [now apply count_is_zero|lia].
  - intros j. split; [set_solver|]. intros H0. discriminate.
Qed.

Lemma boot_spec X b :
  X \/ boot_ok b ->
  wp X (boot b) (fun s => budget b < 2 ^ 64 /\ InvB (budget b) s /\ fresh s).
Proof.
  intros HX. unfold boot.
  destruct (getopt (argv b)) as [[c optind] says] eqn:Hg.
  destruct (Z.eqb_spec c (-1)) as [Hc|Hc]; cbn [negb].
  2:{ simpl wp. destruct HX as [HX|HX]; [exact HX|].
      destruct HX as (H & _). rewrite Hg in H. cbn in H. contradiction. }
  destruct (Z.eqb_spec (Z.of_nat (length (argv b))) optind) as [Ha|Ha];
    cbn [negb].
  2:{ simpl wp. destruct HX as [HX|HX]; [exact HX|].
      destruct HX as (_ & H & _). rewrite Hg in H. cbn in H. contradiction. }
  destruct (malloc_ok b) eqn:Hm; cbn [negb].
  2:{ simpl wp. destruct HX as [HX|HX]; [exact HX|].
      destruct HX as (_ & _ & H & _). congruence. }
  pose proof (budget_bound b) as HB. unfold budget in *.
  destruct (memsize b) as [m|] eqn:Hmem.
  2:{ simpl wp. destruct HX as [HX|HX]; [exact HX|].
      destruct HX as (_ & _ & _ & (m & H & _) & _). congruence. }
  destruct ((0 <=? m) && (m <? 2 ^ 64)) eqn:Hr; cbn [negb].
  2:{ simpl wp. destruct HX as [HX|HX]; [exact HX|].
      destruct HX as (_ & _ & _ & (m' & H & Hm') & _).
      exfalso. assert (m' = m) by congruence. subst m'.
      apply andb_false_iff in Hr.
      destruct Hr as [Hr|Hr]; [apply Z.leb_gt in Hr|apply Z.ltb_ge in Hr]; lia. }
  apply andb_true_iff in Hr. destruct Hr as [Hr1 Hr2].
  apply Z.leb_le in Hr1. apply Z.ltb_lt in Hr2.
  specialize (HB ltac:(intros m' E; injection E as <-; lia)).
  destruct (fcntl_ok b) eqn:Hf; cbn [negb].
  2:{ simpl wp. destruct HX as [HX|HX]; [exact HX|].
      destruct HX as (_ & _ & _ & _ & H & _). congruence. }
  apply wp_bind.
  set (s0 := log_counters _).
  assert (Hs0 : store_ok (m / PAGESZ / 2) s0).
  { eapply store_ok_same;
      [apply (store_ok_init (m / PAGESZ / 2) (m / PAGESZ / 2)); lia|..];
      reflexivity. }
  eapply wp_mono;
    [|apply (page_pin_spec X (m / PAGESZ / 2)); auto; [lia|consts; lia|]].
  2:{ destruct HX as [HX|HX]; [left; exact HX|right]. apply HX. }
  intros s1 [S1 R1 W1 NR1 NW1 SI1 EO1 SO1 SL1 OT1 NF1 PG1].
  simpl wp.
  subst s0. sproj. cbn [init rpos wpos ntoread ntowrite stdin_read eof_seen
                        stdout states idx off len] in *.
  split; [lia|].
  split; [split; [split|]|split]; sproj; unfold avail; sproj;
    rewrite ?R1, ?W1, ?SI1, ?SO1, ?EO1; sproj; auto; try (consts; lia).
  - same_store S1.
  - intros j. destruct (Z.eq_dec j 0) as [->|Hj].
    + rewrite SL1. clear. slot_cases_tac.
    + rewrite OT1 by assumption. unfold slot_ok. lia.
  - split; sproj; rewrite ?SI1, ?SO1; sproj; intros; lia.
Qed.

Lemma exec_app tr1 tr2 s :
  exec (tr1 ++ tr2) s = bind (exec tr1 s) (exec tr2).
Proof.
  revert s. induction tr1 as [|e tr1 IH]; intros s; [reflexivity|].
  cbn [app exec]. destruct (loop_cond s) eqn:Hc.
  - destruct (iteration e s); cbn [bind]; auto.
  - cbn [bind]. destruct tr2; cbn [exec]; [reflexivity|]. now rewrite Hc.
Qed.

Lemma exec_done tr s : loop_cond s = false -> exec tr s = Ok s.
Proof. intros H. destruct tr; cbn [exec]; [reflexivity|]. now rewrite H. Qed.

Lemma grows_refl s : grows s s.
Proof. split; auto; lia. Qed.

Lemma grows_trans s1 s2 s3 : grows s1 s2 -> grows s2 s3 -> grows s1 s3.
Proof.
  intros [] []. split; auto; try lia.
  intros p Hp. rewrite g_old1 by lia. auto.
Qed.

Lemma step_grows e s s' : step_post e s s' -> grows s s'.
Proof.
  intros []. split; try lia.
  - rewrite sp_eof0. intros ->. reflexivity.
  - exact sp_old0.
Qed.

Lemma exec_safe B tr s :
  B < 2 ^ 64 -> InvB B s ->
  wp True (exec tr s) (fun s' => InvB B s' /\ grows s s').
Proof.
  intros HB. revert s. induction tr as [|e tr IH]; intros s HI.
  - simpl. split; [exact HI|apply grows_refl].
  - cbn [exec]. destruct (loop_cond s).
    + apply wp_bind.
      eapply wp_mono; [|apply (iteration_spec True B); auto].
      intros s1 [HI1 Hp1]. cbv beta.
      eapply wp_mono; [|apply IH; exact HI1].
      intros s2 [HI2 Hg]. split; [exact HI2|].
      eapply grows_trans; [apply (step_grows e); exact Hp1|exact Hg].
    + simpl. split; [exact HI|apply grows_refl].
Qed.

Lemma boundary_safe b tr :
  wp True (boundary b tr)
     (fun s => budget b < 2 ^ 64 /\ InvB (budget b) s).
Proof.
  unfold boundary. apply wp_bind.
  eapply wp_mono; [|apply (boot_spec True); auto].
  intros s0 (HB & HI & _). cbv beta.
  eapply wp_mono; [|apply (exec_safe (budget b)); auto].
  intros s [HI' _]. auto.
Qed.

Lemma boundary_inv b tr s :
  boundary b tr = Ok s -> budget b < 2 ^ 64 /\ InvB (budget b) s.
Proof. intros H. exact (wp_ok _ _ _ _ H (boundary_safe b tr)). Qed.

Lemma boundary_app b tr1 tr2 s1 :
  boundary b tr1 = Ok s1 -> boundary b (tr1 ++ tr2) = exec tr2 s1.
Proof.
  unfold boundary. destruct (boot b) as [s0| | |]; cbn [bind]; try discriminate.
  intros H. rewrite exec_app, H. reflexivity.
Qed.

(** No run fails an assertion. *)
Lemma main_not_aborted b tr a : main b tr <> Aborted a.
Proof.
  unfold main. pose proof (boundary_safe b tr) as H.
  destruct (boundary b tr) as [s| | |]; cbn [bind]; try discriminate.
  - destruct (loop_cond s); discriminate.
  - contradiction.
Qed.

Lemma exits1_bind r k :
  exits1 r -> (forall s, exits1 (k s)) -> exits1 (bind r k).
Proof. destruct r; cbn; auto. Qed.

Ltac exits1_tac :=
  repeat first
    [ exact I
    | reflexivity
    | apply exits1_bind; [|intros ?]
    | match goal with
      | |- exits1 (if ?c then _ else _) => destruct c
      | |- exits1 (match ?x with _ => _ end) => destruct x
      | |- exits1 (let _ := _ in _) => cbv zeta
      end ].

Lemma exits1_page_pin sy i s : exits1 (page_pin sy i s).
Proof. unfold page_pin, pin_existing, pin_anon, pin_ondisk, page_filepath, assert. exits1_tac. Qed.

Lemma exits1_page_unpin sy i s : exits1 (page_unpin sy i s).
Proof. unfold page_unpin, assert. exits1_tac. Qed.

Lemma exits1_page_free sy i s : exits1 (page_free sy i s).
Proof. unfold page_free, page_filepath, assert. exits1_tac. Qed.

Lemma exits1_iteration e s : exits1 (iteration e s).
Proof.
  unfold iteration, read_stdin, write_stdout, page_ptr, assert.
  repeat first
    [ exact I
    | reflexivity
    | apply exits1_page_pin
    | apply exits1_page_unpin
    | apply exits1_page_free
    | apply exits1_bind; [|intros ?]
    | match goal with
      | |- exits1 (if ?c then _ else _) => destruct c
      | |- exits1 (match ?x with _ => _ end) => destruct x
      | |- exits1 (let _ := _ in _) => cbv zeta
      end ].
Qed.

Lemma exits1_exec tr s : exits1 (exec tr s).
Proof.
  revert s. induction tr as [|e tr IH]; intros s; cbn [exec]; [exact I|].
  destruct (loop_cond s); [|exact I].
  apply exits1_bind; [apply exits1_iteration|apply IH].
Qed.

Lemma exits1_boundary b tr : exits1 (boundary b tr).
Proof.
  unfold boundary. apply exits1_bind; [|intros; apply exits1_exec].
  unfold boot. destruct (getopt (argv b)) as [[c optind] says].
  repeat first
    [ exact I
    | reflexivity
    | apply exits1_page_pin
    | apply exits1_bind; [|intros ?]
    | match goal with
      | |- exits1 (if ?c then _ else _) => destruct c
      | |- exits1 (match ?x with _ => _ end) => destruct x
      | |- exits1 (let _ := _ in _) => cbv zeta
      end ].
Qed.

(** [main] returns 0 exactly from a boundary at which the loop ends. *)
Lemma main_exit0 b tr s :
  main b tr = Exited 0 s <-> boundary b tr = Ok s /\ loop_cond s = false.
Proof.
  unfold main. pose proof (exits1_boundary b tr) as H1.
  destruct (boundary b tr) as [s0|c0 s0| |] eqn:Hb; cbn [bind].
  - destruct (loop_cond s0) eqn:Hc; split.
    + discriminate.
    + intros [H H']. injection H as ->. congruence.
    + intros H. injection H as ->. auto.
    + intros [H _]. congruence.
  - cbn in H1. subst c0. split; [discriminate|]. intros [H _]. discriminate.
  - split; [discriminate|]. intros [H _]. discriminate.
  - split; [discriminate|]. intros [H _]. discriminate.
Qed.

Lemma main_running b tr s :
  main b tr = Ok s <-> boundary b tr = Ok s /\ loop_cond s = true.
Proof.
  unfold main.
  destruct (boundary b tr) as [s0|c0 s0| |] eqn:Hb; cbn [bind].
  - destruct (loop_cond s0) eqn:Hc; split.
    + intros H. injection H as ->. auto.
    + intros [H _]. congruence.
    + discriminate.
    + intros [H H']. injection H as ->. congruence.
  - split; [discriminate|]. intros [H _]. discriminate.
  - split; [discriminate|]. intros [H _]. discriminate.
  - split; [discriminate|]. intros [H _]. discriminate.
Qed.

Lemma goes_on_state r : goes_on r = true -> r = Ok (state_of r).
Proof. destruct r; cbn; intros H; try discriminate. reflexivity. Defined.

Lemma exit_code_state r c : exit_code r = Some c -> r = Exited c (state_of r).
Proof.
  destruct r; cbn; intros H; try discriminate. injection H as <-. reflexivity.
Defined.

(** ** Lemmas for the claims *)

Lemma slot_values B s j :
  Inv0 B s ->
  states s j = 0 \/ states s j = 1 \/ states s j = 2 \/ states s j = 3.
Proof.
  intros HI. pose proof (so_val _ _ (i_store _ _ HI) j). lia.
Qed.

Lemma lex_of_len (a c : paddr) :
  0 <= off a < PAGESZ -> 0 <= off c < PAGESZ ->
  idx a * PAGESZ + off a <= idx c * PAGESZ + off c -> lex_le a c.
Proof. unfold lex_le. consts. lia. Qed.

Lemma paddr_eq (a c : paddr) : idx a = idx c -> off a = off c -> a = c.
Proof. destruct a, c; cbn; congruence. Qed.

(** After [page_unpin] a slot on disk is not mapped, whatever the state
    before. *)
Lemma unpin_clears_mapped sy i s s' :
  page_unpin sy i s = Ok s' ->
  has (states s' i) PAGE_ONDISK = true ->
  has (states s' i) PAGE_MAPPED = false.
Proof.
  unfold page_unpin, assert. destruct (i <? TABLESZ); [|discriminate].
  cbn [bind].
  destruct (has (states s i) PAGE_MAPPED) eqn:Hm; cbn [negb].
  - destruct (has (states s i) PAGE_ONDISK) eqn:Hd.
    + destruct (munmap_ok sy); [|discriminate].
      intros H. injection H as <-. sproj. intros _.
      rewrite fn_lookup_insert. apply has_clear_flag. discriminate.
    + intros H. injection H as <-. congruence.
  - intros H. injection H as <-. auto.
Qed.

(** An iteration that starts at a boundary of a run ends at one. *)
Lemma iteration_inv b tr s e s' :
  boundary b tr = Ok s -> iteration e s = Ok s' ->
  budget b < 2 ^ 64 /\ InvB (budget b) s /\ InvB (budget b) s' /\
  step_post e s s'.
Proof.
  intros H H'. apply boundary_inv in H. destruct H as (HB & HI).
  pose proof (wp_ok _ _ _ _ H' (iteration_spec True _ e s HB HI (or_introl I)))
    as [HI' Hp].
  auto.
Qed.


Lemma bytes_of_ext st st' :
  len st = len st' ->
  (forall p, 0 <= p < len st -> at_ st p = at_ st' p) ->
  bytes_of st = bytes_of st'.
Proof.
  intros Hl Hp. unfold bytes_of. rewrite <- Hl.
  apply map_ext_in. intros n Hn. apply in_seq in Hn. apply Hp. lia.
Qed.

Lemma map_nth_seq (l : list byte) :
  map (fun n => nth n l x00) (seq 0 (length l)) = l.
Proof.
  induction l as [|x l IH]; [reflexivity|].
  cbn [length seq map nth]. f_equal.
  rewrite <- seq_shift, map_map. exact IH.
Qed.

Lemma bytes_of_list st (l : list byte) :
  len st = Z.of_nat (length l) ->
  (forall j, 0 <= j < len st -> at_ st j = of_list l j) ->
  bytes_of st = l.
Proof.
  intros Hl Hp.
  transitivity (map (fun n => nth n l x00) (seq 0 (length l)));
    [|apply map_nth_seq].
  unfold bytes_of. rewrite Hl, Nat2Z.id.
  apply map_ext_in. intros n Hn. apply in_seq in Hn.
  rewrite Hp by lia. unfold of_list. now rewrite Nat2Z.id.
Qed.

(** At a boundary the loop ends when end of input was seen and all that
    was read has been written. *)
Lemma InvB_exit B s :
  InvB B s ->
  (loop_cond s = false <->
   eof_seen s = true /\ len (stdout s) = len (stdin_read s)).
Proof.
  intros [HI Hnw]. pose proof (Inv0_idx_le _ _ HI) as Hle.
  destruct HI as [Hst Hwo Hro Hwi Hri Hin Hout Hlen Hsl Hntr Hd].
  unfold loop_cond.
  rewrite orb_false_iff, !negb_false_iff, !Z.eqb_eq.
  rewrite Hntr, Hnw. unfold avail.
  destruct (eof_seen s), (Z.eqb_spec (idx (wpos s)) (idx (rpos s)));
    consts; split; intros; try split; try lia; try reflexivity;
    try discriminate.
Qed.

(** What [main] has written when it returns 0 is what it has read. *)
Lemma exit_copies b tr s :
  main b tr = Exited 0 s ->
  eof_seen s = true /\
  len (stdin_read s) < TABLESZ * PAGESZ /\
  bytes_of (stdout s) = bytes_of (stdin_read s).
Proof.
  intros H. apply main_exit0 in H. destruct H as [H Hc].
  apply boundary_inv in H. destruct H as (_ & HI).
  apply (InvB_exit _ _ HI) in Hc. destruct Hc as [He Hl].
  destruct HI as [HI _]. destruct HI. split; [exact He|]. split.
  - consts. lia.
  - apply bytes_of_ext; [exact Hl|]. apply i_data0.
Qed.


(** One iteration that goes on, from a boundary, under answers that let
    it. *)
Lemma iteration_goes_on B e s :
  B < 2 ^ 64 -> InvB B s -> event_ok e s ->
  exists s', iteration e s = Ok s' /\ InvB B s' /\ step_post e s s'.
Proof.
  intros HB HI He. apply wp_ok_inv.
  apply iteration_spec; auto.
Qed.

Lemma sys_ok_nice : sys_ok nice.
Proof. repeat split; discriminate. Qed.


Lemma is_flag_inv arg :
  is_flag arg = true ->
  exists c r, arg = String "-" (String c r) /\
              (Ascii.eqb c "-" && String.eqb r "")%bool = false.
Proof.
  intros Hf. destruct arg as [|a [|c r]]; cbn [is_flag] in Hf.
  - discriminate.
  - destruct a as [[] [] [] [] [] [] [] []]; discriminate.
  - destruct (Ascii.eqb_spec a "-") as [->|Hn].
    + exists c, r. split; [reflexivity|]. apply negb_true_iff. exact Hf.
    + exfalso. revert Hf.
      destruct a as [[] [] [] [] [] [] [] []]; try discriminate.
      contradiction Hn. reflexivity.
Qed.

(** getopt goes past the arguments that are not options and complains
    about the first flag. *)
Lemma getopt_scan_flag k pre arg more :
  forallb nonoption pre = true -> is_flag arg = true ->
  exists optind,
    getopt_scan k (pre ++ arg :: more)
    = (63, optind, [GetoptSays (flag_char arg)]).
Proof.
  intros Hp Hf. destruct (is_flag_inv _ Hf) as (c & r & -> & Hc).
  revert k. induction pre as [|a pre IH]; intros k.
  - cbn [app getopt_scan nonoption flag_char]. rewrite Hc. eauto.
  - cbn [forallb] in Hp. apply andb_true_iff in Hp. destruct Hp as [Ha Hp].
    cbn [app getopt_scan]. rewrite Ha. apply IH. exact Hp.
Qed.

Lemma getopt_scan_end k pre :
  forallb nonoption pre = true -> getopt_scan k pre = (-1, 1, []).
Proof.
  revert k. induction pre as [|a pre IH]; intros k Hp; [reflexivity|].
  cbn [forallb] in Hp. apply andb_true_iff in Hp. destruct Hp as [Ha Hp].
  cbn [getopt_scan]. rewrite Ha. apply IH. exact Hp.
Qed.

Lemma getopt_scan_dashes k pre more :
  forallb nonoption pre = true ->
  getopt_scan k (pre ++ "--"%string :: more) = (-1, 2, []).
Proof.
  revert k. induction pre as [|a pre IH]; intros k Hp; [reflexivity|].
  cbn [forallb] in Hp. apply andb_true_iff in Hp. destruct Hp as [Ha Hp].
  cbn [app getopt_scan]. rewrite Ha. apply IH. exact Hp.
Qed.

Lemma boot_ok_plain m : 0 <= m < 2 ^ 64 -> boot_ok (plain_boot m).
Proof.
  intros Hm. unfold boot_ok. cbn.
  repeat split; try discriminate. exists m. auto.
Defined.

(** ** The claims *)




(** The run of the witness, computed: ["hello\n"] comes out. *)
Lemma hello_copied :
  let r := main (plain_boot GiB8) hello_run in
  exit_code r = Some 0 /\
  bytes_of (stdin_read (state_of r)) = hello /\
  bytes_of (stdout (state_of r)) = hello /\
  files (state_of r) = ∅.
Proof.
  cbv zeta. repeat split; vm_compute; reflexivity.
Qed.

(** C2, as the code has it.  At every iteration boundary a slot outside
    the range of the two cursors is absent; the two slots the cursors stand
    in are mapped; a slot strictly between them is present, and is either
    in anonymous memory (mapped) or on disk and not mapped: the intake
    cursor unpins a page on disk when it leaves it. *)
Theorem residency b tr s j :
  boundary b tr = Ok s ->
  (j < idx (wpos s) \/ idx (rpos s) < j -> states s j = 0) /\
  (j = idx (wpos s) \/ j = idx (rpos s) ->
     has (states s j) PAGE_MAPPED = true) /\
  (idx (wpos s) < j < idx (rpos s) ->
     memonly (states s j) = true \/
     (has (states s j) PAGE_MAPPED = false /\
      has (states s j) PAGE_ONDISK = true)).
Proof.
  intros H. apply boundary_inv in H. destruct H as (_ & [HI _]).
  pose proof (Inv0_idx_le _ _ HI) as Hle.
  pose proof (i_slots _ _ HI j) as (H1 & H2 & H3 & H4).
  split; [exact H1|]. split.
  - intros Hj.
    assert (states s j = 1 \/ states s j = 3) as [->| ->] by lia;
      reflexivity.
  - intros Hj.
    assert (states s j = 1 \/ states s j = 2) as [->| ->] by lia;
      [left|right]; auto.
Qed.

Lemma residency_witness :
  let s := state_of (boundary (plain_boot GiB8) hello_run) in
  boundary (plain_boot GiB8) hello_run = Ok s /\
  (1 < idx (wpos s) \/ idx (rpos s) < 1 -> states s 1 = 0) /\
  (1 = idx (wpos s) \/ 1 = idx (rpos s) ->
     has (states s 1) PAGE_MAPPED = true) /\
  (idx (wpos s) < 1 < idx (rpos s) ->
     memonly (states s 1) = true \/
     (has (states s 1) PAGE_MAPPED = false /\
      has (states s 1) PAGE_ONDISK = true)).
Proof.
  split; [apply goes_on_state; reflexivity|].
  apply (residency (plain_boot GiB8) hello_run).
  apply goes_on_state. reflexivity.
Defined.

(** C2 as stated fails: after [two_pages_in] the cursors stand in pages 0
    and 2, and page 1, on disk, is not mapped. *)
Lemma residency_gap :
  let s := state_of (boundary (plain_boot GiB8) two_pages_in) in
  boundary (plain_boot GiB8) two_pages_in = Ok s /\
  idx (wpos s) <= 1 <= idx (rpos s) /\
  has (states s 1) PAGE_MAPPED = false.
Proof.
  split; [apply goes_on_state; reflexivity|].
  split; [|reflexivity].
  vm_compute. split; discriminate.
Qed.

(** C3, as the code has it.  Let an iteration start at a boundary.  When
    the intake cursor enters a new page in it, that page is created on disk
    exactly when [nfree] is 0 at that moment or the anonymous [mmap] fails
    with [ENOMEM].  When [nfree] is 0 at the start, or is forced to 0 by
    such a failure, it is 0 at the end of the iteration unless the drain
    cursor leaves a page held in anonymous memory: [page_free] of such a
    page makes it 1, and the anonymous path is open again. *)
Theorem spill_rule b tr s e s' :
  boundary b tr = Ok s -> iteration e s = Ok s' ->
  (rcross e s = true ->
     idx (rpos s') = idx (rpos s) + 1 /\
     (has (states s' (idx (rpos s') )) PAGE_ONDISK = true <->
      nfree s = 0 \/ anon (rd_sys e) = MapNoMem)) /\
  (nfree s = 0 \/ (rcross e s = true /\ anon (rd_sys e) = MapNoMem) ->
     nfree s' = if wcross e s && memonly (states s (idx (wpos s)))
                then 1 else 0).
Proof.
  intros H H'.
  destruct (iteration_inv _ _ _ _ _ H H') as (_ & [HI _] & [HI' _] & Hp).
  pose proof (slot_values _ _ (idx (wpos s)) HI) as Hv.
  destruct Hp. split.
  - intros Hc. specialize (sp_fresh0 Hc).
    assert (E : idx (rpos s') = idx (rpos s) + 1).
    { unfold rcross in Hc. apply Z.eqb_eq in Hc.
      destruct HI, HI'. consts. lia. }
    split; [exact E|]. rewrite E, sp_fresh0. unfold pin_state.
    cbn [Z.eqb].
    destruct (Z.eqb_spec (nfree s) 0) as [Hn|Hn].
    + split; [auto|reflexivity].
    + destruct (anon (rd_sys e)); cbn.
      * split; [discriminate|]. intros [?|?]; [contradiction|discriminate].
      * split; [right|]; reflexivity.
      * split; [discriminate|]. intros [?|?]; [contradiction|discriminate].
  - intros Hz. rewrite sp_nfree0. unfold step_nfree.
    assert (E : (if rcross e s then pin_nfree (rd_sys e) (nfree s) 0
                 else nfree s) = 0).
    { unfold pin_nfree. cbn [Z.eqb].
      destruct Hz as [->|[-> ->]]; cbn [Z.eqb].
      - destruct (rcross e s); reflexivity.
      - destruct (nfree s =? 0); reflexivity. }
    rewrite E. destruct (wcross e s); cbn [andb]; [|reflexivity].
    unfold free_nfree.
    destruct Hv as [->|[->|[->| ->]]]; reflexivity.
Qed.

Lemma spill_rule_witness :
  let s := state_of (boundary (plain_boot GiB8) []) in
  let e := ev_read nomem PAGESZ zeros in
  let s' := state_of (iteration e s) in
  boundary (plain_boot GiB8) [] = Ok s /\ iteration e s = Ok s' /\
  (rcross e s = true ->
     idx (rpos s') = idx (rpos s) + 1 /\
     (has (states s' (idx (rpos s') )) PAGE_ONDISK = true <->
      nfree s = 0 \/ anon (rd_sys e) = MapNoMem)) /\
  (nfree s = 0 \/ (rcross e s = true /\ anon (rd_sys e) = MapNoMem) ->
     nfree s' = if wcross e s && memonly (states s (idx (wpos s)))
                then 1 else 0).
Proof.
  split; [apply goes_on_state; reflexivity|].
  split; [apply goes_on_state; reflexivity|].
  apply (spill_rule (plain_boot GiB8) []);
    apply goes_on_state; reflexivity.
Defined.

(** C3 as stated fails.  In [spill_then_memory] page 1 is created on disk
    and [nfree] is forced to 0 by the failure of the anonymous [mmap]; one
    iteration later [nfree] is 1; and page 2, made after that, is in
    anonymous memory. *)
Lemma anonymous_after_spill :
  let b := plain_boot GiB8 in
  let s1 := state_of (boundary b [ev_read nomem PAGESZ zeros]) in
  let s2 := state_of (boundary b [ev_read nomem PAGESZ zeros;
                                  ev_write PAGESZ]) in
  let s3 := state_of (boundary b spill_then_memory) in
  boundary b [ev_read nomem PAGESZ zeros] = Ok s1 /\
  has (states s1 1) PAGE_ONDISK = true /\ nfree s1 = 0 /\
  boundary b [ev_read nomem PAGESZ zeros; ev_write PAGESZ] = Ok s2 /\
  nfree s2 = 1 /\
  boundary b spill_then_memory = Ok s3 /\
  idx (rpos s3) = 2 /\ states s2 2 = 0 /\
  has (states s3 2) PAGE_MAPPED = true /\
  has (states s3 2) PAGE_ONDISK = false.
Proof.
  cbv zeta.
  split; [apply goes_on_state; vm_compute; reflexivity|].
  split; [vm_compute; reflexivity|].
  split; [vm_compute; reflexivity|].
  split; [apply goes_on_state; vm_compute; reflexivity|].
  split; [vm_compute; reflexivity|].
  split; [apply goes_on_state; vm_compute; reflexivity|].
  split; [vm_compute; reflexivity|].
  split; [vm_compute; reflexivity|].
  split; vm_compute; reflexivity.
Qed.

(** C4 fails on the code.  With page 0 on disk, ["hello\n"] is copied and
    [main] returns 0, and the spool file of page 0 is still there: only a
    page the drain cursor leaves is freed, never the last one. *)
Theorem spool_file_left_behind :
  let r := main tight_boot hello_run in
  exit_code r = Some 0 /\
  bytes_of (stdout (state_of r)) = hello /\
  0 ∈ files (state_of r).
Proof.
  cbv zeta. split; [vm_compute; reflexivity|].
  split; [vm_compute; reflexivity|].
  apply (bool_decide_eq_true_1
           (0 ∈ files (state_of (main tight_boot hello_run)))).
  vm_compute. reflexivity.
Qed.

(** After a return of 0 the spool files that remain are that of the last
    page, if it is on disk, and no other. *)
Lemma spool_after_exit b tr s j :
  main b tr = Exited 0 s ->
  (j ∈ files s <->
   j = idx (wpos s) /\ has (states s j) PAGE_ONDISK = true).
Proof.
  intros H. apply main_exit0 in H. destruct H as [H Hc].
  apply boundary_inv in H. destruct H as (_ & HI).
  apply (InvB_exit _ _ HI) in Hc. destruct Hc as [_ Hl].
  destruct HI as [HI _].
  pose proof (i_slots _ _ HI j) as (H1 & _).
  rewrite (so_files _ _ (i_store _ _ HI) j).
  assert (E : idx (rpos s) = idx (wpos s)).
  { destruct HI. consts. lia. }
  rewrite E in H1. split.
  - intros Hd. split; [|exact Hd].
    destruct (Z.eq_dec j (idx (wpos s))) as [Ej|Ej]; [exact Ej|].
    rewrite H1 in Hd by lia. discriminate.
  - tauto.
Qed.

(** C5, as the code has it.  Started with an unknown option flag, an
    argument that starts with [-], has a character after it and is not
    [--], with nothing before it but arguments that are not options, the
    program exits with status 1 and writes nothing to stdout; stderr holds
    the complaint of getopt about the flag and nothing else: [main]
    returns before it prints the usage line. *)
Theorem unknown_flag b tr prog pre arg more :
  argv b = prog :: pre ++ arg :: more ->
  forallb nonoption pre = true -> is_flag arg = true ->
  let r := main b tr in
  exit_code r = Some 1 /\
  stderr (state_of r) = [GetoptSays (flag_char arg)] /\
  ~ In (Line usage_line) (stderr (state_of r)) /\
  len (stdout (state_of r)) = 0.
Proof.
  intros Ha Hp Hf. cbv zeta. unfold main, boundary, boot. rewrite Ha.
  cbn [getopt].
  destruct (getopt_scan_flag 0 pre arg more Hp Hf) as (optind & ->).
  cbn. repeat split; auto.
  intros [H|[]]. discriminate.
Qed.

Lemma unknown_flag_witness :
  let r := main late_flag_boot [] in
  argv late_flag_boot
  = "petabuf"%string :: ["file"%string] ++ "-x"%string :: [] /\
  forallb nonoption ["file"%string] = true /\
  is_flag "-x" = true /\
  exit_code r = Some 1 /\
  stderr (state_of r) = [GetoptSays (flag_char "-x")] /\
  ~ In (Line usage_line) (stderr (state_of r)) /\
  len (stdout (state_of r)) = 0.
Proof.
  split; [reflexivity|]. split; [reflexivity|]. split; [reflexivity|].
  apply (unknown_flag late_flag_boot [] "petabuf" ["file"%string] "-x" []);
    reflexivity.
Defined.

(** C5 as stated fails: [petabuf -x] exits with status 1 and an empty
    stdout, and the usage line is not on stderr. *)
Lemma unknown_flag_no_usage :
  let r := main flag_boot [] in
  exit_code r = Some 1 /\ len (stdout (state_of r)) = 0 /\
  stderr (state_of r) = [GetoptSays "x"] /\
  ~ In (Line usage_line) (stderr (state_of r)).
Proof.
  cbv zeta. split; [reflexivity|]. split; [reflexivity|].
  split; [reflexivity|].
  intros [H|[]]. discriminate.
Qed.

(** [petabuf file]: a positional argument and no flag gets the usage
    line. *)
Lemma positional_argument_usage :
  let r := main {| argv := ["petabuf"%string; "file"%string];
                   malloc_ok := true; memsize := Some GiB8;
                   fcntl_ok := true; pin0 := nice |} [] in
  exit_code r = Some 1 /\ stderr (state_of r) = [Line usage_line].
Proof. split; reflexivity. Qed.

(** C6. At an iteration boundary [ntoread] is zero exactly when a [read]
    has returned 0 and [ntowrite] is zero exactly when the two cursors are
    equal; the loop ends, and [main] returns 0, exactly when both hold. *)
Theorem loop_exit_iff b tr s :
  boundary b tr = Ok s ->
  (ntoread s = 0 <-> eof_seen s = true) /\
  (ntowrite s = 0 <-> rpos s = wpos s) /\
  (main b tr = Exited 0 s <-> eof_seen s = true /\ rpos s = wpos s) /\
  (main b tr = Ok s <-> ~ (eof_seen s = true /\ rpos s = wpos s)).
Proof.
  intros H. pose proof (boundary_inv _ _ _ H) as (_ & [HI Hnw]).
  pose proof (Inv0_idx_le _ _ HI) as Hle.
  destruct HI as [Hst Hwo Hro Hwi Hri Hin Hout Hlen Hsl Hntr Hd].
  assert (A1 : ntoread s = 0 <-> eof_seen s = true).
  { rewrite Hntr. destruct (eof_seen s); split; auto; try lia; discriminate. }
  assert (A2 : ntowrite s = 0 <-> rpos s = wpos s).
  { rewrite Hnw. unfold avail. split.
    - intros H0.
      destruct (Z.eqb_spec (idx (wpos s)) (idx (rpos s))); [|lia].
      apply paddr_eq; lia.
    - intros ->. rewrite Z.eqb_refl. lia. }
  assert (A3 : loop_cond s = false <-> eof_seen s = true /\ rpos s = wpos s).
  { rewrite <- A1, <- A2. unfold loop_cond.
    rewrite orb_false_iff, !negb_false_iff, !Z.eqb_eq. tauto. }
  split; [exact A1|]. split; [exact A2|]. split.
  - rewrite main_exit0, <- A3. tauto.
  - rewrite main_running, <- A3.
    destruct (loop_cond s); split; try tauto; try discriminate.
    intros [_ H0]. discriminate.
Qed.

Lemma loop_exit_iff_witness :
  let s := state_of (boundary (plain_boot GiB8) hello_run) in
  boundary (plain_boot GiB8) hello_run = Ok s /\
  (ntoread s = 0 <-> eof_seen s = true) /\
  (ntowrite s = 0 <-> rpos s = wpos s) /\
  (main (plain_boot GiB8) hello_run = Exited 0 s <->
     eof_seen s = true /\ rpos s = wpos s) /\
  (main (plain_boot GiB8) hello_run = Ok s <->
     ~ (eof_seen s = true /\ rpos s = wpos s)).
Proof.
  split; [apply goes_on_state; reflexivity|].
  apply (loop_exit_iff (plain_boot GiB8) hello_run).
  apply goes_on_state. reflexivity.
Defined.

(** C7. Along a run both cursors never move back in the lexicographic
    order on [(idx, off)], and at every iteration boundary the drain cursor
    [wpos] is at or before the intake cursor [rpos]. *)
Theorem cursors_monotone b tr1 tr2 s1 s2 :
  boundary b tr1 = Ok s1 -> boundary b (tr1 ++ tr2) = Ok s2 ->
  lex_le (rpos s1) (rpos s2) /\ lex_le (wpos s1) (wpos s2) /\
  lex_le (wpos s2) (rpos s2).
Proof.
  intros H1 H2. rewrite (boundary_app _ _ _ _ H1) in H2.
  apply boundary_inv in H1. destruct H1 as (HB & HI1).
  pose proof (wp_ok _ _ _ _ H2 (exec_safe _ tr2 _ HB HI1)) as [HI2 Hg].
  destruct HI1 as [[] _], HI2 as [[] _], Hg.
  repeat split; apply lex_of_len; auto; lia.
Qed.

Lemma cursors_monotone_witness :
  let s1 := state_of (boundary (plain_boot GiB8) [ev_read nice 6 (of_list hello)]) in
  let s2 := state_of (boundary (plain_boot GiB8) hello_run) in
  boundary (plain_boot GiB8) [ev_read nice 6 (of_list hello)] = Ok s1 /\
  boundary (plain_boot GiB8) hello_run = Ok s2 /\
  lex_le (rpos s1) (rpos s2) /\ lex_le (wpos s1) (wpos s2) /\
  lex_le (wpos s2) (rpos s2).
Proof.
  split; [apply goes_on_state; reflexivity|].
  split; [apply goes_on_state; reflexivity|].
  apply (cursors_monotone (plain_boot GiB8)
           [ev_read nice 6 (of_list hello)] [ev_eof; ev_write 6]);
    apply goes_on_state; reflexivity.
Defined.

(** C8. At every iteration boundary [nmapped] is the number of slots whose
    state includes [MAPPED], [nondisk] the number of slots whose state
    includes [ONDISK], and [nfree] is not negative. *)
Theorem counters_consistent b tr s :
  boundary b tr = Ok s ->
  count_is (fun v => has v PAGE_MAPPED) (states s) (nmapped s) /\
  count_is (fun v => has v PAGE_ONDISK) (states s) (nondisk s) /\
  0 <= nfree s.
Proof.
  intros H. apply boundary_inv in H. destruct H as (_ & [[Hs] _]).
  destruct Hs. auto.
Qed.

Lemma counters_consistent_witness :
  let s := state_of (boundary (plain_boot GiB8) hello_run) in
  boundary (plain_boot GiB8) hello_run = Ok s /\
  count_is (fun v => has v PAGE_MAPPED) (states s) (nmapped s) /\
  count_is (fun v => has v PAGE_ONDISK) (states s) (nondisk s) /\
  0 <= nfree s.
Proof.
  split; [apply goes_on_state; reflexivity|].
  apply (counters_consistent (plain_boot GiB8) hello_run).
  apply goes_on_state. reflexivity.
Defined.

(** C9. [page_unpin] leaves a slot that is on disk unmapped, and the loop
    calls [page_free] right after [page_unpin] on the same index: in no run
    does the assertion of [page_free], that a slot on disk is not mapped,
    fail. *)
Theorem free_assertion_holds :
  (forall sy i s s',
     page_unpin sy i s = Ok s' ->
     has (states s' i) PAGE_ONDISK = true ->
     has (states s' i) PAGE_MAPPED = false) /\
  (forall b tr, main b tr <> Aborted A_free_not_pinned).
Proof.
  split.
  - exact unpin_clears_mapped.
  - intros b tr. apply main_not_aborted.
Qed.

Lemma free_assertion_holds_witness :
  let s := state_of (boundary (plain_boot 0) []) in
  let s' := state_of (page_unpin nice 0 s) in
  page_unpin nice 0 s = Ok s' /\
  has (states s' 0) PAGE_ONDISK = true /\
  has (states s' 0) PAGE_MAPPED = false.
Proof.
  split; [apply goes_on_state; reflexivity|].
  split; [reflexivity|].
  apply (proj1 free_assertion_holds nice 0
           (state_of (boundary (plain_boot 0) []))).
  - apply goes_on_state. reflexivity.
  - reflexivity.
Defined.

(** C10. In no run does the assertion [idx < TABLESZ] of [page_pin] fail:
    at every iteration boundary the drain cursor's index is at most the
    intake cursor's, which is below [TABLESZ], and when the drain cursor
    leaves its page its index grows by one and stays at most the intake
    cursor's. *)
Theorem pin_index_in_range b tr :
  main b tr <> Aborted A_pin_idx /\
  (forall s, boundary b tr = Ok s ->
     0 <= idx (wpos s) <= idx (rpos s) /\ idx (rpos s) < TABLESZ) /\
  (forall s e s', boundary b tr = Ok s -> iteration e s = Ok s' ->
     wcross e s = true ->
     idx (wpos s') = idx (wpos s) + 1 /\
     idx (wpos s') <= idx (rpos s') /\ idx (rpos s') < TABLESZ).
Proof.
  split; [apply main_not_aborted|]. split.
  - intros s H. apply boundary_inv in H. destruct H as (_ & [HI _]).
    pose proof (Inv0_idx_le _ _ HI). destruct HI. lia.
  - intros s e s' H H' Hc.
    destruct (iteration_inv _ _ _ _ _ H H') as (_ & [HI _] & [HI' _] & Hp).
    pose proof (Inv0_idx_le _ _ HI').
    pose proof (sp_out _ _ _ Hp) as Ho.
    unfold wcross in Hc. apply Z.eqb_eq in Hc.
    destruct HI, HI'. consts. lia.
Qed.

Lemma pin_index_in_range_witness :
  let s := state_of (boundary (plain_boot GiB8) [ev_read nice PAGESZ zeros]) in
  let s' := state_of (iteration (ev_write PAGESZ) s) in
  boundary (plain_boot GiB8) [ev_read nice PAGESZ zeros] = Ok s /\
  iteration (ev_write PAGESZ) s = Ok s' /\
  wcross (ev_write PAGESZ) s = true /\
  idx (wpos s') = idx (wpos s) + 1 /\
  idx (wpos s') <= idx (rpos s') /\ idx (rpos s') < TABLESZ.
Proof.
  split; [apply goes_on_state; reflexivity|].
  split; [apply goes_on_state; reflexivity|].
  split; [reflexivity|].
  apply (proj2 (proj2 (pin_index_in_range (plain_boot GiB8)
                         [ev_read nice PAGESZ zeros]))
           _ (ev_write PAGESZ) _).
  - apply goes_on_state. reflexivity.
  - apply goes_on_state. reflexivity.
  - reflexivity.
Defined.

(** ** Lemmas for the further properties *)

Lemma bytes_of_app st st' :
  0 <= len st <= len st' ->
  (forall p, 0 <= p < len st -> at_ st p = at_ st' p) ->
  exists rest, bytes_of st' = bytes_of st ++ rest /\
               Z.of_nat (length rest) = len st' - len st.
Proof.
  intros Hl Hp.
  exists (map (fun n => at_ st' (Z.of_nat n))
            (seq (Z.to_nat (len st)) (Z.to_nat (len st' - len st)))).
  split.
  - unfold bytes_of.
    replace (Z.to_nat (len st'))
      with (Z.to_nat (len st) + Z.to_nat (len st' - len st))%nat by lia.
    rewrite seq_app, map_app. f_equal.
    apply map_ext_in. intros n Hn. apply in_seq in Hn.
    symmetry. apply Hp. lia.
  - rewrite length_map, length_seq. lia.
Qed.

Lemma boundary_Inv0 b tr s :
  boundary b tr = Ok s -> Inv0 (budget b) s.
Proof. intros H. apply boundary_inv in H. apply H. Qed.

Lemma size_union_le (X Y : gset Z) : (size (X ∪ Y) <= size X + size Y)%nat.
Proof.
  rewrite size_union_alt.
  pose proof (subseteq_size (Y ∖ X) Y ltac:(set_solver)). lia.
Qed.

Lemma memonly_values v : 0 <= v <= 3 -> memonly v = (v =? 1).
Proof.
  intros H.
  assert (v = 0 \/ v = 1 \/ v = 2 \/ v = 3) as [->|[->|[->| ->]]] by lia;
    reflexivity.
Qed.

Lemma count_memonly B s :
  store_ok B s ->
  exists a, count_is memonly (states s) a /\ 0 <= a /\ a + nfree s <= B.
Proof.
  intros H. destruct (so_budget _ _ H) as (a & (M & HM & Ha) & Hle).
  exists a. split; [|lia].
  exists M. split; [|exact Ha].
  intros j. rewrite (HM j), memonly_values by apply (so_val _ _ H).
  reflexivity.
Qed.

Lemma reads_after_eof B e s :
  Inv0 B s -> eof_seen s = true -> reads e s = false.
Proof.
  intros H He. unfold reads. rewrite (i_ntoread _ _ H), He. reflexivity.
Qed.

Lemma exec_after_eof B tr s s' :
  B < 2 ^ 64 -> InvB B s -> eof_seen s = true -> exec tr s = Ok s' ->
  len (stdin_read s') = len (stdin_read s) /\ eof_seen s' = true.
Proof.
  intros HB. revert s. induction tr as [|e tr IH]; intros s HI He H.
  - injection H as <-. auto.
  - cbn [exec] in H. destruct (loop_cond s).
    2:{ injection H as <-. auto. }
    destruct (iteration e s) as [s1| | |] eqn:H1; cbn [bind] in H;
      try discriminate.
    pose proof (wp_ok _ _ _ _ H1 (iteration_spec True B e s HB HI (or_introl I)))
      as [HI1 Hp].
    assert (He1 : eof_seen s1 = true).
    { rewrite (sp_eof _ _ _ Hp), He. reflexivity. }
    destruct (IH s1 HI1 He1 H) as [Hl He'].
    split; [|exact He'].
    rewrite Hl, (sp_in _ _ _ Hp). unfold nread.
    rewrite (reads_after_eof B e s (proj1 HI) He). lia.
Qed.

Lemma drain_run B :
  B < 2 ^ 64 ->
  forall n, 0 <= n ->
  forall s,
  InvB B s -> eof_seen s = true ->
  len (stdin_read s) - len (stdout s) = n ->
  exists tr s',
    exec tr s = Ok s' /\ loop_cond s' = false /\ InvB B s' /\ grows s s' /\
    len (stdin_read s') = len (stdin_read s).
Proof.
  intros HB n Hn0. pattern n. apply Zlt_0_ind; [|exact Hn0].
  clear n Hn0. intros n IH Hn s HI He Hl.
  destruct (Z.eq_dec n 0) as [->|Hpos].
  - exists [], s. cbn [exec]. split; [reflexivity|]. split.
    { apply (InvB_exit _ _ HI). split; [exact He|lia]. }
    split; [exact HI|]. split; [apply grows_refl|reflexivity].
  - pose proof HI as [HI0 Hnw].
    pose proof (Inv0_idx_le _ _ HI0) as Hle.
    pose proof (reads_after_eof B (ev_write (ntowrite s)) s HI0 He) as Hr.
    destruct HI0 as [Hst Hwo Hro Hwi Hri Hin Hout Hlen Hsl Hntr Hd].
    assert (Hk : 1 <= ntowrite s <= n).
    { rewrite Hnw. unfold avail.
      destruct (Z.eqb_spec (idx (wpos s)) (idx (rpos s))); consts; nia. }
    assert (Hc : loop_cond s = true).
    { unfold loop_cond.
      destruct (Z.eqb_spec (ntowrite s) 0); [lia|]. apply orb_true_r. }
    assert (Hw : writes (ev_write (ntowrite s)) s = true).
    { unfold writes. cbn.
      destruct (Z.eqb_spec (ntowrite s) 0); [lia|reflexivity]. }
    destruct (iteration_goes_on B (ev_write (ntowrite s)) s HB HI)
      as (s1 & H1 & HI1 & Hp1).
    { split; [reflexivity|]. split.
      - rewrite Hr. discriminate.
      - intros _. split; [apply sys_ok_nice|]. cbn. lia. }
    pose proof (step_grows _ _ _ Hp1) as Hg1.
    destruct Hp1 as [I1 O1 _ _ E1 _ _ _ _].
    unfold nread, nwritten, sees_eof in *. rewrite Hr, Hw in *.
    cbn in I1, O1, E1. rewrite He in E1. cbn in E1.
    destruct (IH (n - ntowrite s) ltac:(lia) s1 HI1 E1 ltac:(lia))
      as (tr & s' & Hex & Hcl & HI' & Hg' & Hlen').
    exists (ev_write (ntowrite s) :: tr), s'.
    cbn [exec]. rewrite Hc, H1. cbn [bind].
    split; [exact Hex|]. split; [exact Hcl|]. split; [exact HI'|].
    split; [eapply grows_trans; eassumption|lia].
Qed.

Lemma eof_step B s :
  B < 2 ^ 64 -> InvB B s -> eof_seen s = false ->
  exists s', exec [ev_eof] s = Ok s' /\ InvB B s' /\ grows s s' /\
             eof_seen s' = true /\
             len (stdin_read s') = len (stdin_read s).
Proof.
  intros HB HI He.
  pose proof HI as [HI0 Hnw].
  destruct HI0 as [Hst Hwo Hro Hwi Hri Hin Hout Hlen Hsl Hntr Hd].
  rewrite He in Hntr.
  assert (Hc : loop_cond s = true).
  { unfold loop_cond. rewrite Hntr.
    destruct (Z.eqb_spec (PAGESZ - off (rpos s)) 0); [lia|reflexivity]. }
  assert (Hr : reads ev_eof s = true).
  { unfold reads. cbn. rewrite Hntr.
    destruct (Z.eqb_spec (PAGESZ - off (rpos s)) 0); [lia|reflexivity]. }
  destruct (iteration_goes_on B ev_eof s HB HI) as (s1 & H1 & HI1 & Hp1).
  { split; [reflexivity|]. split.
    - intros _. split; [apply sys_ok_nice|exact I].
    - unfold writes. cbn. rewrite andb_false_r. discriminate. }
  exists s1. cbn [exec]. rewrite Hc, H1. cbn [bind].
  pose proof (step_grows _ _ _ Hp1) as Hg1.
  destruct Hp1 as [I1 _ _ _ E1 _ _ _ _].
  unfold nread, sees_eof in *. rewrite Hr in *. cbn in I1, E1.
  rewrite orb_true_r in E1.
  split; [reflexivity|]. split; [exact HI1|]. split; [exact Hg1|].
  split; [exact E1|lia].
Qed.

(** A run that reads [n] more bytes and writes none: the bytes are read in
    pieces that fill the page of the intake cursor. *)
Lemma fill_run B :
  B < 2 ^ 64 ->
  forall n, 0 <= n ->
  forall s (f : Z -> byte),
  InvB B s -> eof_seen s = false ->
  len (stdin_read s) + n < TABLESZ * PAGESZ ->
  exists tr s',
    exec tr s = Ok s' /\ InvB B s' /\
    len (stdout s') = len (stdout s) /\
    len (stdin_read s') = len (stdin_read s) + n /\
    (forall p, p < len (stdin_read s) ->
       at_ (stdin_read s') p = at_ (stdin_read s) p) /\
    (forall j, 0 <= j < n ->
       at_ (stdin_read s') (len (stdin_read s) + j) = f j).
Proof.
  intros HB n Hn0. pattern n. apply Zlt_0_ind; [|exact Hn0].
  clear n Hn0. intros n IH Hn s f HI He Hroom.
  destruct (Z.eq_dec n 0) as [->|Hpos].
  - exists [], s. cbn [exec]. split; [reflexivity|]. split; [exact HI|].
    split; [reflexivity|]. split; [lia|]. split; [auto|]. intros j Hj. lia.
  - pose proof HI as [HI0 Hnw].
    destruct HI0 as [Hst Hwo Hro Hwi Hri Hin Hout Hlen Hsl Hntr Hd].
    rewrite He in Hntr.
    assert (Hc : loop_cond s = true).
    { unfold loop_cond. rewrite Hntr.
      destruct (Z.eqb_spec (PAGESZ - off (rpos s)) 0); [lia|reflexivity]. }
    set (k := Z.min n (PAGESZ - off (rpos s))).
    assert (Hk : 1 <= k <= n /\ k <= PAGESZ - off (rpos s)) by lia.
    destruct (iteration_goes_on B (ev_read nice k f) s HB HI)
      as (s1 & H1 & HI1 & Hp1).
    { split; [reflexivity|]. split.
      - intros _. split; [apply sys_ok_nice|]. cbn. rewrite Hntr.
        split; [lia|]. intros Hx. consts. lia.
      - unfold writes. cbn. rewrite andb_false_r. discriminate. }
    assert (Hr : reads (ev_read nice k f) s = true).
    { unfold reads. cbn. rewrite Hntr.
      destruct (Z.eqb_spec (PAGESZ - off (rpos s)) 0); [lia|reflexivity]. }
    destruct Hp1 as [I1 O1 _ _ E1 Old1 New1 _ _].
    unfold nread, nwritten, sees_eof, writes, chunk in *. rewrite Hr in *.
    cbn in I1, O1, E1, New1. rewrite andb_false_r in O1.
    rewrite orb_false_r in E1.
    destruct (IH (n - k) ltac:(lia) s1 (fun j => f (k + j)) HI1)
      as (tr & s' & Hex & HI' & Hout' & Hlen' & Hold' & Hnew');
      try lia; try congruence.
    exists (ev_read nice k f :: tr), s'.
    cbn [exec]. rewrite Hc, H1. cbn [bind].
    split; [exact Hex|]. split; [exact HI'|]. split; [lia|].
    split; [lia|]. split.
    + intros p Hp. rewrite Hold', Old1 by lia. reflexivity.
    + intros j Hj.
      destruct (Z.lt_ge_cases j k) as [Hjk|Hjk].
      * rewrite Hold' by lia. apply New1. lia.
      * replace (len (stdin_read s) + j)
          with (len (stdin_read s1) + (j - k)) by lia.
        rewrite Hnew' by lia. f_equal. lia.
Qed.

(** What an iteration writes is at most what was there to write when it
    began. *)
Lemma iteration_written_le B e s s' :
  B < 2 ^ 64 -> InvB B s -> iteration e s = Ok s' ->
  nwritten e s <= ntowrite s.
Proof.
  intros HB [HI Hnw] H. unfold iteration in H.
  set (s0 := log _ s) in H.
  pose proof (avail_bounds _ _ HI) as Hav.
  assert (HI0 : Inv B s0).
  { split; [eapply Inv0_same; [exact HI|..]; reflexivity|].
    subst s0. unfold avail in *. sproj. lia. }
  destruct (select_ok e); cbn [negb] in H; [|discriminate].
  change (negb (ntoread s0 =? 0) && stdin_ready e) with (reads e s) in H.
  destruct (if reads e s then read_stdin e s0 else Ok s0)
    as [s1| | |] eqn:Hr; cbn [bind] in H; try discriminate.
  assert (H1 : Inv B s1 /\ ntowrite s1 = ntowrite s).
  { destruct (reads e s) eqn:Hrd.
    - assert (Hn : ntoread s0 <> 0).
      { unfold reads in Hrd. apply andb_true_iff in Hrd.
        destruct Hrd as [Hrd _]. apply negb_true_iff, Z.eqb_neq in Hrd.
        exact Hrd. }
      pose proof (wp_ok _ _ _ _ Hr
                    (read_stdin_spec True B e s0 HB HI0 Hn (or_introl I)))
        as [HI1 Hp].
      split; [exact HI1|]. rewrite (rp_ntowrite _ _ _ Hp). reflexivity.
    - injection Hr as <-. split; [exact HI0|reflexivity]. }
  destruct H1 as [HI1 Hnw1]. rewrite Hnw1 in H.
  change (negb (ntowrite s =? 0) && stdout_ready e) with (writes e s) in H.
  unfold nwritten. destruct (writes e s) eqn:Hw; [|lia].
  destruct (write_stdout e s1) as [s2| | |] eqn:Hws; cbn [bind] in H;
    try discriminate.
  assert (Hn : ntowrite s1 <> 0).
  { rewrite Hnw1. unfold writes in Hw. apply andb_true_iff in Hw.
    destruct Hw as [Hw _]. apply negb_true_iff, Z.eqb_neq in Hw. exact Hw. }
  pose proof (wp_ok _ _ _ _ Hws
                (write_stdout_spec True B e s1 HB HI1 Hn (or_introl I)))
    as [_ Hp].
  pose proof (wq_bound _ _ _ Hp) as Hk. unfold wr_len in Hk.
  destruct (wr e); lia.
Qed.

Lemma same_streams_refl s : same_streams s s.
Proof. split; reflexivity. Qed.

Lemma same_streams_trans s1 s2 s3 :
  same_streams s1 s2 -> same_streams s2 s3 -> same_streams s1 s3.
Proof. intros [] []. split; congruence. Qed.

Lemma kept_from s s1 r : same_streams s s1 -> kept s1 r -> kept s r.
Proof.
  intros H. unfold kept.
  destruct r; cbn; auto; apply same_streams_trans; exact H.
Qed.

Lemma kept_bind s r k :
  kept s r -> (forall s1, same_streams s s1 -> kept s (k s1)) ->
  kept s (bind r k).
Proof. destruct r; cbn; auto. Qed.

Ltac kept_tac :=
  repeat (cbn [bind];
    first [ exact I
          | solve [split; reflexivity]
          | match goal with
            | |- context [if ?c then _ else _] => destruct c
            | |- context [match ?x with _ => _ end] => destruct x
            end ]).

Lemma page_pin_kept sy i s : kept s (page_pin sy i s).
Proof.
  unfold page_pin, pin_existing, pin_anon, pin_ondisk, page_filepath,
    assert, die.
  kept_tac.
Qed.

Lemma page_unpin_kept sy i s : kept s (page_unpin sy i s).
Proof. unfold page_unpin, assert, die. kept_tac. Qed.

Lemma page_free_kept sy i s : kept s (page_free sy i s).
Proof. unfold page_free, page_filepath, assert, die. kept_tac. Qed.

Lemma safe_output_same s s' :
  safe_output s -> same_streams s s' -> safe_output s'.
Proof. intros H [E1 E2]. unfold safe_output. rewrite E1, E2. exact H. Qed.

Lemma kept_ends s r (Q : state -> Prop) :
  safe_output s -> kept s r -> (forall s', Q s') ->
  ends r Q safe_output.
Proof.
  intros H Hk HQ. destruct r; cbn in *; auto.
  eapply safe_output_same; eassumption.
Qed.

Lemma Inv0_safe_output B s : Inv0 B s -> safe_output s.
Proof. intros H. split; [apply (i_le _ _ H)|apply (i_data _ _ H)]. Qed.

Lemma page_ptr_cases a s :
  page_ptr a s = Ok s \/ exists x, page_ptr a s = Aborted x.
Proof.
  unfold page_ptr, assert.
  destruct (idx a <? TABLESZ); cbn [bind]; [|eauto].
  destruct (off a <? PAGESZ); cbn [bind]; [|eauto].
  destruct (has (states s (idx a)) PAGE_MAPPED); eauto.
Qed.

Lemma read_stdin_ends B e s :
  Inv0 B s -> ends (read_stdin e s) (fun _ => True) safe_output.
Proof.
  intros HI. pose proof (Inv0_safe_output _ _ HI) as Hs.
  unfold read_stdin.
  destruct (page_ptr_cases (rpos s) s) as [->|(x & ->)]; [|exact I].
  cbn [bind]. destruct (rd e) as [| |k d].
  - eapply safe_output_same; [exact Hs|]. split; reflexivity.
  - exact I.
  - destruct ((1 <=? k) && (k <=? ntoread s)) eqn:Hk; cbn [negb];
      [|exact I].
    apply andb_true_iff in Hk. destruct Hk as [Hk _]. apply Z.leb_le in Hk.
    set (sA := set_rpos _ _).
    assert (HA : safe_output sA).
    { subst sA. destruct Hs as [Hl Hp]. split; sproj; unfold deposit; sproj.
      - lia.
      - intros p Hp0. rewrite Hp by lia.
        destruct (Z.ltb_spec p (len (stdin_read s))); [reflexivity|lia]. }
    apply (kept_ends sA); [exact HA| |auto].
    apply kept_bind; [|intros s1 H1; exact H1].
    destruct (off (rpos sA) =? PAGESZ); [|apply same_streams_refl].
    apply kept_bind.
    { destruct (negb (idx (rpos sA) =? idx (wpos sA)));
        [apply page_unpin_kept|apply same_streams_refl]. }
    intros s1 H1. cbv zeta.
    set (s2 := set_rpos _ s1).
    assert (H2 : same_streams sA s2) by exact H1.
    destruct (TABLESZ <=? idx (rpos s2)); [exact H2|].
    apply kept_bind.
    { eapply kept_from; [exact H2|apply page_pin_kept]. }
    intros s3 H3. exact H3.
Qed.

Lemma write_stdout_ends B e s :
  Inv B s -> ends (write_stdout e s) (fun _ => True) safe_output.
Proof.
  intros [HI Hnw]. pose proof (Inv0_safe_output _ _ HI) as Hs.
  pose proof (Inv0_idx_le _ _ HI) as Hle.
  unfold write_stdout.
  destruct (page_ptr_cases (wpos s) s) as [->|(x & ->)]; [|exact I].
  cbn [bind]. destruct (wr e) as [|k].
  - eapply safe_output_same; [exact Hs|]. split; reflexivity.
  - destruct ((0 <=? k) && (k <=? ntowrite s)) eqn:Hk; cbn [negb];
      [|exact I].
    apply andb_true_iff in Hk. destruct Hk as [Hk1 Hk2].
    apply Z.leb_le in Hk1. apply Z.leb_le in Hk2.
    set (sA := set_wpos _ _).
    assert (HA : safe_output sA).
    { assert (Hd : data_ok (emit k s)).
      { destruct HI as [Hst Hwo Hro Hwi Hri Hin Hout Hlen Hsl Hntr Hd].
        unfold avail in Hnw.
        apply emit_data; auto; try lia;
          destruct (Z.eqb_spec (idx (wpos s)) (idx (rpos s)));
          consts; nia. }
      pose proof (emit_facts k s) as Hf.
      assert (Hl : len (stdout (emit k s)) <= len (stdin_read (emit k s))).
      { rewrite (ep_len _ _ _ Hf), (ep_stdin _ _ _ Hf).
        destruct HI as [Hst Hwo Hro Hwi Hri Hin Hout Hlen Hsl Hntr _].
        unfold avail in Hnw.
        destruct (Z.eqb_spec (idx (wpos s)) (idx (rpos s)));
          consts; nia. }
      split; [exact Hl|apply Hd]. }
    apply (kept_ends sA); [exact HA| |auto].
    destruct (off (wpos sA) =? PAGESZ); [|apply same_streams_refl].
    apply kept_bind; [apply page_unpin_kept|]. intros s1 H1.
    apply kept_bind.
    { eapply kept_from; [exact H1|apply page_free_kept]. }
    intros s2 H2. cbv zeta. set (s3 := set_wpos _ s2).
    assert (H3 : same_streams sA s3) by exact H2.
    apply kept_bind.
    { eapply kept_from; [exact H3|apply page_pin_kept]. }
    intros s4 H4. exact H4.
Qed.

Lemma iteration_ends B e s :
  B < 2 ^ 64 -> InvB B s ->
  ends (iteration e s) (fun _ => True) safe_output.
Proof.
  intros HB [HI Hnw]. unfold iteration.
  set (s0 := log _ s).
  pose proof (avail_bounds _ _ HI) as Hav.
  assert (HI0 : Inv B s0).
  { split; [eapply Inv0_same; [exact HI|..]; reflexivity|].
    subst s0. unfold avail in *. sproj. lia. }
  destruct (select_ok e); cbn [negb].
  2:{ eapply safe_output_same;
        [apply (Inv0_safe_output B), HI0|split; reflexivity]. }
  destruct (negb (ntoread s0 =? 0) && stdin_ready e) eqn:Hrd.
  - pose proof (read_stdin_ends B e s0 (proj1 HI0)) as Hr.
    destruct (read_stdin e s0) as [s1| | |] eqn:Hr1; cbn [bind];
      try exact I; [|exact Hr].
    assert (Hn : ntoread s0 <> 0).
    { apply andb_true_iff in Hrd. destruct Hrd as [Hrd _].
      apply negb_true_iff, Z.eqb_neq in Hrd. exact Hrd. }
    pose proof (wp_ok _ _ _ _ Hr1
                  (read_stdin_spec True B e s0 HB HI0 Hn (or_introl I)))
      as [HI1 _].
    destruct (negb (ntowrite s1 =? 0) && stdout_ready e); [|exact I].
    pose proof (write_stdout_ends B e s1 HI1) as Hw.
    destruct (write_stdout e s1); cbn [bind]; auto.
  - cbn [bind].
    destruct (negb (ntowrite s0 =? 0) && stdout_ready e); [|exact I].
    pose proof (write_stdout_ends B e s0 HI0) as Hw.
    destruct (write_stdout e s0); cbn [bind]; auto.
Qed.

Lemma exec_ends B tr s :
  B < 2 ^ 64 -> InvB B s ->
  ends (exec tr s) (fun _ => True) safe_output.
Proof.
  intros HB. revert s. induction tr as [|e tr IH]; intros s HI;
    cbn [exec]; [exact I|].
  destruct (loop_cond s); [|exact I].
  pose proof (iteration_ends B e s HB HI) as He.
  destruct (iteration e s) as [s1| | |] eqn:H1; cbn [bind]; auto.
  apply IH.
  exact (proj1 (wp_ok _ _ _ _ H1
                  (iteration_spec True B e s HB HI (or_introl I)))).
Qed.

(** Start-up leaves stdin and stdout alone. *)
Lemma boot_kept b : kept init (boot b).
Proof.
  unfold boot. destruct (getopt (argv b)) as [[c optind] says].
  cbv zeta.
  destruct (negb (c =? -1)); [split; reflexivity|].
  destruct (negb (Z.of_nat (length (argv b)) =? optind));
    [split; reflexivity|].
  destruct (negb (malloc_ok b)); [split; reflexivity|].
  destruct (memsize b) as [m|]; [|split; reflexivity].
  destruct (negb ((0 <=? m) && (m <? 2 ^ 64))); [exact I|].
  destruct (negb (fcntl_ok b)); [split; reflexivity|].
  apply kept_bind.
  - eapply kept_from; [|apply page_pin_kept]. split; reflexivity.
  - intros s1 H1. exact H1.
Qed.

(** Setting [MAPPED] sets it, whatever the byte was. *)
Lemma has_set_flag v f :
  Z.land f PAGE_MAPPED = PAGE_MAPPED ->
  has (set_flag v f) PAGE_MAPPED = true.
Proof.
  intros Hf. unfold has, set_flag, wrap8.
  rewrite <- (Z.land_ones _ 8) by lia.
  rewrite <- Z.land_assoc. change (Z.land (Z.ones 8) PAGE_MAPPED) with 1.
  change PAGE_MAPPED with 1 in Hf.
  rewrite Z.land_lor_distr_l, Hf.
  destruct (Z.eqb_spec (Z.lor (Z.land v 1) 1) 0) as [E|E]; [|reflexivity].
  apply Z.lor_eq_0_iff in E. lia.
Qed.

Lemma pin_ok_idx sy i s s' : page_pin sy i s = Ok s' -> i < TABLESZ.
Proof.
  unfold page_pin, assert. destruct (Z.ltb_spec i TABLESZ); [auto|].
  discriminate.
Qed.

(** Going through the branches of a page operation that has gone on. *)
Ltac branches :=
  repeat (cbn [bind];
    lazymatch goal with
    | |- Ok _ = Ok _ -> _ => fail
    | |- context [if ?c then _ else _] => destruct c
    | |- context [match ?x with _ => _ end] => destruct x
    end);
  cbn [bind]; try discriminate;
  let H := fresh in
  intros H; injection H as <-;
  repeat match goal with
         | |- context [if ?c then _ else _] => destruct c
         end;
  sproj.

Lemma count_is_ext p st st' n :
  (forall j, st' j = st j) -> count_is p st n -> count_is p st' n.
Proof.
  intros E (M & HM & Hn). exists M. split; [|exact Hn].
  intros j. rewrite E. apply HM.
Qed.

(** The books are determined by the table. *)
Lemma store_ok_same_table B s s' :
  store_ok B s -> store_ok B s' -> (forall j, states s' j = states s j) ->
  nmapped s' = nmapped s /\ nondisk s' = nondisk s /\ files s' = files s.
Proof.
  intros H H' E. split; [|split].
  - eapply count_is_unique; [apply (so_nmapped _ _ H')|].
    apply (count_is_ext _ (states s)); [exact E|apply (so_nmapped _ _ H)].
  - eapply count_is_unique; [apply (so_nondisk _ _ H')|].
    apply (count_is_ext _ (states s)); [exact E|apply (so_nondisk _ _ H)].
  - apply set_eq. intros j.
    rewrite (so_files _ _ H' j), (so_files _ _ H j), E. reflexivity.
Qed.

Lemma unpin_ok_idx sy i s s' : page_unpin sy i s = Ok s' -> i < TABLESZ.
Proof.
  unfold page_unpin, assert. destruct (Z.ltb_spec i TABLESZ); [auto|].
  discriminate.
Qed.

Lemma digits_length fuel n acc :
  (String.length (Spool.digits fuel n acc) <= fuel + String.length acc)%nat.
Proof.
  revert n acc. induction fuel as [|fuel IH]; intros n acc;
    cbn [Spool.digits]; [lia|].
  destruct (n / 10 =? 0).
  - cbn [String.length]. lia.
  - specialize (IH (n / 10) (String (Spool.digit (n mod 10)) acc)).
    cbn [String.length] in IH. lia.
Qed.

Lemma value_digit d acc a :
  0 <= d < 10 ->
  Spool.value (String (Spool.digit d) acc) a = Spool.value acc (a * 10 + d).
Proof.
  intros Hd. cbn [Spool.value]. unfold Spool.digit.
  rewrite nat_ascii_embedding by lia. f_equal. lia.
Qed.

Lemma value_digits fuel n acc :
  0 <= n < 10 ^ Z.of_nat fuel ->
  exists k, 0 <= k /\
    forall a, Spool.value (Spool.digits fuel n acc) a
              = Spool.value acc (a * 10 ^ k + n).
Proof.
  revert n acc. induction fuel as [|fuel IH]; intros n acc Hn.
  - exists 0. split; [lia|]. intros a. cbn [Spool.digits].
    f_equal. cbn in Hn. lia.
  - cbn [Spool.digits].
    assert (Hm : 0 <= n mod 10 < 10) by (apply Z.mod_pos_bound; lia).
    pose proof (Z.div_mod n 10 ltac:(lia)) as Hdm.
    destruct (Z.eqb_spec (n / 10) 0) as [E|E].
    + exists 1. split; [lia|]. intros a. rewrite value_digit by exact Hm.
      f_equal. lia.
    + destruct (IH (n / 10) (String (Spool.digit (n mod 10)) acc))
        as (k & Hk & Hv).
      { split; [apply Z.div_pos; lia|].
        apply Z.div_lt_upper_bound; [lia|].
        rewrite Nat2Z.inj_succ, Z.pow_succ_r in Hn by lia. lia. }
      exists (k + 1). split; [lia|]. intros a.
      rewrite Hv, value_digit by exact Hm. f_equal.
      rewrite Z.pow_add_r by lia. lia.
Qed.

Lemma append_inj_r p x y :
  String.append p x = String.append p y -> x = y.
Proof.
  induction p as [|a p IH]; intros E; [exact E|].
  change (String a (String.append p x) = String a (String.append p y)) in E.
  injection E as E. auto.
Qed.

(** Reading back what [%zu] has written. *)
Lemma value_zu n : 0 <= n < 2 ^ 64 -> Spool.value (Spool.zu n) 0 = n.
Proof.
  intros Hn. unfold Spool.zu.
  destruct (value_digits 20 n EmptyString) as (k & _ & Hv).
  { split; [lia|]. eapply Z.lt_trans; [apply Hn|]. reflexivity. }
  rewrite Hv. cbn [Spool.value]. lia.
Qed.

Lemma last_counters_app l d acc :
  last_counters (l ++ [d]) acc
  = match d with
    | Counters nm nd nf => Some (nm, nd, nf)
    | _ => last_counters l acc
    end.
Proof.
  revert acc. induction l as [|x l IH]; intros acc.
  - destruct d; reflexivity.
  - cbn [app last_counters]. destruct x; apply IH.
Qed.

Lemma logged_log_counters s : logged (log_counters s).
Proof. unfold logged. sproj. now rewrite last_counters_app. Qed.

Lemma logged_same s s' :
  logged s -> stderr s' = stderr s -> nmapped s' = nmapped s ->
  nondisk s' = nondisk s -> nfree s' = nfree s -> logged s'.
Proof. unfold logged. intros H -> -> -> ->. exact H. Qed.

Lemma logged_log d s :
  logged s -> match d with Counters _ _ _ => False | _ => True end ->
  logged (log d s).
Proof.
  unfold logged. sproj. intros H Hd. rewrite last_counters_app.
  destruct d; try contradiction; exact H.
Qed.

Lemma ends_bind r k (Q E : state -> Prop) :
  ends r (fun s => ends (k s) Q E) E -> ends (bind r k) Q E.
Proof. destruct r; cbn; auto. Qed.

Lemma ends_mono r (Q Q' E : state -> Prop) :
  (forall s, Q s -> Q' s) -> ends r Q E -> ends r Q' E.
Proof. destruct r; cbn; auto. Qed.

(** A page operation that changes a counter ends with [log_counters]. *)
Ltac logged_tac H :=
  repeat (cbn [bind];
    lazymatch goal with
    | |- ends (Ok (log_counters _)) _ _ => fail
    | |- ends (Ok _) _ _ => fail
    | |- ends (Exited _ _) _ _ => fail
    | |- ends (Aborted _) _ _ => fail
    | |- context [if ?c then _ else _] => destruct c
    | |- context [match ?x with _ => _ end] => destruct x
    end);
  first [ exact I | apply logged_log_counters | exact H ].

Lemma page_pin_logged sy i s :
  logged s -> ends (page_pin sy i s) logged (fun _ => True).
Proof.
  intros H.
  unfold page_pin, pin_existing, pin_anon, pin_ondisk, page_filepath,
    assert, die.
  logged_tac H.
Qed.

Lemma page_unpin_logged sy i s :
  logged s -> ends (page_unpin sy i s) logged (fun _ => True).
Proof. intros H. unfold page_unpin, assert, die. logged_tac H. Qed.

Lemma page_free_logged sy i s :
  logged s -> ends (page_free sy i s) logged (fun _ => True).
Proof.
  intros H. unfold page_free, page_filepath, assert, die. logged_tac H.
Qed.

Ltac keep_logged H :=
  eapply logged_same; [exact H|..]; reflexivity.

Lemma read_stdin_logged e s :
  logged s -> ends (read_stdin e s) logged (fun _ => True).
Proof.
  intros H. unfold read_stdin.
  destruct (page_ptr_cases (rpos s) s) as [->|(x & ->)]; [|exact I].
  cbn [bind]. destruct (rd e) as [| |k d].
  - exact I.
  - eapply logged_same; [apply (logged_log (Line "end of input") s H I)|..];
      reflexivity.
  - destruct (negb _); [exact I|].
    set (sA := set_rpos _ _).
    assert (HA : logged sA).
    { assert (Hd : logged (deposit k d s)) by keep_logged H.
      eapply logged_same; [apply (logged_log (ReadBytes k) _ Hd I)|..];
        reflexivity. }
    apply ends_bind.
    destruct (off (rpos sA) =? PAGESZ).
    + apply ends_bind.
      eapply (ends_mono _ logged).
      2:{ destruct (negb _); [apply page_unpin_logged|]; exact HA. }
      intros s1 H1. cbv beta zeta. set (s2 := set_rpos _ s1).
      assert (H2 : logged s2) by keep_logged H1.
      destruct (TABLESZ <=? idx (rpos s2)); [exact I|].
      apply ends_bind.
      eapply (ends_mono _ logged); [|apply page_pin_logged; exact H2].
      intros s3 H3. cbn. keep_logged H3.
    + cbn. keep_logged HA.
Qed.

Lemma write_stdout_logged e s :
  logged s -> ends (write_stdout e s) logged (fun _ => True).
Proof.
  intros H. unfold write_stdout.
  destruct (page_ptr_cases (wpos s) s) as [->|(x & ->)]; [|exact I].
  cbn [bind]. destruct (wr e) as [|k]; [exact I|].
  destruct (negb _); [exact I|].
  set (sA := set_wpos _ _).
  assert (HA : logged sA).
  { assert (Hd : logged (emit k s)) by keep_logged H.
    eapply logged_same; [apply (logged_log (WroteBytes k) _ Hd I)|..];
      reflexivity. }
  destruct (off (wpos sA) =? PAGESZ); [|exact HA].
  apply ends_bind.
  eapply (ends_mono _ logged); [|apply page_unpin_logged; exact HA].
  intros s1 H1. cbv beta. apply ends_bind.
  eapply (ends_mono _ logged); [|apply page_free_logged; exact H1].
  intros s2 H2. cbv beta zeta. set (s3 := set_wpos _ s2).
  assert (H3 : logged s3) by keep_logged H2.
  apply ends_bind.
  eapply (ends_mono _ logged); [|apply page_pin_logged; exact H3].
  intros s4 H4. cbn. keep_logged H4.
Qed.

Lemma iteration_logged e s :
  logged s -> ends (iteration e s) logged (fun _ => True).
Proof.
  intros H. unfold iteration. set (s0 := log _ s).
  assert (H0 : logged s0) by (apply logged_log; [exact H|exact I]).
  destruct (negb (select_ok e)); [exact I|].
  apply ends_bind. eapply (ends_mono _ logged).
  2:{ destruct (_ && _); [apply read_stdin_logged|]; exact H0. }
  intros s1 H1. cbv beta. apply ends_bind. eapply (ends_mono _ logged).
  2:{ destruct (_ && _); [apply write_stdout_logged|]; exact H1. }
  intros s2 H2. cbn. keep_logged H2.
Qed.

Lemma exec_logged tr s :
  logged s -> ends (exec tr s) logged (fun _ => True).
Proof.
  revert s. induction tr as [|e tr IH]; intros s H; cbn [exec];
    [exact H|].
  destruct (loop_cond s); [|exact H].
  apply ends_bind. eapply ends_mono; [|apply iteration_logged; exact H].
  intros s1 H1. apply IH. exact H1.
Qed.

Lemma boot_logged b : ends (boot b) logged (fun _ => True).
Proof.
  unfold boot. destruct (getopt (argv b)) as [[c optind] says].
  cbv zeta.
  destruct (negb (c =? -1)); [exact I|].
  destruct (negb (Z.of_nat (length (argv b)) =? optind)); [exact I|].
  destruct (negb (malloc_ok b)); [exact I|].
  destruct (memsize b) as [m|]; [|exact I].
  destruct (negb ((0 <=? m) && (m <? 2 ^ 64))); [exact I|].
  destruct (negb (fcntl_ok b)); [exact I|].
  apply ends_bind.
  eapply (ends_mono _ logged);
    [|apply page_pin_logged, logged_log_counters].
  intros s1 H1. cbn. keep_logged H1.
Qed.

Lemma headroom_frees_app l d :
  headroom_frees (l ++ [d])
  = (headroom_frees l + if is_headroom_line d then 1 else 0)%nat.
Proof.
  induction l as [|x l IH]; cbn [app headroom_frees]; [lia|].
  rewrite IH. lia.
Qed.

Lemma reserve_same s s' :
  reserve_ok s -> stderr s' = stderr s -> headroom s' = headroom s ->
  reserve_ok s'.
Proof. unfold reserve_ok. intros H -> ->. exact H. Qed.

Lemma reserve_log d s :
  reserve_ok s -> is_headroom_line d = false -> reserve_ok (log d s).
Proof.
  unfold reserve_ok. sproj. intros H Hd.
  rewrite headroom_frees_app, Hd, H. lia.
Qed.

Ltac keep_reserve H :=
  eapply reserve_same; [exact H|..]; reflexivity.

Lemma pin_ondisk_reserve sy i s :
  reserve_ok s -> ends (pin_ondisk sy i s) reserve_ok (fun _ => True).
Proof.
  intros H. unfold pin_ondisk, page_filepath, assert, die.
  destruct (i <? TABLESZ); cbn [bind]; [|exact I].
  destruct (spool sy); try exact I. keep_reserve H.
Qed.

Lemma page_pin_reserve sy i s :
  reserve_ok s -> ends (page_pin sy i s) reserve_ok (fun _ => True).
Proof.
  intros H. unfold page_pin, assert.
  destruct (i <? TABLESZ); cbn [bind]; [|exact I].
  destruct (has (states s i) PAGE_MAPPED); [exact H|].
  apply ends_bind. eapply (ends_mono _ reserve_ok).
  { intros s1 H1. apply reserve_log; [exact H1|reflexivity]. }
  destruct (has (states s i) PAGE_ONDISK).
  - unfold pin_existing, page_filepath, assert, die.
    destruct (i <? TABLESZ); cbn [bind]; [|exact I].
    destruct (negb _); [exact I|].
    destruct (spool sy); try exact I; keep_reserve H.
  - destruct (negb (nfree s =? 0)); [|apply pin_ondisk_reserve; exact H].
    unfold pin_anon. destruct (anon sy); [keep_reserve H| |exact I].
    apply pin_ondisk_reserve.
    set (s1 := set_nfree 0 _).
    assert (H1 : reserve_ok s1).
    { eapply reserve_same;
        [apply (reserve_log (Line "out of memory, resetting nfree") s H);
         reflexivity|..]; reflexivity. }
    destruct (headroom s1) eqn:Hh; [|exact H1].
    unfold reserve_ok in *. rewrite Hh in H1. sproj.
    rewrite headroom_frees_app, H1. reflexivity.
Qed.

Lemma page_unpin_reserve sy i s :
  reserve_ok s -> ends (page_unpin sy i s) reserve_ok (fun _ => True).
Proof.
  intros H. unfold page_unpin, assert, die.
  destruct (i <? TABLESZ); cbn [bind]; [|exact I].
  destruct (negb _); [exact H|].
  destruct (has _ _); [|exact H].
  destruct (munmap_ok sy); [|exact I].
  apply reserve_log; [|reflexivity]. keep_reserve H.
Qed.

Lemma page_free_reserve sy i s :
  reserve_ok s -> ends (page_free sy i s) reserve_ok (fun _ => True).
Proof.
  intros H. unfold page_free, page_filepath, assert, die.
  destruct (i <? TABLESZ); cbn [bind]; [|exact I].
  destruct (has (states s i) PAGE_ONDISK).
  - destruct (negb _); cbn [bind]; [|exact I].
    destruct (_ && _); [|exact I].
    apply reserve_log; [|reflexivity]. keep_reserve H.
  - destruct (has _ _); [|exact H].
    destruct (munmap_ok sy); [|exact I].
    apply reserve_log; [|reflexivity]. keep_reserve H.
Qed.

Lemma read_stdin_reserve e s :
  reserve_ok s -> ends (read_stdin e s) reserve_ok (fun _ => True).
Proof.
  intros H. unfold read_stdin.
  destruct (page_ptr_cases (rpos s) s) as [->|(x & ->)]; [|exact I].
  cbn [bind]. destruct (rd e) as [| |k d].
  - exact I.
  - eapply reserve_same;
      [apply (reserve_log (Line "end of input") s H); reflexivity|..];
      reflexivity.
  - destruct (negb _); [exact I|].
    set (sA := set_rpos _ _).
    assert (HA : reserve_ok sA).
    { assert (Hd : reserve_ok (deposit k d s)) by keep_reserve H.
      eapply reserve_same;
        [apply (reserve_log (ReadBytes k) _ Hd); reflexivity|..];
        reflexivity. }
    apply ends_bind.
    destruct (off (rpos sA) =? PAGESZ).
    + apply ends_bind.
      eapply (ends_mono _ reserve_ok).
      2:{ destruct (negb _); [apply page_unpin_reserve|]; exact HA. }
      intros s1 H1. cbv beta zeta. set (s2 := set_rpos _ s1).
      assert (H2 : reserve_ok s2) by keep_reserve H1.
      destruct (TABLESZ <=? idx (rpos s2)); [exact I|].
      apply ends_bind.
      eapply (ends_mono _ reserve_ok); [|apply page_pin_reserve; exact H2].
      intros s3 H3. cbn. keep_reserve H3.
    + cbn. keep_reserve HA.
Qed.

Lemma write_stdout_reserve e s :
  reserve_ok s -> ends (write_stdout e s) reserve_ok (fun _ => True).
Proof.
  intros H. unfold write_stdout.
  destruct (page_ptr_cases (wpos s) s) as [->|(x & ->)]; [|exact I].
  cbn [bind]. destruct (wr e) as [|k]; [exact I|].
  destruct (negb _); [exact I|].
  set (sA := set_wpos _ _).
  assert (HA : reserve_ok sA).
  { assert (Hd : reserve_ok (emit k s)) by keep_reserve H.
    eapply reserve_same;
      [apply (reserve_log (WroteBytes k) _ Hd); reflexivity|..];
      reflexivity. }
  destruct (off (wpos sA) =? PAGESZ); [|exact HA].
  apply ends_bind.
  eapply (ends_mono _ reserve_ok); [|apply page_unpin_reserve; exact HA].
  intros s1 H1. cbv beta. apply ends_bind.
  eapply (ends_mono _ reserve_ok); [|apply page_free_reserve; exact H1].
  intros s2 H2. cbv beta zeta. set (s3 := set_wpos _ s2).
  assert (H3 : reserve_ok s3) by keep_reserve H2.
  apply ends_bind.
  eapply (ends_mono _ reserve_ok); [|apply page_pin_reserve; exact H3].
  intros s4 H4. cbn. keep_reserve H4.
Qed.

Lemma iteration_reserve e s :
  reserve_ok s -> ends (iteration e s) reserve_ok (fun _ => True).
Proof.
  intros H. unfold iteration. set (s0 := log _ s).
  assert (H0 : reserve_ok s0) by (apply reserve_log; [exact H|reflexivity]).
  destruct (negb (select_ok e)); [exact I|].
  apply ends_bind. eapply (ends_mono _ reserve_ok).
  2:{ destruct (_ && _); [apply read_stdin_reserve|]; exact H0. }
  intros s1 H1. cbv beta. apply ends_bind. eapply (ends_mono _ reserve_ok).
  2:{ destruct (_ && _); [apply write_stdout_reserve|]; exact H1. }
  intros s2 H2. cbn. keep_reserve H2.
Qed.

Lemma exec_reserve tr s :
  reserve_ok s -> ends (exec tr s) reserve_ok (fun _ => True).
Proof.
  revert s. induction tr as [|e tr IH]; intros s H; cbn [exec];
    [exact H|].
  destruct (loop_cond s); [|exact H].
  apply ends_bind. eapply ends_mono; [|apply iteration_reserve; exact H].
  intros s1 H1. apply IH. exact H1.
Qed.

(** getopt writes nothing when it finds no option. *)
Lemma getopt_quiet args c optind says :
  getopt args = (c, optind, says) -> c = -1 -> says = [].
Proof.
  intros H Hc. subst c. revert H.
  assert (D : forall o, (-1, o, @nil diag) = (-1, optind, says) -> says = []).
  { intros o E. injection E as _ <-. reflexivity. }
  destruct args as [|a0 args]; cbn [getopt]; [apply D|].
  generalize 0. induction args as [|arg args IH]; intros k;
    cbn [getopt_scan]; [apply D|].
  destruct (nonoption arg); [apply IH|].
  destruct arg as [|a [|c r]]; try apply D.
  destruct (_ && _); [apply D|].
  intros H. injection H as H _ _. vm_compute in H. discriminate.
Qed.

Lemma boot_reserve b : ends (boot b) reserve_ok (fun _ => True).
Proof.
  unfold boot. destruct (getopt (argv b)) as [[c optind] says] eqn:Hg.
  cbv zeta.
  destruct (negb (c =? -1)) eqn:Hc; [exact I|].
  destruct (negb (Z.of_nat (length (argv b)) =? optind)); [exact I|].
  destruct (negb (malloc_ok b)); [exact I|].
  destruct (memsize b) as [m|]; [|exact I].
  destruct (negb ((0 <=? m) && (m <? 2 ^ 64))); [exact I|].
  destruct (negb (fcntl_ok b)); [exact I|].
  apply negb_false_iff, Z.eqb_eq in Hc.
  rewrite (getopt_quiet _ _ _ _ Hg Hc).
  apply ends_bind.
  eapply (ends_mono _ reserve_ok); [|apply page_pin_reserve; reflexivity].
  intros s1 H1. cbn. keep_reserve H1.
Qed.

Lemma headroom_frees_in l :
  In (Line "using headroom") l <-> headroom_frees l <> 0%nat.
Proof.
  induction l as [|d l IH]; cbn [In headroom_frees]; [split; tauto|].
  rewrite IH. destruct (is_headroom_line d) eqn:Hd.
  - split; [lia|]. intros _. left.
    destruct d; try discriminate. cbn in Hd.
    apply String.eqb_eq in Hd. now subst.
  - split; [|intros H; right; lia].
    intros [->|H]; [discriminate|lia].
Qed.

(** ** Further properties *)

(** X1. At every iteration boundary what was written to stdout is the
    beginning of what was read from stdin: the bytes read are the bytes
    written, followed by the bytes still in the buffer,
    [len (stdin_read s) - len (stdout s)] of them. *)
Theorem written_prefix_of_read b tr s :
  boundary b tr = Ok s ->
  exists rest,
    bytes_of (stdin_read s) = bytes_of (stdout s) ++ rest /\
    Z.of_nat (length rest) = len (stdin_read s) - len (stdout s).
Proof.
  intros H. apply boundary_Inv0 in H.
  pose proof (Inv0_idx_le _ _ H) as Hle.
  destruct H as [Hst Hwo Hro Hwi Hri Hin Hout Hlen Hsl Hntr Hd].
  apply bytes_of_app.
  - consts. lia.
  - apply Hd.
Qed.

Lemma written_prefix_of_read_witness :
  let s := state_of (boundary (plain_boot GiB8)
                       [ev_read nice 6 (of_list hello); ev_write 2]) in
  boundary (plain_boot GiB8) [ev_read nice 6 (of_list hello); ev_write 2]
    = Ok s /\
  exists rest,
    bytes_of (stdin_read s) = bytes_of (stdout s) ++ rest /\
    Z.of_nat (length rest) = len (stdin_read s) - len (stdout s).
Proof.
  split; [apply goes_on_state; reflexivity|].
  apply (written_prefix_of_read (plain_boot GiB8)
           [ev_read nice 6 (of_list hello); ev_write 2]).
  apply goes_on_state. reflexivity.
Defined.

(** X2. Whenever the process exits, with status 0 or with status 1 after a
    refusal of the kernel at any point of the run, what it has written to
    stdout is the beginning of what it has read from stdin: no byte is
    written that was not read, and none out of its place. *)
Theorem exit_keeps_prefix b tr c s :
  main b tr = Exited c s ->
  exists rest, bytes_of (stdin_read s) = bytes_of (stdout s) ++ rest.
Proof.
  intros H.
  assert (Hs : safe_output s).
  { unfold main, boundary in H.
    pose proof (boot_kept b) as Hk.
    pose proof (boot_spec True b (or_introl I)) as Hb.
    destruct (boot b) as [s0|c0 s0| |]; cbn [bind] in H; try discriminate.
    - destruct Hb as (HB & HI & _).
      pose proof (exec_ends _ tr s0 HB HI) as He.
      pose proof (exec_safe _ tr s0 HB HI) as Hx.
      destruct (exec tr s0) as [s1|c1 s1| |]; cbn [bind] in H;
        try discriminate.
      + destruct (loop_cond s1); [discriminate|]. injection H as _ <-.
        apply (Inv0_safe_output (budget b)). apply Hx.
      + injection H as _ <-. exact He.
    - injection H as _ <-. destruct Hk as [E1 E2].
      unfold safe_output. rewrite E1, E2. cbn. split; [lia|]. intros; lia. }
  destruct Hs as [Hl Hp].
  destruct (Z.le_gt_cases 0 (len (stdout s))) as [H0|H0].
  - destruct (bytes_of_app (stdout s) (stdin_read s)) as (rest & E & _);
      [lia|exact Hp|].
    exists rest. exact E.
  - exists (bytes_of (stdin_read s)). unfold bytes_of at 2.
    rewrite Z2Nat.nonpos by lia. reflexivity.
Qed.

Lemma exit_keeps_prefix_witness :
  let b := plain_boot GiB8 in
  let tr := [ev_read nice 6 (of_list hello); ev_write 2;
             {| select_ok := false; stdin_ready := false;
                stdout_ready := false; rd := ReadEof; rd_sys := nice;
                wr := Wrote 0; wr_sys := nice |}] in
  let r := main b tr in
  r = Exited 1 (state_of r) /\
  exists rest,
    bytes_of (stdin_read (state_of r))
    = bytes_of (stdout (state_of r)) ++ rest.
Proof.
  split; [apply exit_code_state; reflexivity|].
  eapply (exit_keeps_prefix (plain_boot GiB8) _ 1).
  apply exit_code_state. reflexivity.
Defined.

(** X3. At every iteration boundary the cursors count the bytes: [rpos] is
    the position in the stream of the next byte to be read and [wpos] that
    of the next byte to be written, as page index and offset in the page. *)
Theorem cursors_count_bytes b tr s :
  boundary b tr = Ok s ->
  idx (rpos s) = len (stdin_read s) / PAGESZ /\
  off (rpos s) = len (stdin_read s) mod PAGESZ /\
  idx (wpos s) = len (stdout s) / PAGESZ /\
  off (wpos s) = len (stdout s) mod PAGESZ.
Proof.
  intros H. apply boundary_Inv0 in H.
  destruct H as [Hst Hwo Hro Hwi Hri Hin Hout Hlen Hsl Hntr Hd].
  rewrite Hin, Hout. consts.
  repeat split.
  - apply (Z.div_unique _ _ _ (off (rpos s))); lia.
  - apply (Z.mod_unique _ _ (idx (rpos s))); lia.
  - apply (Z.div_unique _ _ _ (off (wpos s))); lia.
  - apply (Z.mod_unique _ _ (idx (wpos s))); lia.
Qed.

Lemma cursors_count_bytes_witness :
  let s := state_of (boundary (plain_boot GiB8) page_through) in
  boundary (plain_boot GiB8) page_through = Ok s /\
  idx (rpos s) = len (stdin_read s) / PAGESZ /\
  off (rpos s) = len (stdin_read s) mod PAGESZ /\
  idx (wpos s) = len (stdout s) / PAGESZ /\
  off (wpos s) = len (stdout s) mod PAGESZ.
Proof.
  split; [apply goes_on_state; reflexivity|].
  apply (cursors_count_bytes (plain_boot GiB8) page_through).
  apply goes_on_state. reflexivity.
Defined.

(** X4. At every iteration boundary every byte that was read and is not yet
    written is in the page store, at the page and the offset of its
    position in the stream; that page lies between the two cursors and is
    mapped or on disk. *)
Theorem buffer_holds_unsent b tr s p :
  boundary b tr = Ok s ->
  len (stdout s) <= p < len (stdin_read s) ->
  pages s (p / PAGESZ) (p mod PAGESZ) = at_ (stdin_read s) p /\
  idx (wpos s) <= p / PAGESZ <= idx (rpos s) /\
  has (states s (p / PAGESZ)) PAGE_MAPPED
    || has (states s (p / PAGESZ)) PAGE_ONDISK = true.
Proof.
  intros H Hp. apply boundary_Inv0 in H.
  destruct H as [Hst Hwo Hro Hwi Hri Hin Hout Hlen Hsl Hntr Hd].
  destruct Hd as [_ Hd].
  assert (Hm : 0 <= p mod PAGESZ < PAGESZ) by (apply Z.mod_pos_bound; consts; lia).
  assert (E : p = p / PAGESZ * PAGESZ + p mod PAGESZ).
  { rewrite Z.mul_comm. apply Z.div_mod. consts. lia. }
  assert (Hr : idx (wpos s) <= p / PAGESZ <= idx (rpos s)).
  { consts. nia. }
  split; [|split; [exact Hr|]].
  - rewrite (Hd _ _ Hm) by lia. f_equal. lia.
  - pose proof (Hsl (p / PAGESZ)) as (_ & H2 & _).
    specialize (H2 Hr).
    assert (states s (p / PAGESZ) = 1 \/ states s (p / PAGESZ) = 2 \/
            states s (p / PAGESZ) = 3) as [->|[->| ->]] by lia; reflexivity.
Qed.

Lemma buffer_holds_unsent_witness :
  let s := state_of (boundary (plain_boot GiB8)
                       [ev_read nice 6 (of_list hello); ev_write 2]) in
  boundary (plain_boot GiB8) [ev_read nice 6 (of_list hello); ev_write 2]
    = Ok s /\
  len (stdout s) <= 4 < len (stdin_read s) /\
  pages s (4 / PAGESZ) (4 mod PAGESZ) = at_ (stdin_read s) 4 /\
  idx (wpos s) <= 4 / PAGESZ <= idx (rpos s) /\
  has (states s (4 / PAGESZ)) PAGE_MAPPED
    || has (states s (4 / PAGESZ)) PAGE_ONDISK = true.
Proof.
  split; [apply goes_on_state; reflexivity|].
  split; [vm_compute; split; [discriminate|reflexivity]|].
  apply (buffer_holds_unsent (plain_boot GiB8)
           [ev_read nice 6 (of_list hello); ev_write 2] _ 4).
  - apply goes_on_state. reflexivity.
  - vm_compute. split; [discriminate|reflexivity].
Defined.

(** X5. At every iteration boundary [ntoread], what the next [read] is asked
    for, is the room left in the page of [rpos], at least one byte, and 0
    after end of input; [ntowrite], what the next [write] is asked for, is
    the smaller of the bytes buffered and the bytes up to the end of the
    page of [wpos].  Neither call runs over the end of its page. *)
Theorem io_requests b tr s :
  boundary b tr = Ok s ->
  ntoread s = (if eof_seen s then 0 else PAGESZ - off (rpos s)) /\
  ntowrite s = Z.min (len (stdin_read s) - len (stdout s))
                     (PAGESZ - off (wpos s)) /\
  (eof_seen s = false -> 1 <= ntoread s) /\
  off (rpos s) + ntoread s <= PAGESZ /\
  off (wpos s) + ntowrite s <= PAGESZ.
Proof.
  intros H. apply boundary_inv in H. destruct H as (_ & [H Hnw]).
  pose proof (Inv0_idx_le _ _ H) as Hle.
  destruct H as [Hst Hwo Hro Hwi Hri Hin Hout Hlen Hsl Hntr Hd].
  split; [exact Hntr|].
  assert (Hw : ntowrite s = Z.min (len (stdin_read s) - len (stdout s))
                                  (PAGESZ - off (wpos s))).
  { rewrite Hnw, Hin, Hout. unfold avail.
    destruct (Z.eqb_spec (idx (wpos s)) (idx (rpos s))); consts; lia. }
  split; [exact Hw|]. rewrite Hntr.
  split; [intros ->; lia|]. split; [destruct (eof_seen s); lia|lia].
Qed.

Lemma io_requests_witness :
  let s := state_of (boundary (plain_boot GiB8)
                       [ev_read nice 6 (of_list hello)]) in
  boundary (plain_boot GiB8) [ev_read nice 6 (of_list hello)] = Ok s /\
  ntoread s = (if eof_seen s then 0 else PAGESZ - off (rpos s)) /\
  ntowrite s = Z.min (len (stdin_read s) - len (stdout s))
                     (PAGESZ - off (wpos s)) /\
  (eof_seen s = false -> 1 <= ntoread s) /\
  off (rpos s) + ntoread s <= PAGESZ /\
  off (wpos s) + ntowrite s <= PAGESZ.
Proof.
  split; [apply goes_on_state; reflexivity|].
  apply (io_requests (plain_boot GiB8) [ev_read nice 6 (of_list hello)]).
  apply goes_on_state. reflexivity.
Defined.

(** X6. An iteration writes no byte that it has read itself: after an
    iteration that starts at a boundary, what was written is at most what
    had been read before it, and the iteration has written at most
    [ntowrite] bytes, the count made at the end of the iteration before. *)
Theorem written_after_read b tr s e s' :
  boundary b tr = Ok s -> iteration e s = Ok s' ->
  len (stdout s') <= len (stdin_read s) /\
  len (stdout s') - len (stdout s) <= ntowrite s.
Proof.
  intros H H'.
  destruct (iteration_inv _ _ _ _ _ H H') as (HB & HI & _ & Hp).
  pose proof (iteration_written_le _ _ _ _ HB HI H') as Hk.
  rewrite (sp_out _ _ _ Hp).
  destruct HI as [HI Hnw].
  pose proof (Inv0_idx_le _ _ HI) as Hle.
  destruct HI as [Hst Hwo Hro Hwi Hri Hin Hout Hlen Hsl Hntr Hd].
  split; [|lia].
  assert (avail s <= len (stdin_read s) - len (stdout s)); [|lia].
  rewrite Hin, Hout. unfold avail.
  destruct (Z.eqb_spec (idx (wpos s)) (idx (rpos s))); consts; nia.
Qed.

Lemma written_after_read_witness :
  let b := plain_boot GiB8 in
  let e := ev_write 6 in
  let s := state_of (boundary b [ev_read nice 6 (of_list hello)]) in
  let s' := state_of (iteration e s) in
  boundary b [ev_read nice 6 (of_list hello)] = Ok s /\
  iteration e s = Ok s' /\
  len (stdout s') <= len (stdin_read s) /\
  len (stdout s') - len (stdout s) <= ntowrite s.
Proof.
  split; [apply goes_on_state; reflexivity|].
  split; [apply goes_on_state; reflexivity|].
  apply (written_after_read (plain_boot GiB8)
           [ev_read nice 6 (of_list hello)] _ (ev_write 6));
    apply goes_on_state; reflexivity.
Defined.

(** X7. After a [read] has returned 0 nothing more is read: later in the run
    the bytes read are the same, end of input stays seen and [ntoread]
    stays 0. *)
Theorem no_read_after_eof b tr1 tr2 s1 s2 :
  boundary b tr1 = Ok s1 -> eof_seen s1 = true ->
  boundary b (tr1 ++ tr2) = Ok s2 ->
  bytes_of (stdin_read s2) = bytes_of (stdin_read s1) /\
  eof_seen s2 = true /\ ntoread s2 = 0.
Proof.
  intros H1 He H2. rewrite (boundary_app _ _ _ _ H1) in H2.
  apply boundary_inv in H1. destruct H1 as (HB & HI1).
  pose proof (wp_ok _ _ _ _ H2 (exec_safe _ tr2 _ HB HI1)) as [HI2 Hg].
  destruct (exec_after_eof _ _ _ _ HB HI1 He H2) as [Hl He2].
  split; [|split; [exact He2|]].
  - symmetry. apply bytes_of_ext; [congruence|].
    intros p Hp. symmetry. apply (g_old _ _ Hg). lia.
  - rewrite (i_ntoread _ _ (proj1 HI2)), He2. reflexivity.
Qed.

Lemma no_read_after_eof_witness :
  let b := plain_boot GiB8 in
  let s1 := state_of (boundary b [ev_read nice 6 (of_list hello); ev_eof]) in
  let s2 := state_of (boundary b hello_run) in
  boundary b [ev_read nice 6 (of_list hello); ev_eof] = Ok s1 /\
  eof_seen s1 = true /\
  boundary b hello_run = Ok s2 /\
  bytes_of (stdin_read s2) = bytes_of (stdin_read s1) /\
  eof_seen s2 = true /\ ntoread s2 = 0.
Proof.
  split; [apply goes_on_state; reflexivity|].
  split; [reflexivity|].
  split; [apply goes_on_state; reflexivity|].
  apply (no_read_after_eof (plain_boot GiB8)
           [ev_read nice 6 (of_list hello); ev_eof] [ev_write 6]).
  - apply goes_on_state. reflexivity.
  - reflexivity.
  - apply goes_on_state. reflexivity.
Defined.

(** X8. From every iteration boundary the run can end: there are answers of
    the kernel (end of input, then stdout taking what it is offered) under
    which [main] returns 0, having read nothing more and written all that
    was read. *)
Theorem can_always_finish b tr s :
  boundary b tr = Ok s ->
  exists tr' s',
    main b (tr ++ tr') = Exited 0 s' /\
    bytes_of (stdin_read s') = bytes_of (stdin_read s) /\
    bytes_of (stdout s') = bytes_of (stdin_read s).
Proof.
  intros H. pose proof (boundary_inv _ _ _ H) as (HB & HI).
  assert (exists tr' s', exec tr' s = Ok s' /\ loop_cond s' = false /\
            grows s s' /\ len (stdin_read s') = len (stdin_read s))
    as (tr' & s' & Hex & Hc & Hg & Hl).
  { pose proof (i_le _ _ (proj1 HI)) as Hle.
    destruct (eof_seen s) eqn:He.
    - destruct (drain_run _ HB (len (stdin_read s) - len (stdout s))
                  ltac:(lia) s HI He eq_refl)
        as (tr' & s' & Hex & Hc & _ & Hg & Hl).
      exists tr', s'. auto.
    - destruct (eof_step _ _ HB HI He) as (s1 & H1 & HI1 & Hg1 & He1 & Hl1).
      pose proof (i_le _ _ (proj1 HI1)) as Hle1.
      destruct (drain_run _ HB (len (stdin_read s1) - len (stdout s1))
                  ltac:(lia) s1 HI1 He1 eq_refl)
        as (tr' & s' & Hex & Hc & _ & Hg & Hl).
      exists ([ev_eof] ++ tr'), s'. rewrite exec_app, H1. cbn [bind].
      split; [exact Hex|]. split; [exact Hc|].
      split; [eapply grows_trans; eassumption|lia]. }
  exists tr', s'.
  assert (Hm : main b (tr ++ tr') = Exited 0 s').
  { apply main_exit0. rewrite (boundary_app _ _ _ _ H). auto. }
  assert (E : bytes_of (stdin_read s') = bytes_of (stdin_read s)).
  { symmetry. apply bytes_of_ext; [congruence|].
    intros p Hp. symmetry. apply (g_old _ _ Hg). lia. }
  split; [exact Hm|]. split; [exact E|].
  destruct (exit_copies _ _ _ Hm) as (_ & _ & E'). congruence.
Qed.

Lemma can_always_finish_witness :
  let b := plain_boot GiB8 in
  let s := state_of (boundary b [ev_read nice 6 (of_list hello)]) in
  boundary b [ev_read nice 6 (of_list hello)] = Ok s /\
  exists tr' s',
    main b ([ev_read nice 6 (of_list hello)] ++ tr') = Exited 0 s' /\
    bytes_of (stdin_read s') = bytes_of (stdin_read s) /\
    bytes_of (stdout s') = bytes_of (stdin_read s).
Proof.
  split; [apply goes_on_state; reflexivity|].
  apply (can_always_finish (plain_boot GiB8) [ev_read nice 6 (of_list hello)]).
  apply goes_on_state. reflexivity.
Defined.

(** X9. The program buffers.  For every input of fewer than
    [TABLESZ * PAGESZ] bytes there is a run, on a start-up that meets no
    refusal, in which the whole input is read before a byte is written;
    the next [write] is then asked for what the first page holds of it. *)
Theorem buffers_without_consumer b (S : list byte) :
  boot_ok b -> Z.of_nat (length S) < TABLESZ * PAGESZ ->
  exists tr s,
    boundary b tr = Ok s /\
    bytes_of (stdin_read s) = S /\ bytes_of (stdout s) = [] /\
    ntowrite s = Z.min (Z.of_nat (length S)) PAGESZ.
Proof.
  intros Hb HS.
  destruct (wp_ok_inv _ _ (boot_spec False b (or_intror Hb)))
    as (s0 & H0 & HB & HI0 & [Fe Fi Fo]).
  destruct (fill_run _ HB (Z.of_nat (length S)) ltac:(lia) s0 (of_list S)
              HI0 Fe ltac:(lia))
    as (tr & s & Hex & HI & Hout & Hlen & _ & Hnew).
  assert (Hbd : boundary b tr = Ok s).
  { unfold boundary. rewrite H0. exact Hex. }
  exists tr, s. split; [exact Hbd|]. split; [|split].
  - apply bytes_of_list; [lia|]. intros j Hj.
    specialize (Hnew j ltac:(lia)). rewrite Fi in Hnew. exact Hnew.
  - unfold bytes_of. rewrite Hout, Fo. reflexivity.
  - destruct HI as [HI Hnw].
    pose proof (Inv0_idx_le _ _ HI) as Hle.
    destruct HI as [Hst Hwo Hro Hwi Hri Hin Hout' Hlen' Hsl Hntr Hd].
    rewrite Hnw. unfold avail.
    destruct (Z.eqb_spec (idx (wpos s)) (idx (rpos s))); consts; lia.
Qed.

Lemma buffers_without_consumer_witness :
  boot_ok (plain_boot GiB8) /\
  Z.of_nat (length hello) < TABLESZ * PAGESZ /\
  exists tr s,
    boundary (plain_boot GiB8) tr = Ok s /\
    bytes_of (stdin_read s) = hello /\ bytes_of (stdout s) = [] /\
    ntowrite s = Z.min (Z.of_nat (length hello)) PAGESZ.
Proof.
  assert (Hb : boot_ok (plain_boot GiB8)).
  { apply boot_ok_plain. vm_compute. split; [discriminate|reflexivity]. }
  assert (Hl : Z.of_nat (length hello) < TABLESZ * PAGESZ).
  { vm_compute. reflexivity. }
  split; [exact Hb|]. split; [exact Hl|].
  apply (buffers_without_consumer (plain_boot GiB8) hello Hb Hl).
Defined.

(** X10. An iteration that starts at a boundary where the loop goes on
    reaches the next boundary whenever [select] succeeds, [read] and
    [write] return counts within what they were asked for, the kernel
    refuses none of the page operations and the table is not full; the
    streams grow by what [read] and [write] returned. *)
Theorem iteration_succeeds b tr s e :
  boundary b tr = Ok s -> loop_cond s = true -> event_ok e s ->
  exists s',
    iteration e s = Ok s' /\ boundary b (tr ++ [e]) = Ok s' /\
    len (stdin_read s') = len (stdin_read s) + nread e s /\
    len (stdout s') = len (stdout s) + nwritten e s.
Proof.
  intros H Hc He. pose proof (boundary_inv _ _ _ H) as (HB & HI).
  destruct (iteration_goes_on _ e s HB HI He) as (s' & H' & _ & Hp).
  exists s'. split; [exact H'|]. split.
  - rewrite (boundary_app _ _ _ _ H). cbn [exec]. rewrite Hc, H'.
    reflexivity.
  - split; [apply (sp_in _ _ _ Hp)|apply (sp_out _ _ _ Hp)].
Qed.

Lemma iteration_succeeds_witness :
  let b := plain_boot GiB8 in
  let s := state_of (boundary b []) in
  let e := ev_read nice 6 (of_list hello) in
  boundary b [] = Ok s /\ loop_cond s = true /\ event_ok e s /\
  exists s',
    iteration e s = Ok s' /\ boundary b ([] ++ [e]) = Ok s' /\
    len (stdin_read s') = len (stdin_read s) + nread e s /\
    len (stdout s') = len (stdout s) + nwritten e s.
Proof.
  assert (He : event_ok (ev_read nice 6 (of_list hello))
                 (state_of (boundary (plain_boot GiB8) []))).
  { split; [reflexivity|]. split.
    - intros _. split; [apply sys_ok_nice|]. cbn.
      split; [split; discriminate|]. intros _. reflexivity.
    - discriminate. }
  split; [apply goes_on_state; reflexivity|].
  split; [reflexivity|]. split; [exact He|].
  apply (iteration_succeeds (plain_boot GiB8) []).
  - apply goes_on_state. reflexivity.
  - reflexivity.
  - exact He.
Defined.

(** X11. The exit status is 0 or 1, and it is 0 only when end of input was
    seen and all that was read has been written. *)
Theorem exit_status b tr c s :
  main b tr = Exited c s ->
  (c = 0 /\ eof_seen s = true /\ len (stdout s) = len (stdin_read s)) \/
  c = 1.
Proof.
  intros H. destruct (Z.eq_dec c 0) as [->|Hc].
  - left. split; [reflexivity|].
    apply main_exit0 in H. destruct H as [H Hl].
    apply boundary_inv in H. destruct H as (_ & HI).
    apply (InvB_exit _ _ HI). exact Hl.
  - right. unfold main in H. pose proof (exits1_boundary b tr) as H1.
    destruct (boundary b tr) as [s0|c0 s0| |]; cbn [bind] in H;
      try discriminate.
    + destruct (loop_cond s0); [discriminate|]. congruence.
    + cbn in H1. congruence.
Qed.

Lemma exit_status_witness :
  let r := main flag_boot [] in
  r = Exited 1 (state_of r) /\
  ((1 = 0 /\ eof_seen (state_of r) = true /\
    len (stdout (state_of r)) = len (stdin_read (state_of r))) \/
   1 = 1).
Proof.
  split; [apply exit_code_state; reflexivity|].
  apply (exit_status flag_boot [] 1 (state_of (main flag_boot []))).
  apply exit_code_state. reflexivity.
Defined.

(** X12. Start-up goes through when [petabuf] is given no argument (or a
    lone [--]) and [malloc], [get_memsize], [fcntl] and the calls that make
    page 0 are not refused: the loop is entered and waits for input. *)
Theorem startup_succeeds b :
  boot_ok b ->
  exists s, boot b = Ok s /\ main b [] = Ok s /\ loop_cond s = true.
Proof.
  intros Hb.
  destruct (wp_ok_inv _ _ (boot_spec False b (or_intror Hb)))
    as (s & H & HB & HI & [Fe Fi Fo]).
  exists s. split; [exact H|].
  assert (Hc : loop_cond s = true).
  { unfold loop_cond. rewrite (i_ntoread _ _ (proj1 HI)), Fe.
    pose proof (i_ro _ _ (proj1 HI)).
    destruct (Z.eqb_spec (PAGESZ - off (rpos s)) 0); [lia|reflexivity]. }
  split; [|exact Hc].
  apply main_running. unfold boundary. rewrite H. auto.
Qed.

Lemma startup_succeeds_witness :
  boot_ok (plain_boot GiB8) /\
  exists s, boot (plain_boot GiB8) = Ok s /\
            main (plain_boot GiB8) [] = Ok s /\ loop_cond s = true.
Proof.
  assert (Hb : boot_ok (plain_boot GiB8)).
  { apply boot_ok_plain. vm_compute. split; [discriminate|reflexivity]. }
  split; [exact Hb|]. apply (startup_succeeds (plain_boot GiB8) Hb).
Defined.

(** X13. The state in which the loop is entered: both cursors at the start
    of page 0, [ntoread = PAGESZ], [ntowrite = 0], page 0 mapped and no
    other page present.  Page 0 is on disk exactly when the budget
    [memsize / PAGESZ / 2] is 0 or the anonymous [mmap] fails with
    [ENOMEM]; [nfree] is then 0, and the budget less one page otherwise. *)
Theorem boot_state b s :
  boot b = Ok s ->
  rpos s = {| idx := 0; off := 0 |} /\ wpos s = {| idx := 0; off := 0 |} /\
  ntoread s = PAGESZ /\ ntowrite s = 0 /\
  has (states s 0) PAGE_MAPPED = true /\
  (forall j, j <> 0 -> states s j = 0) /\
  (has (states s 0) PAGE_ONDISK = true <->
     budget b = 0 \/ anon (pin0 b) = MapNoMem) /\
  nfree s = (if has (states s 0) PAGE_ONDISK then 0 else budget b - 1).
Proof.
  intros H. unfold boot in H.
  destruct (getopt (argv b)) as [[c optind] says].
  destruct (negb (c =? -1)); [discriminate|].
  destruct (negb (Z.of_nat (length (argv b)) =? optind)); [discriminate|].
  destruct (negb (malloc_ok b)); [discriminate|].
  pose proof (budget_bound b) as HB. unfold budget in *.
  destruct (memsize b) as [m|]; [|discriminate].
  destruct ((0 <=? m) && (m <? 2 ^ 64)) eqn:Hr; cbn [negb] in H;
    [|discriminate].
  apply andb_true_iff in Hr. destruct Hr as [Hr1 Hr2].
  apply Z.leb_le in Hr1. apply Z.ltb_lt in Hr2.
  specialize (HB ltac:(intros m' E; injection E as <-; lia)).
  destruct (negb (fcntl_ok b)); [discriminate|].
  set (s0 := log_counters _) in H.
  assert (Hs0 : store_ok (m / PAGESZ / 2) s0).
  { eapply store_ok_same;
      [apply (store_ok_init (m / PAGESZ / 2) (m / PAGESZ / 2)); lia|..];
      reflexivity. }
  destruct (page_pin (pin0 b) 0 s0) as [s1| | |] eqn:Hp; cbn [bind] in H;
    try discriminate.
  injection H as <-.
  pose proof (wp_ok _ _ _ _ Hp
                (page_pin_spec True (m / PAGESZ / 2) (pin0 b) 0 s0
                   ltac:(lia) Hs0 ltac:(consts; lia) (or_introl I)))
    as [S1 R1 W1 NR1 NW1 SI1 EO1 SO1 SL1 OT1 NF1 PG1].
  sproj. rewrite R1, W1, SL1, NF1.
  change (states s0 0) with 0. change (nfree s0) with (m / PAGESZ / 2).
  split; [reflexivity|]. split; [reflexivity|].
  split; [reflexivity|]. split; [reflexivity|].
  unfold pin_state, pin_nfree. cbn [Z.eqb].
  split; [|split; [|split]].
  - destruct (m / PAGESZ / 2 =? 0); [reflexivity|].
    destruct (anon (pin0 b)); reflexivity.
  - intros j Hj. rewrite OT1 by exact Hj. reflexivity.
  - destruct (Z.eqb_spec (m / PAGESZ / 2) 0) as [E|E].
    + split; [auto|reflexivity].
    + destruct (anon (pin0 b)); cbn; split; try discriminate; auto;
        intros [?|?]; try contradiction; discriminate.
  - destruct (Z.eqb_spec (m / PAGESZ / 2) 0) as [E|E]; [reflexivity|].
    destruct (anon (pin0 b)); reflexivity.
Qed.

Lemma boot_state_witness :
  let b := tight_boot in
  let s := state_of (boot b) in
  boot b = Ok s /\
  rpos s = {| idx := 0; off := 0 |} /\ wpos s = {| idx := 0; off := 0 |} /\
  ntoread s = PAGESZ /\ ntowrite s = 0 /\
  has (states s 0) PAGE_MAPPED = true /\
  (forall j, j <> 0 -> states s j = 0) /\
  (has (states s 0) PAGE_ONDISK = true <->
     budget b = 0 \/ anon (pin0 b) = MapNoMem) /\
  nfree s = (if has (states s 0) PAGE_ONDISK then 0 else budget b - 1).
Proof.
  split; [apply goes_on_state; reflexivity|].
  apply (boot_state tight_boot). apply goes_on_state. reflexivity.
Defined.

(** X14. When start-up fails the exit status is 1 and nothing has been read
    from stdin or written to stdout, whatever the kernel would have
    answered in the loop. *)
Theorem startup_failure_clean b c s :
  boot b = Exited c s ->
  c = 1 /\ bytes_of (stdin_read s) = [] /\ bytes_of (stdout s) = [] /\
  forall tr, main b tr = Exited 1 s.
Proof.
  intros H. pose proof (boot_kept b) as Hk.
  pose proof (exits1_boundary b []) as H1.
  unfold boundary in H1. rewrite H in *. cbn in Hk, H1.
  destruct Hk as [E1 E2]. subst c.
  split; [reflexivity|]. unfold bytes_of. rewrite E1, E2.
  split; [reflexivity|]. split; [reflexivity|].
  intros tr. unfold main, boundary. rewrite H. reflexivity.
Qed.

Lemma startup_failure_clean_witness :
  let b := {| argv := ["petabuf"%string]; malloc_ok := true;
              memsize := None; fcntl_ok := true; pin0 := nice |} in
  let s := state_of (boot b) in
  boot b = Exited 1 s /\
  1 = 1 /\ bytes_of (stdin_read s) = [] /\ bytes_of (stdout s) = [] /\
  forall tr, main b tr = Exited 1 s.
Proof.
  split; [reflexivity|].
  eapply (startup_failure_clean _ 1). reflexivity.
Defined.

(** X15. Started with arguments none of which is an option, that is with
    arguments that do not start with [-] (or are [-] alone), followed by
    nothing or by [--] and anything, and not with a lone [--], the
    program prints the usage line to stderr and nothing else, exits with
    status 1, and has touched neither stdin nor stdout nor a spool file. *)
Theorem usage_on_arguments b tr prog pre rest :
  argv b = prog :: pre ++ rest ->
  forallb nonoption pre = true ->
  rest = [] \/ (exists more, rest = "--"%string :: more) ->
  pre ++ rest <> [] -> pre ++ rest <> ["--"%string] ->
  let r := main b tr in
  exit_code r = Some 1 /\
  stderr (state_of r) = [Line usage_line] /\
  len (stdout (state_of r)) = 0 /\ len (stdin_read (state_of r)) = 0 /\
  files (state_of r) = ∅.
Proof.
  intros Ha Hp Hr Hne Hnd. cbv zeta. unfold main, boundary, boot.
  rewrite Ha. cbn [getopt].
  assert (Hl : Z.of_nat (length (prog :: pre ++ rest))
               = 1 + Z.of_nat (length (pre ++ rest))).
  { cbn [length]. lia. }
  destruct Hr as [->|(more & ->)].
  - rewrite app_nil_r in *. rewrite (getopt_scan_end 0 pre Hp).
    cbv beta iota zeta. cbn [Z.eqb negb].
    destruct (Z.eqb_spec (Z.of_nat (length (prog :: pre))) 1) as [E|_].
    { destruct pre; [contradiction|]. cbn [length] in E. lia. }
    cbn. auto.
  - rewrite (getopt_scan_dashes 0 pre more Hp).
    cbv beta iota zeta. cbn [Z.eqb negb].
    destruct (Z.eqb_spec
                (Z.of_nat (length (prog :: pre ++ "--"%string :: more))) 2)
      as [E|_].
    { rewrite Hl, length_app in E. cbn [length] in E.
      destruct pre as [|a pre]; [|cbn [length] in E; lia].
      destruct more; [contradiction|]. cbn [length] in E. lia. }
    cbn. auto.
Qed.

Lemma usage_on_arguments_witness :
  let b := {| argv := ["petabuf"%string; "file"%string; "--"%string;
                       "-x"%string];
              malloc_ok := true; memsize := Some GiB8;
              fcntl_ok := true; pin0 := nice |} in
  let r := main b [] in
  argv b = "petabuf"%string
           :: ["file"%string] ++ ["--"%string; "-x"%string] /\
  forallb nonoption ["file"%string] = true /\
  (["--"%string; "-x"%string] = [] \/
   exists more, ["--"%string; "-x"%string] = "--"%string :: more) /\
  ["file"%string] ++ ["--"%string; "-x"%string] <> [] /\
  ["file"%string] ++ ["--"%string; "-x"%string] <> ["--"%string] /\
  exit_code r = Some 1 /\
  stderr (state_of r) = [Line usage_line] /\
  len (stdout (state_of r)) = 0 /\ len (stdin_read (state_of r)) = 0 /\
  files (state_of r) = ∅.
Proof.
  assert (H : ["--"%string; "-x"%string] = [] \/
              exists more, ["--"%string; "-x"%string] = "--"%string :: more).
  { right. exists ["-x"%string]. reflexivity. }
  assert (H1 : ["file"%string] ++ ["--"%string; "-x"%string] <> []).
  { discriminate. }
  assert (H2 : ["file"%string] ++ ["--"%string; "-x"%string]
               <> ["--"%string]).
  { discriminate. }
  split; [reflexivity|]. split; [reflexivity|]. split; [exact H|].
  split; [exact H1|]. split; [exact H2|].
  apply (usage_on_arguments _ [] "petabuf" ["file"%string]
           ["--"%string; "-x"%string]);
    [reflexivity|reflexivity|exact H|exact H1|exact H2].
Defined.

(** X16. At every iteration boundary the pages held in anonymous memory
    and [nfree] together are at most the budget [memsize / PAGESZ / 2]:
    anonymous pages never take more than half of the memory reported by
    [get_memsize]. *)
Theorem anonymous_within_budget b tr s m :
  boundary b tr = Ok s -> memsize b = Some m ->
  exists a,
    count_is memonly (states s) a /\
    a + nfree s <= m / PAGESZ / 2 /\
    2 * (a * PAGESZ) <= m.
Proof.
  intros H Hm. apply boundary_Inv0 in H.
  destruct (count_memonly _ _ (i_store _ _ H)) as (a & Hc & Ha & Hle).
  pose proof (so_nfree _ _ (i_store _ _ H)) as Hnf.
  unfold budget in Hle. rewrite Hm in Hle.
  exists a. split; [exact Hc|]. split; [lia|].
  assert (H0 : 0 <= m).
  { destruct (Z.le_gt_cases 0 m) as [?|Hneg]; [assumption|].
    assert (m / PAGESZ < 0) by (apply Z.div_lt_upper_bound; consts; lia).
    assert (m / PAGESZ / 2 < 0) by (apply Z.div_lt_upper_bound; lia).
    lia. }
  pose proof (Z.mul_div_le m PAGESZ ltac:(consts; lia)).
  pose proof (Z.mul_div_le (m / PAGESZ) 2 ltac:(lia)).
  consts. nia.
Qed.

Lemma anonymous_within_budget_witness :
  let s := state_of (boundary (plain_boot GiB8) page_through) in
  boundary (plain_boot GiB8) page_through = Ok s /\
  memsize (plain_boot GiB8) = Some GiB8 /\
  exists a,
    count_is memonly (states s) a /\
    a + nfree s <= GiB8 / PAGESZ / 2 /\
    2 * (a * PAGESZ) <= GiB8.
Proof.
  split; [apply goes_on_state; reflexivity|].
  split; [reflexivity|].
  apply (anonymous_within_budget (plain_boot GiB8) page_through).
  - apply goes_on_state. reflexivity.
  - reflexivity.
Defined.

(** X17. At every iteration boundary at most budget + 2 pages are mapped:
    the pages in anonymous memory and the pages of the two cursors. *)
Theorem mapped_within_budget b tr s m :
  boundary b tr = Ok s -> memsize b = Some m ->
  nmapped s <= m / PAGESZ / 2 + 2.
Proof.
  intros H Hm. apply boundary_Inv0 in H.
  pose proof (i_store _ _ H) as Hs.
  destruct (so_budget _ _ Hs) as (a & (M1 & HM1 & Ha) & Hle).
  destruct (so_nmapped _ _ Hs) as (M & HM & Hn).
  pose proof (so_nfree _ _ Hs) as Hnf.
  unfold budget in Hle. rewrite Hm in Hle.
  assert (Hsub : M ⊆ M1 ∪ ({[ idx (wpos s) ]} ∪ {[ idx (rpos s) ]})).
  { intros j Hj. apply HM in Hj. destruct Hj as [Hr Hj].
    pose proof (i_slots _ _ H j) as (H1 & H2 & H3 & H4).
    pose proof (so_val _ _ Hs j) as Hv.
    destruct (Z.eq_dec (states s j) 1) as [E|E].
    - apply elem_of_union_l. apply HM1. split; [exact Hr|].
      rewrite E. reflexivity.
    - apply elem_of_union_r.
      assert (states s j = 3).
      { assert (states s j = 0 \/ states s j = 2 \/ states s j = 3)
          as [E'|[E'|E']] by lia; rewrite E' in Hj;
          try discriminate; exact E'. }
      assert (j = idx (wpos s) \/ j = idx (rpos s)) as [->| ->] by lia;
        set_solver. }
  apply subseteq_size in Hsub.
  pose proof (size_union_le M1 ({[ idx (wpos s) ]} ∪ {[ idx (rpos s) ]})).
  pose proof (size_union_le {[ idx (wpos s) ]} {[ idx (rpos s) ]}).
  rewrite !size_singleton in *. lia.
Qed.

Lemma mapped_within_budget_witness :
  let s := state_of (boundary (plain_boot 0) two_pages_in) in
  boundary (plain_boot 0) two_pages_in = Ok s /\
  memsize (plain_boot 0) = Some 0 /\
  nmapped s <= 0 / PAGESZ / 2 + 2.
Proof.
  split; [apply goes_on_state; reflexivity|].
  split; [reflexivity|].
  apply (mapped_within_budget (plain_boot 0) two_pages_in).
  - apply goes_on_state. reflexivity.
  - reflexivity.
Defined.

(** X18. When the memory reported is less than two pages (32 MiB) the
    budget is 0: [nfree] is 0 at every iteration boundary, the first one
    included, and every page of the buffer is on disk, from page 0 on. *)
Theorem no_budget_all_on_disk b tr s m :
  memsize b = Some m -> m < 2 * PAGESZ ->
  boundary b tr = Ok s ->
  m / PAGESZ / 2 = 0 /\ nfree s = 0 /\
  forall j, idx (wpos s) <= j <= idx (rpos s) ->
    has (states s j) PAGE_ONDISK = true /\ j ∈ files s.
Proof.
  intros Hm Hlt H. apply boundary_Inv0 in H.
  pose proof (i_store _ _ H) as Hs.
  pose proof (store_ok_nfree _ _ Hs) as Hnf.
  assert (Hb : budget b = 0 /\ m / PAGESZ / 2 = 0).
  { unfold budget in *. rewrite Hm in *.
    assert (m / PAGESZ < 2) by (apply Z.div_lt_upper_bound; consts; lia).
    assert (m / PAGESZ / 2 < 1) by (apply Z.div_lt_upper_bound; lia).
    lia. }
  destruct Hb as [Hb Hb']. rewrite Hb in *.
  split; [exact Hb'|]. split; [lia|].
  intros j Hj.
  pose proof (i_slots _ _ H j) as (_ & H2 & _). specialize (H2 Hj).
  assert (Hd : has (states s j) PAGE_ONDISK = true).
  { destruct (Z.eq_dec (states s j) 1) as [E|E].
    - exfalso.
      assert (Hr : 0 <= j < TABLESZ).
      { apply (so_dom _ _ Hs). lia. }
      pose proof (store_ok_room _ _ _ Hs Hr E). lia.
    - assert (states s j = 2 \/ states s j = 3) as [->| ->] by lia;
        reflexivity. }
  split; [exact Hd|]. apply (so_files _ _ Hs). exact Hd.
Qed.

Lemma no_budget_all_on_disk_witness :
  let s := state_of (boundary (plain_boot 0) two_pages_in) in
  memsize (plain_boot 0) = Some 0 /\ 0 < 2 * PAGESZ /\
  boundary (plain_boot 0) two_pages_in = Ok s /\
  0 / PAGESZ / 2 = 0 /\ nfree s = 0 /\
  forall j, idx (wpos s) <= j <= idx (rpos s) ->
    has (states s j) PAGE_ONDISK = true /\ j ∈ files s.
Proof.
  split; [reflexivity|]. split; [reflexivity|].
  split; [apply goes_on_state; reflexivity|].
  apply (no_budget_all_on_disk (plain_boot 0) two_pages_in _ 0).
  - reflexivity.
  - reflexivity.
  - apply goes_on_state. reflexivity.
Defined.

(** X19. At every iteration boundary the spool files that exist are those
    of the slots marked [ONDISK], all of them between the two cursors, and
    [nondisk] is their number. *)
Theorem spool_files_tracked b tr s :
  boundary b tr = Ok s ->
  (forall j, j ∈ files s <-> has (states s j) PAGE_ONDISK = true) /\
  (forall j, j ∈ files s -> idx (wpos s) <= j <= idx (rpos s)) /\
  nondisk s = Z.of_nat (size (files s)).
Proof.
  intros H. apply boundary_Inv0 in H.
  pose proof (i_store _ _ H) as Hs.
  split; [exact (so_files _ _ Hs)|]. split.
  - intros j Hj. apply (so_files _ _ Hs) in Hj.
    pose proof (i_slots _ _ H j) as (H1 & _).
    destruct (Z.lt_ge_cases j (idx (wpos s))) as [Hl|Hl].
    { rewrite H1 in Hj by lia. discriminate. }
    destruct (Z.lt_ge_cases (idx (rpos s)) j) as [Hh|Hh].
    { rewrite H1 in Hj by lia. discriminate. }
    lia.
  - destruct (so_nondisk _ _ Hs) as (M & HM & Hn).
    rewrite Hn. f_equal. f_equal. apply set_eq. intros j.
    rewrite (HM j), (so_files _ _ Hs j). split; [tauto|].
    intros Hj. split; [|exact Hj].
    apply (so_dom _ _ Hs). intros E. rewrite E in Hj. discriminate.
Qed.

Lemma spool_files_tracked_witness :
  let s := state_of (boundary (plain_boot GiB8) two_pages_in) in
  boundary (plain_boot GiB8) two_pages_in = Ok s /\
  (forall j, j ∈ files s <-> has (states s j) PAGE_ONDISK = true) /\
  (forall j, j ∈ files s -> idx (wpos s) <= j <= idx (rpos s)) /\
  nondisk s = Z.of_nat (size (files s)).
Proof.
  split; [apply goes_on_state; reflexivity|].
  apply (spool_files_tracked (plain_boot GiB8) two_pages_in).
  apply goes_on_state. reflexivity.
Defined.

(** X20. The block [headroom] is freed at most once: at every iteration
    boundary either the pointer is set and [using headroom] was never
    logged, or it is null and the line was logged exactly once. *)
Theorem headroom_freed_once b tr s :
  boundary b tr = Ok s ->
  headroom_frees (stderr s) = (if headroom s then 0 else 1)%nat /\
  (headroom s = false <-> In (Line "using headroom") (stderr s)).
Proof.
  intros H.
  assert (Hr : reserve_ok s).
  { unfold boundary in H.
    pose proof (boot_reserve b) as H0.
    destruct (boot b) as [s0| | |]; cbn [bind] in H; try discriminate.
    pose proof (exec_reserve tr s0 H0) as H1. rewrite H in H1. exact H1. }
  split; [exact Hr|]. rewrite headroom_frees_in. unfold reserve_ok in Hr.
  rewrite Hr. destruct (headroom s); split; intros; try lia; auto;
    discriminate.
Qed.

Lemma headroom_freed_once_witness :
  let s := state_of (boundary tight_boot hello_run) in
  boundary tight_boot hello_run = Ok s /\
  headroom_frees (stderr s) = (if headroom s then 0 else 1)%nat /\
  (headroom s = false <-> In (Line "using headroom") (stderr s)).
Proof.
  split; [apply goes_on_state; reflexivity|].
  apply (headroom_freed_once tight_boot hello_run).
  apply goes_on_state. reflexivity.
Defined.

(** X21. At every iteration boundary the last line of [log_counters] on
    stderr shows the three counters as they are: every change of a counter
    is followed by [log_counters]. *)
Theorem log_up_to_date b tr s :
  boundary b tr = Ok s ->
  last_counters (stderr s) None = Some (nmapped s, nondisk s, nfree s).
Proof.
  intros H. unfold boundary in H.
  pose proof (boot_logged b) as H0.
  destruct (boot b) as [s0| | |]; cbn [bind] in H; try discriminate.
  pose proof (exec_logged tr s0 H0) as H1. rewrite H in H1. exact H1.
Qed.

Lemma log_up_to_date_witness :
  let s := state_of (boundary (plain_boot GiB8) spill_then_memory) in
  boundary (plain_boot GiB8) spill_then_memory = Ok s /\
  last_counters (stderr s) None = Some (nmapped s, nondisk s, nfree s).
Proof.
  split; [apply goes_on_state; reflexivity|].
  apply (log_up_to_date (plain_boot GiB8) spill_then_memory).
  apply goes_on_state. reflexivity.
Defined.

(** X22. No run fails an assertion: not the three of [page_ptr] (index,
    offset, mapped), not that of [page_filepath], and not the index
    assertions of [page_pin], [page_unpin] and [page_free]. *)
Theorem no_assertion_fails b tr a : main b tr <> Aborted a.
Proof.
  unfold main. pose proof (boundary_safe b tr) as H.
  destruct (boundary b tr) as [s| | |]; cbn [bind]; try discriminate.
  - destruct (loop_cond s); discriminate.
  - contradiction.
Qed.

(** X23. At every iteration boundary [page_ptr] returns for both cursors:
    their index is below [TABLESZ], their offset below [PAGESZ], and their
    page is mapped. *)
Theorem cursors_addressable b tr s :
  boundary b tr = Ok s ->
  page_ptr (rpos s) s = Ok s /\ page_ptr (wpos s) s = Ok s.
Proof.
  intros H. apply boundary_Inv0 in H.
  pose proof (Inv0_idx_le _ _ H) as Hle.
  destruct H as [Hst Hwo Hro Hwi Hri Hin Hout Hlen Hsl Hntr Hd].
  unfold page_ptr, assert.
  assert (Hr : has (states s (idx (rpos s))) PAGE_MAPPED = true).
  { eapply slot_mapped; [apply Hsl|exact Hle|auto]. }
  assert (Hw : has (states s (idx (wpos s))) PAGE_MAPPED = true).
  { eapply slot_mapped; [apply Hsl|exact Hle|auto]. }
  split.
  - destruct (Z.ltb_spec (idx (rpos s)) TABLESZ); [|lia]. cbn [bind].
    destruct (Z.ltb_spec (off (rpos s)) PAGESZ); [|lia]. cbn [bind].
    now rewrite Hr.
  - destruct (Z.ltb_spec (idx (wpos s)) TABLESZ); [|lia]. cbn [bind].
    destruct (Z.ltb_spec (off (wpos s)) PAGESZ); [|lia]. cbn [bind].
    now rewrite Hw.
Qed.

Lemma cursors_addressable_witness :
  let s := state_of (boundary (plain_boot GiB8) two_pages_in) in
  boundary (plain_boot GiB8) two_pages_in = Ok s /\
  page_ptr (rpos s) s = Ok s /\ page_ptr (wpos s) s = Ok s.
Proof.
  split; [apply goes_on_state; reflexivity|].
  apply (cursors_addressable (plain_boot GiB8) two_pages_in).
  apply goes_on_state. reflexivity.
Defined.

(** X24. Whatever the state, a [page_pin] that returns leaves its slot
    mapped and touches no other slot; on a slot that is mapped already it
    does nothing at all. *)
Theorem pin_leaves_mapped sy i s s' :
  page_pin sy i s = Ok s' ->
  has (states s' i) PAGE_MAPPED = true /\
  (forall j, j <> i -> states s' j = states s j) /\
  (has (states s i) PAGE_MAPPED = true -> s' = s).
Proof.
  intros H. unfold page_pin, assert in H.
  destruct (i <? TABLESZ); cbn [bind] in H; [|discriminate].
  destruct (has (states s i) PAGE_MAPPED) eqn:Hm.
  { injection H as <-. auto. }
  split; [|split; [|discriminate]].
  - revert H. unfold pin_existing, pin_anon, pin_ondisk, page_filepath,
      assert, die.
    branches; rewrite fn_lookup_insert; apply has_set_flag; reflexivity.
  - intros j Hj. revert H.
    unfold pin_existing, pin_anon, pin_ondisk, page_filepath, assert, die.
    branches; rewrite fn_lookup_insert_ne by congruence; reflexivity.
Qed.

Lemma pin_leaves_mapped_witness :
  let s := state_of (boundary (plain_boot GiB8) two_pages_in) in
  let s' := state_of (page_pin nice 1 s) in
  page_pin nice 1 s = Ok s' /\
  has (states s' 1) PAGE_MAPPED = true /\
  (forall j, j <> 1 -> states s' j = states s j) /\
  (has (states s 1) PAGE_MAPPED = true -> s' = s).
Proof.
  split; [apply goes_on_state; reflexivity|].
  apply (pin_leaves_mapped nice 1).
  apply goes_on_state. reflexivity.
Defined.

(** X25. A page that is mapped and on disk comes back as it was:
    [page_unpin] unmaps it, and a [page_pin] after that restores the table,
    the counters, the budget, the spool files and the content of every
    page. *)
Theorem unpin_pin_round_trip B sy sy' i s s1 s2 :
  B < 2 ^ 64 -> store_ok B s -> 0 <= i ->
  has (states s i) PAGE_MAPPED = true ->
  has (states s i) PAGE_ONDISK = true ->
  page_unpin sy i s = Ok s1 -> page_pin sy' i s1 = Ok s2 ->
  has (states s1 i) PAGE_MAPPED = false /\
  (forall j, states s2 j = states s j) /\
  (forall j o, pages s2 j o = pages s j o) /\
  nmapped s2 = nmapped s /\ nondisk s2 = nondisk s /\
  nfree s2 = nfree s /\ files s2 = files s.
Proof.
  intros HB Hs Hi Hm Hd H1 H2.
  pose proof (unpin_ok_idx _ _ _ _ H1) as Hlt.
  assert (H3 : states s i = 3).
  { pose proof (so_val _ _ Hs i) as Hv.
    assert (states s i = 0 \/ states s i = 1 \/ states s i = 2 \/
            states s i = 3) as [E|[E|[E|E]]] by lia;
      rewrite E in Hm, Hd; try discriminate; exact E. }
  pose proof (wp_ok _ _ _ _ H1
                (page_unpin_spec True B sy i s HB Hs ltac:(lia) (or_introl I)))
    as P1.
  pose proof (wp_ok _ _ _ _ H2
                (page_pin_spec True B sy' i s1 HB (pp_store _ _ _ _ _ _ P1)
                   ltac:(lia) (or_introl I)))
    as P2.
  destruct P1 as [S1 _ _ _ _ _ _ _ SL1 OT1 NF1 PG1].
  destruct P2 as [S2 _ _ _ _ _ _ _ SL2 OT2 NF2 PG2].
  rewrite H3 in SL1, PG1. cbn in SL1. rewrite SL1 in SL2, NF2, PG2.
  cbn in SL2, NF2.
  assert (E : forall j, states s2 j = states s j).
  { intros j. destruct (Z.eq_dec j i) as [->|Hj]; [congruence|].
    rewrite OT2, OT1 by exact Hj. reflexivity. }
  destruct (store_ok_same_table _ _ _ Hs S2 E) as (E1 & E2 & E3).
  split; [rewrite SL1; reflexivity|]. split; [exact E|].
  split; [|split; [exact E1|split; [exact E2|split; [congruence|exact E3]]]].
  intros j o. rewrite PG2, PG1; [reflexivity| |]; right; lia.
Qed.

Lemma unpin_pin_round_trip_witness :
  let s := state_of (boundary (plain_boot 0) []) in
  let s1 := state_of (page_unpin nice 0 s) in
  let s2 := state_of (page_pin nice 0 s1) in
  0 < 2 ^ 64 /\ store_ok 0 s /\ 0 <= 0 /\
  has (states s 0) PAGE_MAPPED = true /\
  has (states s 0) PAGE_ONDISK = true /\
  page_unpin nice 0 s = Ok s1 /\ page_pin nice 0 s1 = Ok s2 /\
  has (states s1 0) PAGE_MAPPED = false /\
  (forall j, states s2 j = states s j) /\
  (forall j o, pages s2 j o = pages s j o) /\
  nmapped s2 = nmapped s /\ nondisk s2 = nondisk s /\
  nfree s2 = nfree s /\ files s2 = files s.
Proof.
  assert (Hs : store_ok 0 (state_of (boundary (plain_boot 0) []))).
  { apply (i_store 0). apply (boundary_Inv0 (plain_boot 0) []).
    apply goes_on_state. reflexivity. }
  split; [reflexivity|]. split; [exact Hs|]. split; [discriminate|].
  split; [reflexivity|]. split; [reflexivity|].
  split; [apply goes_on_state; reflexivity|].
  split; [apply goes_on_state; reflexivity|].
  apply (unpin_pin_round_trip 0 nice nice 0 _ _ _ eq_refl Hs).
  - discriminate.
  - reflexivity.
  - reflexivity.
  - apply goes_on_state. reflexivity.
  - apply goes_on_state. reflexivity.
Defined.

(** X26. Pinning an absent slot and releasing it again with [page_unpin]
    and [page_free], as the two cursors do, restores the table, [nmapped],
    [nondisk] and the spool files; [nfree] too, unless the budget was not 0
    and the anonymous [mmap] failed with [ENOMEM], which puts the page on
    disk and leaves [nfree] at 0. *)
Theorem pin_free_round_trip B sy sy1 sy2 i s s1 s2 s3 :
  B < 2 ^ 64 -> store_ok B s -> 0 <= i -> states s i = 0 ->
  page_pin sy i s = Ok s1 -> page_unpin sy1 i s1 = Ok s2 ->
  page_free sy2 i s2 = Ok s3 ->
  (forall j, states s3 j = states s j) /\
  nmapped s3 = nmapped s /\ nondisk s3 = nondisk s /\ files s3 = files s /\
  nfree s3 = (if negb (nfree s =? 0) && has (states s1 i) PAGE_ONDISK
              then 0 else nfree s).
Proof.
  intros HB Hs Hi H0 H1 H2 H3.
  pose proof (pin_ok_idx _ _ _ _ H1) as Hlt.
  pose proof (wp_ok _ _ _ _ H1
                (page_pin_spec True B sy i s HB Hs ltac:(lia) (or_introl I)))
    as P1.
  pose proof (wp_ok _ _ _ _ H2
                (page_unpin_spec True B sy1 i s1 HB (pp_store _ _ _ _ _ _ P1)
                   ltac:(lia) (or_introl I)))
    as P2.
  assert (Hn3 : states s2 i <> 3).
  { rewrite (pp_slot _ _ _ _ _ _ P2). unfold unpin_state.
    destruct (Z.eqb_spec (states s1 i) 3); lia. }
  pose proof (wp_ok _ _ _ _ H3
                (page_free_spec True B sy2 i s2 HB (pp_store _ _ _ _ _ _ P2)
                   ltac:(lia) Hn3 (or_introl I)))
    as P3.
  destruct P1 as [S1 _ _ _ _ _ _ _ SL1 OT1 NF1 _].
  destruct P2 as [S2 _ _ _ _ _ _ _ SL2 OT2 NF2 _].
  destruct P3 as [S3 _ _ _ _ _ _ _ SL3 OT3 NF3 _].
  assert (E : forall j, states s3 j = states s j).
  { intros j. destruct (Z.eq_dec j i) as [->|Hj]; [congruence|].
    rewrite OT3, OT2, OT1 by exact Hj. reflexivity. }
  destruct (store_ok_same_table _ _ _ Hs S3 E) as (E1 & E2 & E3).
  split; [exact E|]. split; [exact E1|]. split; [exact E2|].
  split; [exact E3|].
  rewrite NF3, NF2, SL2, NF1, SL1, H0.
  unfold pin_state, pin_nfree, unpin_state, free_nfree. cbn [Z.eqb].
  destruct (Z.eqb_spec (nfree s) 0) as [En|En]; cbn [negb andb].
  - rewrite En. reflexivity.
  - destruct (anon sy); flags; cbn; lia.
Qed.

Lemma pin_free_round_trip_witness :
  let s := state_of (boundary (plain_boot GiB8) []) in
  let s1 := state_of (page_pin nice 1 s) in
  let s2 := state_of (page_unpin nice 1 s1) in
  let s3 := state_of (page_free nice 1 s2) in
  budget (plain_boot GiB8) < 2 ^ 64 /\
  store_ok (budget (plain_boot GiB8)) s /\ 0 <= 1 /\ states s 1 = 0 /\
  page_pin nice 1 s = Ok s1 /\ page_unpin nice 1 s1 = Ok s2 /\
  page_free nice 1 s2 = Ok s3 /\
  (forall j, states s3 j = states s j) /\
  nmapped s3 = nmapped s /\ nondisk s3 = nondisk s /\ files s3 = files s /\
  nfree s3 = (if negb (nfree s =? 0) && has (states s1 1) PAGE_ONDISK
              then 0 else nfree s).
Proof.
  assert (Hs : store_ok (budget (plain_boot GiB8))
                 (state_of (boundary (plain_boot GiB8) []))).
  { apply i_store. apply (boundary_Inv0 (plain_boot GiB8) []).
    apply goes_on_state. reflexivity. }
  split; [reflexivity|]. split; [exact Hs|]. split; [discriminate|].
  split; [reflexivity|].
  split; [apply goes_on_state; reflexivity|].
  split; [apply goes_on_state; reflexivity|].
  split; [apply goes_on_state; reflexivity|].
  eapply (pin_free_round_trip (budget (plain_boot GiB8)) nice nice nice 1
           _ _ _ _ eq_refl Hs).
  - discriminate.
  - reflexivity.
  - apply goes_on_state. reflexivity.
  - apply goes_on_state. reflexivity.
  - apply goes_on_state. reflexivity.
Defined.

(** X27. What the drain cursor does to the page it leaves: after
    [page_unpin] and [page_free] the slot is absent and has no spool file,
    the other slots and their files are untouched, and [nfree] has grown
    by one exactly when the page was in anonymous memory. *)
Theorem unpin_then_free B sy sy' i s s1 s2 :
  B < 2 ^ 64 -> store_ok B s -> 0 <= i ->
  page_unpin sy i s = Ok s1 -> page_free sy' i s1 = Ok s2 ->
  states s2 i = 0 /\ (i ∉ files s2) /\
  (forall j, j <> i ->
     states s2 j = states s j /\ (j ∈ files s2 <-> j ∈ files s)) /\
  nfree s2 = nfree s + b2z (memonly (states s i)) /\
  store_ok B s2.
Proof.
  intros HB Hs Hi H1 H2.
  pose proof (unpin_ok_idx _ _ _ _ H1) as Hlt.
  pose proof (wp_ok _ _ _ _ H1
                (page_unpin_spec True B sy i s HB Hs ltac:(lia) (or_introl I)))
    as P1.
  assert (Hn3 : states s1 i <> 3).
  { rewrite (pp_slot _ _ _ _ _ _ P1). unfold unpin_state.
    destruct (Z.eqb_spec (states s i) 3); lia. }
  pose proof (wp_ok _ _ _ _ H2
                (page_free_spec True B sy' i s1 HB (pp_store _ _ _ _ _ _ P1)
                   ltac:(lia) Hn3 (or_introl I)))
    as P2.
  destruct P1 as [S1 _ _ _ _ _ _ _ SL1 OT1 NF1 _].
  destruct P2 as [S2 _ _ _ _ _ _ _ SL2 OT2 NF2 _].
  split; [exact SL2|]. split; [|split; [|split; [|exact S2]]].
  - rewrite (so_files _ _ S2 i), SL2. discriminate.
  - intros j Hj. rewrite (so_files _ _ S2 j), (so_files _ _ Hs j).
    rewrite OT2, OT1 by exact Hj. split; reflexivity.
  - rewrite NF2, NF1, SL1. unfold free_nfree, unpin_state.
    pose proof (so_val _ _ Hs i) as Hv.
    assert (states s i = 0 \/ states s i = 1 \/ states s i = 2 \/
            states s i = 3) as [E|[E|[E|E]]] by lia; rewrite E; reflexivity.
Qed.

Lemma unpin_then_free_witness :
  let s := state_of (boundary (plain_boot GiB8) two_pages_in) in
  let s1 := state_of (page_unpin nice 1 s) in
  let s2 := state_of (page_free nice 1 s1) in
  budget (plain_boot GiB8) < 2 ^ 64 /\
  store_ok (budget (plain_boot GiB8)) s /\ 0 <= 1 /\
  page_unpin nice 1 s = Ok s1 /\ page_free nice 1 s1 = Ok s2 /\
  states s2 1 = 0 /\ (1 ∉ files s2) /\
  (forall j, j <> 1 ->
     states s2 j = states s j /\ (j ∈ files s2 <-> j ∈ files s)) /\
  nfree s2 = nfree s + b2z (memonly (states s 1)) /\
  store_ok (budget (plain_boot GiB8)) s2.
Proof.
  assert (Hs : store_ok (budget (plain_boot GiB8))
                 (state_of (boundary (plain_boot GiB8) two_pages_in))).
  { apply i_store. apply (boundary_Inv0 (plain_boot GiB8) two_pages_in).
    apply goes_on_state. reflexivity. }
  split; [reflexivity|]. split; [exact Hs|]. split; [discriminate|].
  split; [apply goes_on_state; reflexivity|].
  split; [apply goes_on_state; reflexivity|].
  eapply (unpin_then_free (budget (plain_boot GiB8)) nice nice 1
           _ _ _ eq_refl Hs).
  - discriminate.
  - apply goes_on_state. reflexivity.
  - apply goes_on_state. reflexivity.
Defined.

(** X28. The path of a spool file, [/tmp/petabuf.] and the index in
    decimal, has at most 33 characters: [page_filepath] never exits with
    [path too long], and it returns the path whenever its assertion
    holds. *)
Theorem spool_path_fits i s :
  (String.length (Spool.snprintf i) <= 33)%nat /\
  Spool.page_filepath i <> Spool.TooLong /\
  (page_filepath i s = Ok s <->
   Spool.page_filepath i = Spool.Path (Spool.snprintf i)).
Proof.
  assert (Hl : (String.length (Spool.snprintf i) <= 33)%nat).
  { unfold Spool.snprintf, Spool.zu.
    pose proof (digits_length 20 i EmptyString) as H.
    set (d := Spool.digits 20 i EmptyString) in *.
    change (S (S (S (S (S (S (S (S (S (S (S (S (S (String.length d))))))))))))) <= 33)%nat.
    cbn [String.length] in H. lia. }
  assert (Hp : (Spool.PATH_MAX <=? Z.of_nat (String.length (Spool.snprintf i)))
               = false).
  { apply Z.leb_gt. unfold Spool.PATH_MAX. lia. }
  split; [exact Hl|].
  unfold Spool.page_filepath, page_filepath, assert. cbv zeta. rewrite Hp.
  destruct (i <? TABLESZ); cbn [negb]; split; try discriminate;
    split; try reflexivity; discriminate.
Qed.

(** X29. Two pages never share a spool file: [page_filepath] returns
    different paths for different indices. *)
Theorem spool_paths_distinct i j p :
  0 <= i -> 0 <= j ->
  Spool.page_filepath i = Spool.Path p ->
  Spool.page_filepath j = Spool.Path p ->
  i = j.
Proof.
  intros Hi Hj. unfold Spool.page_filepath.
  destruct (Z.ltb_spec i TABLESZ) as [Hi'|]; cbn [negb]; [|discriminate].
  destruct (Z.ltb_spec j TABLESZ) as [Hj'|]; cbn [negb]; [|discriminate].
  cbv zeta.
  destruct (Spool.PATH_MAX <=? _); [discriminate|].
  destruct (Spool.PATH_MAX <=? _); [discriminate|].
  intros E1 E2. injection E1 as <-. injection E2 as E.
  unfold Spool.snprintf in E. apply append_inj_r in E.
  rewrite <- (value_zu i), <- (value_zu j) by (consts; lia).
  rewrite E. reflexivity.
Qed.

Lemma spool_paths_distinct_witness :
  0 <= 42 /\
  Spool.page_filepath 42 = Spool.Path "/tmp/petabuf.42" /\
  42 = 42.
Proof.
  split; [discriminate|]. split; [reflexivity|].
  apply (spool_paths_distinct 42 42 "/tmp/petabuf.42");
    first [discriminate|reflexivity].
Defined.
